(* ===== verification/_CoqProject ===== *)
-Q . S2P
Prelude.v
CtrFormat.v
CtrResult.v
CtrHeap.v
CtrSbrk.v
CtrMemProbe.v
CtrDspFirm.v
FileList.v
Paths.v
FrontendDriver.v
CtrFrontend.v
Displaylist.v
EntrySort.v
Settings.v
SettingsFlat.v
NavStack.v
Dispatcher.v
