(* ===== verification/Prelude.v ===== *)
(** * A verification development of RetroArch's 3DS frontend driver and
      menu displaylist layer

    The repository has two source files:
    - [src/frontend/drivers/platform_ctr.c] is the Nintendo 3DS ("ctr")
      frontend driver. It holds the libctru start-up overrides
      [__system_allocateHeaps] and [__libctru_exit], the driver hooks
      [frontend_ctr_get_environment_settings], [frontend_ctr_init],
      [frontend_ctr_deinit], [frontend_ctr_shutdown],
      [frontend_ctr_get_rating], [frontend_ctr_get_architecture] and
      [frontend_ctr_parse_drive_list], the firmware probe
      [ctr_check_dspfirm], the [Result] bitfield union [ctr_result_value]
      and its printer [dump_result_value], the input wait
      [wait_for_input], the libc shims [usleep] and [sysconf], and the
      capability table [frontend_ctx_ctr]. Two blocks are under [#if 0]
      and compiled by no build: the auto-start from [argv[1]] inside the
      environment hook, and a memory-debugging kit (the probe
      [ctr_crawl_memory]/[ctr_get_memory_info], [malloc] and [free]
      wrappers with statistics, and newlib's program break [_sbrk_r]).
      They are modelled as written, for the build that switches them on.
    - [src/menu/menu_displaylist.h] declares the displaylist interface: the
      [PARSE_*] filter bits, the [DISPLAYLIST_*] list-type enum, the request
      record [menu_displaylist_info_t] and the prototypes of the
      dispatcher and of the settings parser. The bodies of those
      prototypes, the entry list, the path helpers, the sort and the
      navigation stack are not under [src/]; they are modelled from the
      spec and marked [spec_modelled] in the manifest.

    How the parts interact: the application bootstrap looks up the driver
    table and calls its hooks in a fixed order (environment, init, run
    loop, deinit, shutdown), skipping the absent ones. libctru calls
    [__system_allocateHeaps] before [main] and [__libctru_exit] after it;
    the first sets newlib's [fake_heap_start]/[fake_heap_end], between
    which [_sbrk_r] hands out the memory [malloc] asks for.
    [frontend_ctr_init] calls [ctr_check_dspfirm], which reads and writes
    the SD card. [frontend_ctr_deinit] may call [wait_for_input], which can
    end the process. The menu builds lists through the displaylist
    dispatcher, which routes a request to a strategy; the settings screens
    use the settings parser, and the file browser at its root calls the
    driver's [parse_drive_list] through the driver interface. A built list
    is sorted on request and committed to the navigation stack.

    Files, in dependency order (each but [Prelude] holds one Module of the
    same name):
    - [Prelude] (this file): 32-bit wrap-around ([wrap32]), the page mask,
      little-endian words, the notation scope [ctr_scope], the hint
      databases [ctr] and [ctr_rw] and the tactics [u32_lia] and [zcase].
    - [CtrFormat]: the [printf] conversions the driver prints with
      ([%08X], [%016llX], [%u], [%d], [%-20s]) as functions to [string],
      readers for the numeric ones ([hex_value], [parse_u] through the
      Standard Library's [DecimalString]) and a line-by-line reader
      [parse_lines] that inverts [print_lines] on values in range; the
      text of the debug macros [DEBUG_HOLD], [DEBUG_VAR], [DEBUG_VAR64]
      and [PRINTFPOS]/[PRINTFPOS_STR] (lines 45-50).
    - [CtrResult]: [ctr_result_value] (lines 329-350) as shifts and masks
      of the [u32]; decode/encode round trips (C5, C6); the console text
      of [dump_result_value] reads back as the word and its four fields
      (C31), so two [Result]s print the same text exactly when they are
      the same 32-bit word; [DEBUG_ERROR] (line 48).
    - [CtrHeap]: [__system_allocateHeaps] (70-103) and [__libctru_exit]
      (105-124) over a record of the linker and kernel globals and a trace
      of [svcControlMemory] calls. The clamped heap size (C1, C2), the
      [int64_t] underflow of [mem_available] when the linear heap does
      not fit (C3, a defect), and a refinement against an abstract stack
      of reserved regions: each region is released once, in reverse
      order, before the one terminating event (C4).
    - [CtrSbrk]: [_sbrk_r] (414-465) over its static [heap_start], the
      [_errno] it sets and its five [uint32_t] statistics, with 32-bit
      pointer sums. It refines a bump allocator over [[base, limit]]
      (C25, by a simulation [sbrk_abs] step by step); after
      [__system_allocateHeaps] the blocks it grants tile the reserved
      heap (C26); a refused call sets [ENOMEM] and is invisible to every
      later call (C27, through an equivalence of states [sbrk_equiv] and
      its [Proper] instances).
    - [CtrMemProbe]: the [malloc]/[free] wrappers (388-412) and the probe
      (352-386), written against the type class [Malloc] of newlib's entry
      points and proved against its laws [MallocLaws] (and [ExactMalloc]
      for exact answers); the ideal allocator [stack_heap] instantiates
      both for the examples. The crawl ends (C30); [ctr_get_memory_info]
      frees all it allocates and stays in bounds (C29) and, on an exact
      allocator, reports the free memory and the largest block rounded
      down to 8 bytes (C28); a lemma shows the wrapper's statistics are
      the minimum and maximum over the blocks granted.
    - [CtrDspFirm]: [ctr_check_dspfirm] (243-291) over an SD card that is
      an stdpp [gmap string (list Z)] of byte files, with its outcomes as
      an inductive type (undefined reads included; an [fwrite] past the
      buffer comes after the [fopen] that created the file). The card
      changes only by creating the firmware file (C7); a second run finds
      the file the first one created and writes nothing, and otherwise
      repeats the first (C8); what is extracted and when (C9, C10); the
      32-bit pointer wrap that defeats the size guard and makes [fwrite]
      read past the buffer (C11, a defect); byte files stay byte files.
    - [FileList], [Paths] (from the spec): the entry list and
      [menu_entries_push]; [strlcpy], [strlcat], [fill_pathname_join] and
      [fill_pathname_basedir] with their truncation to a buffer size.
    - [FrontendDriver]: the capability table [frontend_ctx_driver_t] as a
      record of optional hooks (the interface the other components are
      proved against), and the bootstrap as a step relation [boot_step]
      over a state of phase, world and call trace. For every driver:
      phase and trace stay consistent, init runs at most once and before
      any deinit, and the all-absent driver runs (lemmas: the order is
      that of the relation's rules).
    - [CtrFrontend]: the driver's state [ctr_state] (the two audio driver
      structs that [frontend_ctr_init] writes through its pointer, the
      verbosity, log file, SD card, [g_defaults], console, and the trace
      of libctru service calls) and the platform's answers [ctr_env],
      shared by the hooks of Section [CtrDriver]; the [argv] auto-start
      block is [ctr_argv_autostart]. Audio backends after init (C12,
      C13), deinit stops what init started, in reverse (C14), deinit
      waits for a key and SELECT exits the process (C15),
      [wait_for_input] as the first decisive frame (C16), the default
      directories (C17), and the whole bootstrap of the table (C18).
      Lemmas cover the loop returning exactly when a decisive frame
      comes, the state invariant [ctr_state_wf] kept by every hook, and
      the defaults fitting their buffers.
    - [Displaylist]: the header's enums with their C values and the
      request record; the 64 list types round-trip through their values,
      and the [PARSE_*] bits are disjoint.
    - [EntrySort] (from the spec): a stable insertion sort over any key
      (Section [KeySort]), instantiated with directories first and the
      label without case.
    - [Settings] (from the spec): a three-level settings schema walked
      with the [PARSE_*] filter. The walk emits one block per selected
      group, headed by the group's header and holding its shown leaves in
      order (C21), and emptied groups are elided (C22); lemmas cover
      the spec's bool/float scenario, the placeholder with
      [add_empty_entry], and filters combining as a union.
    - [SettingsFlat] (from the spec and the shape of [rarch_setting_t]):
      the settings as a flat array with [ST_GROUP] ... [ST_END_GROUP]
      markers, a recogniser of well-bracketed arrays, a parser back to
      the tree by recursive descent with fuel, and the one-pass walk of
      [menu_displaylist_parse_settings] over the array: on every
      well-bracketed array the parser succeeds, round-trips, and the walk
      leaves the request as the tree walk does (C23).
    - [NavStack] (from the spec): the navigation stack as a step
      relation with push, pop, replace and destroy.
    - [Dispatcher] (from the spec): the routing table over the 64 list
      types, the strategies, the placeholder policy, the [NULL] check, and
      the commit. The committed frame is sorted and stable (C19, C20),
      and no reachable state of the stack holds an empty frame, by rule
      induction over builds, pops and tear-down (C24). Lemmas cover
      unmapped types giving one placeholder, a [NULL] target changing
      nothing, a build being one step of the navigation stack,
      directories first, idempotent refresh builds and the spec's
      scenarios run on the ctr driver.

    Bounds and fuel: two definitions take fuel. The settings-array parser
    [SettingsFlat.unflatten] gets [length l + 1], enough because each call
    consumes at least one entry (C23 proves it returns on every
    well-bracketed array). [CtrMemProbe.ctr_crawl_memory] needs more than
    [crawl_measure] = free bytes / 5 + log2 size: a call that repeats its
    size had a block of more than 4 bytes granted, and one that halves it
    loses a bit (C30 proves it returns and that more fuel changes
    nothing); the examples use 228 for 1003 free bytes and a first size of
    [2^27]. The firmware scan recurses on the number of words left
    ([nwords - 0x40], the C loop's bound), the [for] loop of
    [ctr_get_memory_info] on its 25 iterations, [wait_for_input] on a
    finite list of input frames (running out of frames is the outcome
    [WaitStarved]: the C loop is still waiting), and the bootstrap is a
    relation whose runs are finite by construction.

    Integers: every C [u32] is a [Z] in [[0, 2^32)], with the wrap-around
    of each C operation written out with [wrap32]; C's [int64_t] is a [Z]
    (the values involved are far below 2^63, which the theorems state as
    hypotheses where they matter); pointers are 32-bit addresses.

    Not modelled: logging and [printf] output beyond the events recorded
    in the trace and the texts [CtrFormat] writes ([printf]'s other
    conversions and its handling of negative [%u] arguments are outside
    the driver's use); the C preprocessor's checks ([DEBUG_ERROR] lacks a
    [;] and does not expand to valid C; the model is its intended body);
    the address [CTR_APPMEMALLOC_PTR] (line 53), whose word is the
    [appmemalloc] input of [CtrHeap]; the global [select_pressed] (line
    327), never read and written only after [exit(0)] in an [#if 0]
    block; the libctru services themselves, which are their
    results in [ctr_env]; newlib's allocator, of which only the laws the
    probe needs are stated; the renderer and [menu_displaylist_push]; the
    numeric [type]/[type_default] sub-range filter of the settings
    parser. Everything else of [platform_ctr.c] is modelled; of the
    header, only includes and prototypes are left, the prototypes' bodies
    being modelled from the spec. *)

From Stdlib Require Import ZArith Lia.
From stdpp Require Import base list.

Declare Scope ctr_scope.
Delimit Scope ctr_scope with ctr.
Open Scope Z_scope.

(** ** 32-bit unsigned arithmetic *)

(** Conversion to [uint32_t]: C's modular reduction. *)
Definition wrap32 (z : Z) : Z := z mod 2 ^ 32.

(** Is [z] a value of type [uint32_t]? *)
Definition is_u32 (z : Z) : bool := (0 <=? z) && (z <? 2 ^ 32).

Notation "a +w b" := (wrap32 (a + b)) (at level 50, left associativity) : ctr_scope.
Notation "a -w b" := (wrap32 (a - b)) (at level 50, left associativity) : ctr_scope.

(** The mask [0xFFFFF000] that rounds a size down to a 4 KiB page. *)
Definition page_mask : Z := 0xFFFFF000.

(** The [min] written as C's [a > b ? b : a]. *)
Definition clamp_above (a b : Z) : Z := if b <? a then b else a.

(** ** Little-endian bytes *)

(** A 32-bit word read from four bytes, least significant first (the 3DS
    is little-endian). *)
Definition le32 (b0 b1 b2 b3 : Z) : Z :=
  b0 + 256 * b1 + 65536 * b2 + 16777216 * b3.

(** The bytes of a word, least significant first. *)
Definition le32_bytes (w : Z) : list Z :=
  [w mod 256; (w / 256) mod 256; (w / 65536) mod 256; (w / 16777216) mod 256].

Create HintDb ctr.
Create Rewrite HintDb ctr_rw.

(** ** Generic lemmas *)

Lemma wrap32_range z : 0 <= wrap32 z < 2 ^ 32.
Proof. unfold wrap32. apply Z.mod_pos_bound. lia. Qed.

Lemma wrap32_small z : 0 <= z < 2 ^ 32 -> wrap32 z = z.
Proof. unfold wrap32. apply Z.mod_small. Qed.

Lemma wrap32_neg z : - 2 ^ 32 <= z < 0 -> wrap32 z = z + 2 ^ 32.
Proof.
  intros H. unfold wrap32.
  rewrite <- (Z.mod_add _ 1) by lia. apply Z.mod_small. lia.
Qed.

Lemma wrap32_above z : 2 ^ 32 <= z < 2 ^ 33 -> wrap32 z = z - 2 ^ 32.
Proof.
  intros H. unfold wrap32.
  rewrite <- (Z.mod_add _ (-1)) by lia. apply Z.mod_small. lia.
Qed.

(** Reducing an operand before an addition does not change the sum. *)
Lemma wrap32_add_wrap a b : wrap32 (wrap32 a + b) = wrap32 (a + b).
Proof. unfold wrap32. apply Zplus_mod_idemp_l. Qed.

Lemma is_u32_spec z : is_u32 z = true <-> 0 <= z < 2 ^ 32.
Proof. unfold is_u32. rewrite andb_true_iff, Z.leb_le, Z.ltb_lt. tauto. Qed.

Lemma land_page_mask_eq z : Z.land z page_mask = z mod 2 ^ 32 / 4096 * 4096.
Proof.
  unfold page_mask.
  change 0xFFFFF000 with (Z.ldiff (Z.ones 32) (Z.ones 12)).
  change 4096 with (2 ^ 12).
  rewrite <- Z.land_ones, <- Z.shiftr_div_pow2, <- Z.shiftl_mul_pow2,
    <- Z.ldiff_ones_r by lia.
  apply Z.bits_inj'; intros n Hn.
  rewrite !Z.land_spec, !Z.ldiff_spec, !Z.land_spec.
  destruct (Z.testbit z n), (Z.testbit (Z.ones 32) n), (Z.testbit (Z.ones 12) n);
    reflexivity.
Qed.

Lemma land_page_mask_aligned z : Z.land z page_mask mod 4096 = 0.
Proof. rewrite land_page_mask_eq. apply Z.mod_mul. lia. Qed.

Lemma land_page_mask_bounds z :
  0 <= Z.land z page_mask <= wrap32 z /\ wrap32 z - 4096 < Z.land z page_mask.
Proof.
  rewrite land_page_mask_eq. pose proof (wrap32_range z). unfold wrap32 in *.
  pose proof (Z.mod_pos_bound (z mod 2 ^ 32) 4096 ltac:(lia)).
  pose proof (Z.div_mod (z mod 2 ^ 32) 4096 ltac:(lia)). lia.
Qed.

Lemma clamp_above_min a b : clamp_above a b = Z.min a b.
Proof. unfold clamp_above. destruct (Z.ltb_spec b a); lia. Qed.

Lemma le32_bytes_le32 w :
  0 <= w < 2 ^ 32 -> w = le32 (w mod 256) ((w / 256) mod 256)
                            ((w / 65536) mod 256) ((w / 16777216) mod 256).
Proof. intros H. unfold le32. Z.div_mod_to_equations. lia. Qed.

Lemma le32_range b0 b1 b2 b3 :
  0 <= b0 < 256 -> 0 <= b1 < 256 -> 0 <= b2 < 256 -> 0 <= b3 < 256 ->
  0 <= le32 b0 b1 b2 b3 < 2 ^ 32.
Proof. unfold le32. lia. Qed.

#[export] Hint Resolve wrap32_range land_page_mask_aligned : ctr.
#[export] Hint Rewrite clamp_above_min : ctr_rw.

(** [u32_lia] unfolds the wrap-around and the clamps into [mod] and [min]
    and hands the goal to [lia]. *)
Ltac u32_lia :=
  autorewrite with ctr_rw in *;
  unfold wrap32 in *;
  repeat match goal with
         | |- context [?z mod 2 ^ 32] =>
             pose proof (Z.mod_pos_bound z (2 ^ 32) ltac:(lia));
             generalize dependent (z mod 2 ^ 32); intros
         end;
  lia.

(** [zcase] splits the goal on every boolean comparison of integers in
    it, leaving the comparisons as propositions. *)
Ltac zcase :=
  repeat match goal with
         | |- context [?a <? ?b] => destruct (Z.ltb_spec a b)
         | |- context [?a <=? ?b] => destruct (Z.leb_spec a b)
         | |- context [?a =? ?b] => destruct (Z.eqb_spec a b)
         end.
