(* ===== verification/CtrFormat.v ===== *)
(** * CtrFormat: the [printf] conversions of the 3DS driver's output

    The driver's diagnostics ([dump_result_value], lines 341-350, and
    the debug macros [DEBUG_HOLD], [DEBUG_VAR], [DEBUG_VAR64],
    [PRINTFPOS] and [PRINTFPOS_STR], lines 45-50 of
    [src/frontend/drivers/platform_ctr.c]) print through a handful of
    [printf] conversions: [%08X] and [%016llX] (upper-case hexadecimal,
    zero-padded to 8 or 16 digits), [%u] and [%d] (decimal), and
    [%-20s] (a string left-justified in 20 columns). This file writes
    each of them as a function to [string], and a reader for the numeric
    ones: [hex_value] for [%0kX], [parse_u] for [%u] (through the
    Standard Library's [DecimalString]). A line [prefix, conversion,
    "\n"] is a [printf_line]; reading back a sequence of such lines with
    [parse_lines] gives the printed values (the round trip
    [parse_lines_printf]). *)

From Stdlib Require Import ZArith NArith Ascii String List Lia Bool.
From Stdlib Require Import DecimalString DecimalN DecimalZ.
Import ListNotations.
From S2P Require Import Prelude.

Open Scope Z_scope.

Module CtrFormat.

Local Open Scope string_scope.
Local Open Scope Z_scope.

(** ** Conversions *)

(** One upper-case hexadecimal digit of [%X], for [0 <= d < 16]. *)
Definition hex_digit (d : Z) : ascii :=
  if d <? 10 then ascii_of_nat (48 + Z.to_nat d) else ascii_of_nat (55 + Z.to_nat d).

(** The [k] lowest hexadecimal digits of [v], most significant first:
    [%0kX] of a value below [16^k]. *)
Fixpoint hex_digits (k : nat) (v : Z) : string :=
  match k with
  | O => ""
  | S k' => hex_digits k' (v / 16) ++ String (hex_digit (v mod 16)) ""
  end.

(** [%08X] of an [unsigned int] and [%016llX] of an [unsigned long long]. *)
Definition fmt_08X (v : Z) : string := hex_digits 8 v.
Definition fmt_016llX (v : Z) : string := hex_digits 16 v.

(** [%u]: the decimal digits of a non-negative value, without padding. *)
Definition fmt_u (v : Z) : string := NilZero.string_of_uint (N.to_uint (Z.to_N v)).

(** [%d]: an [int] in decimal, with a minus sign when negative. *)
Definition fmt_d (v : Z) : string := NilZero.string_of_int (Z.to_int v).

(** [%-20s]: the string, then spaces up to 20 columns. *)
Definition fmt_left (w : nat) (s : string) : string :=
  s ++ string_of_list_ascii (repeat " "%char (w - String.length s)).

(** The conversions a line of the driver's output ends with. *)
Inductive conv := ConvX08 | ConvX016ll | ConvU.

Definition format_conv (c : conv) (v : Z) : string :=
  match c with ConvX08 => fmt_08X v | ConvX016ll => fmt_016llX v | ConvU => fmt_u v end.

(** The values a conversion prints faithfully. *)
Definition conv_range (c : conv) (v : Z) : Prop :=
  match c with
  | ConvX08 => 0 <= v < 2 ^ 32
  | ConvX016ll => 0 <= v < 2 ^ 64
  | ConvU => 0 <= v
  end.

Definition newline : string := String (ascii_of_nat 10) "".

(** [printf(prefix "%conv\n", v)]. *)
Definition printf_line (prefix : string) (c : conv) (v : Z) : string :=
  prefix ++ format_conv c v ++ newline.

(** ** Readers *)

(** The value of an upper-case hexadecimal digit. *)
Definition hex_digit_value (a : ascii) : option Z :=
  let n := Z.of_nat (nat_of_ascii a) in
  if (48 <=? n) && (n <=? 57) then Some (n - 48)
  else if (65 <=? n) && (n <=? 70) then Some (n - 55)
  else None.

(** The number written by hexadecimal digits, read left to right. *)
Fixpoint hex_value_from (acc : Z) (s : string) : option Z :=
  match s with
  | "" => Some acc
  | String a s' =>
      match hex_digit_value a with
      | Some d => hex_value_from (16 * acc + d) s'
      | None => None
      end
  end.

Definition hex_value (s : string) : option Z := hex_value_from 0 s.

Definition parse_u (s : string) : option Z :=
  option_map (fun d => Z.of_N (N.of_uint d)) (NilZero.uint_of_string s).

Definition parse_conv (c : conv) (s : string) : option Z :=
  match c with ConvX08 | ConvX016ll => hex_value s | ConvU => parse_u s end.

(** [s] without its prefix [p], if it starts with [p]. *)
Fixpoint strip_prefix (p s : string) : option string :=
  match p, s with
  | "", _ => Some s
  | String a p', String b s' => if Ascii.eqb a b then strip_prefix p' s' else None
  | _, _ => None
  end.

(** The text up to the first newline, and what follows it. *)
Fixpoint split_line (s : string) : string * string :=
  match s with
  | "" => ("", "")
  | String a s' =>
      if Ascii.eqb a (ascii_of_nat 10) then ("", s')
      else let '(l, r) := split_line s' in (String a l, r)
  end.

(** Read lines of the given prefixes and conversions, in order. *)
Fixpoint parse_lines (specs : list (string * conv)) (s : string) : option (list Z) :=
  match specs with
  | [] => if String.eqb s "" then Some [] else None
  | (p, c) :: specs' =>
      match strip_prefix p s with
      | Some s1 =>
          let '(field, rest) := split_line s1 in
          match parse_conv c field, parse_lines specs' rest with
          | Some v, Some vs => Some (v :: vs)
          | _, _ => None
          end
      | None => None
      end
  end.

(** The text of the lines printed with the given specs and values. *)
Fixpoint print_lines (specs : list (string * conv)) (vs : list Z) : string :=
  match specs, vs with
  | (p, c) :: specs', v :: vs' => printf_line p c v ++ print_lines specs' vs'
  | _, _ => ""
  end.

(** ** The debug macros (lines 45-50) *)

Definition ESC : ascii := ascii_of_nat 27.

(** [DEBUG_VAR(X)]: [printf("%-20s: 0x%08X\n", #X, (u32)(X))]. *)
Definition DEBUG_VAR (name : string) (x : Z) : string :=
  fmt_left 20 name ++ ": 0x" ++ fmt_08X (wrap32 x) ++ newline.

(** [DEBUG_VAR64(X)]: [printf(#X"\r\t\t\t\t : 0x%016llX\n", (u64)(X))]. *)
Definition DEBUG_VAR64 (name : string) (x : Z) : string :=
  name ++ String (ascii_of_nat 13) (string_of_list_ascii (repeat (ascii_of_nat 9) 4))
  ++ " : 0x" ++ fmt_016llX (x mod 2 ^ 64) ++ newline.

(** [PRINTFPOS(X,Y)] and [PRINTFPOS_STR(X,Y)]: the escape sequence that
    moves the console cursor to row [X], column [Y]; the first
    stringifies its arguments, the second pastes string literals, and
    both give the same text. *)
Definition PRINTFPOS (x y : string) : string := String ESC "[" ++ x ++ ";" ++ y ++ "H".

(** The line [DEBUG_HOLD] prints before it waits:
    [printf("%s@%s:%d.\n", __FUNCTION__, __FILE__, __LINE__)]. *)
Definition debug_hold_line (func file : string) (line : Z) : string :=
  func ++ "@" ++ file ++ ":" ++ fmt_d line ++ "." ++ newline.

(** ** Lemmas *)

(** Whether a text holds no newline: what a [%X] or [%u] field prints. *)
Fixpoint no_nl (s : string) : bool :=
  match s with
  | "" => true
  | String a s' => negb (Ascii.eqb a (ascii_of_nat 10)) && no_nl s'
  end.

Lemma string_app_assoc (a b c : string) : (a ++ b) ++ c = a ++ (b ++ c).
Proof. induction a as [|x a IH]; simpl; [reflexivity | now rewrite IH]. Qed.

Lemma no_nl_app (a b : string) : no_nl (a ++ b) = no_nl a && no_nl b.
Proof. induction a as [|x a IH]; simpl; [reflexivity | now rewrite IH, andb_assoc]. Qed.

Lemma nat_of_ascii_small (n : nat) : (n < 256)%nat -> nat_of_ascii (ascii_of_nat n) = n.
Proof. apply nat_ascii_embedding. Qed.

(** A digit's character code, and that it is not a newline. *)
Lemma hex_digit_code (d : Z) :
  0 <= d < 16 ->
  Z.of_nat (nat_of_ascii (hex_digit d)) = if d <? 10 then 48 + d else 55 + d.
Proof.
  intros Hd. unfold hex_digit.
  destruct (Z.ltb_spec d 10); rewrite nat_of_ascii_small by lia; lia.
Qed.

Lemma hex_digit_not_nl (d : Z) :
  0 <= d < 16 -> Ascii.eqb (hex_digit d) (ascii_of_nat 10) = false.
Proof.
  intros Hd. destruct (Ascii.eqb_spec (hex_digit d) (ascii_of_nat 10)) as [E|]; [|reflexivity].
  exfalso. pose proof (hex_digit_code d Hd) as C. rewrite E in C.
  change (Z.of_nat (nat_of_ascii (ascii_of_nat 10))) with 10 in C. destruct (Z.ltb_spec d 10); lia.
Qed.

Lemma hex_digit_value_digit (d : Z) :
  0 <= d < 16 -> hex_digit_value (hex_digit d) = Some d.
Proof.
  intros Hd. unfold hex_digit_value. rewrite (hex_digit_code d Hd).
  destruct (Z.ltb_spec d 10);
    repeat match goal with |- context[(?a <=? ?b)] => destruct (Z.leb_spec a b) end;
    simpl; f_equal; lia.
Qed.

Lemma hex_value_from_app (acc : Z) (a b : string) :
  hex_value_from acc (a ++ b) =
  match hex_value_from acc a with Some x => hex_value_from x b | None => None end.
Proof.
  revert acc. induction a as [|x a IH]; intros acc; simpl; [reflexivity|].
  destruct (hex_digit_value x); [apply IH | reflexivity].
Qed.

Lemma hex_value_from_digits (k : nat) (v acc : Z) :
  hex_value_from acc (hex_digits k v) = Some (acc * 16 ^ Z.of_nat k + v mod 16 ^ Z.of_nat k).
Proof.
  revert v acc. induction k as [|k IH]; intros v acc; simpl hex_digits.
  - simpl. rewrite Z.mod_1_r. f_equal. lia.
  - rewrite hex_value_from_app, IH. simpl.
    rewrite hex_digit_value_digit by (apply Z.mod_pos_bound; lia).
    rewrite Nat2Z.inj_succ, Z.pow_succ_r by lia.
    rewrite Z.rem_mul_r by (try apply Z.pow_pos_nonneg; lia).
    f_equal. lia.
Qed.

Lemma no_nl_hex_digits (k : nat) (v : Z) : no_nl (hex_digits k v) = true.
Proof.
  revert v. induction k as [|k IH]; intros v; simpl hex_digits; [reflexivity|].
  rewrite no_nl_app, IH. simpl.
  now rewrite hex_digit_not_nl by (apply Z.mod_pos_bound; lia).
Qed.

(** [%08X] reads back as the value modulo [2^32]. *)
Lemma hex_value_fmt_08X (v : Z) : hex_value (fmt_08X v) = Some (v mod 2 ^ 32).
Proof. unfold hex_value, fmt_08X. now rewrite hex_value_from_digits. Qed.

Lemma no_nl_string_of_uint (d : Decimal.uint) : no_nl (NilEmpty.string_of_uint d) = true.
Proof. induction d; simpl; auto. Qed.

Lemma no_nl_fmt_u (v : Z) : no_nl (fmt_u v) = true.
Proof.
  unfold fmt_u, NilZero.string_of_uint.
  destruct (N.to_uint _); [reflexivity | apply no_nl_string_of_uint ..].
Qed.

(** [%u] reads back as the value, for a non-negative one. *)
Lemma parse_u_fmt_u (v : Z) : 0 <= v -> parse_u (fmt_u v) = Some v.
Proof.
  intros Hv. unfold parse_u, fmt_u.
  rewrite NilZero.usu.
  - simpl. rewrite DecimalN.Unsigned.of_to. f_equal. lia.
  - intros E. pose proof (DecimalN.Unsigned.of_to (Z.to_N v)) as F.
    rewrite E in F. simpl in F. rewrite <- F in E. discriminate E.
Qed.

Lemma no_nl_format_conv (c : conv) (v : Z) : no_nl (format_conv c v) = true.
Proof. destruct c; [apply no_nl_hex_digits .. | apply no_nl_fmt_u]. Qed.

Lemma parse_conv_format (c : conv) (v : Z) :
  conv_range c v -> parse_conv c (format_conv c v) = Some v.
Proof.
  destruct c; simpl; intros Hr.
  - rewrite hex_value_fmt_08X. f_equal. now apply Z.mod_small.
  - unfold hex_value, fmt_016llX. rewrite hex_value_from_digits. f_equal.
    now apply Z.mod_small.
  - now apply parse_u_fmt_u.
Qed.

Lemma strip_prefix_app (p s : string) : strip_prefix p (p ++ s) = Some s.
Proof. induction p as [|a p IH]; simpl; [reflexivity | now rewrite Ascii.eqb_refl]. Qed.

Lemma split_line_app (t r : string) :
  no_nl t = true -> split_line (t ++ newline ++ r) = (t, r).
Proof.
  change (newline ++ r) with (String (ascii_of_nat 10) r).
  induction t as [|a t IH]; simpl; [reflexivity|].
  intros H. apply andb_prop in H as [Ha Ht].
  apply negb_true_iff in Ha. now rewrite Ha, IH.
Qed.

(** Reading back printed lines gives the printed values, when each value
    is in the range its conversion prints. *)
Lemma parse_lines_print (specs : list (string * conv)) (vs : list Z) :
  Forall2 (fun pc v => conv_range (snd pc) v) specs vs ->
  parse_lines specs (print_lines specs vs) = Some vs.
Proof.
  induction 1 as [|[p c] v specs vs Hr _ IH]; [reflexivity|].
  change (print_lines _ _) with (printf_line p c v ++ print_lines specs vs).
  cbn [parse_lines]. unfold printf_line.
  rewrite !string_app_assoc, strip_prefix_app, split_line_app by apply no_nl_format_conv.
  now rewrite parse_conv_format, IH.
Qed.

Lemma print_lines_inj (specs : list (string * conv)) (vs ws : list Z) :
  Forall2 (fun pc v => conv_range (snd pc) v) specs vs ->
  Forall2 (fun pc v => conv_range (snd pc) v) specs ws ->
  print_lines specs vs = print_lines specs ws -> vs = ws.
Proof.
  intros Hv Hw E. apply parse_lines_print in Hv, Hw. congruence.
Qed.

Lemma string_app_nil (s : string) : s ++ "" = s.
Proof. induction s as [|a s IH]; simpl; [reflexivity | now rewrite IH]. Qed.

Lemma string_length_app (a b : string) :
  String.length (a ++ b) = (String.length a + String.length b)%nat.
Proof. induction a as [|x a IH]; simpl; auto. Qed.

Lemma length_string_of_list_ascii (l : list ascii) :
  String.length (string_of_list_ascii l) = List.length l.
Proof. induction l as [|x l IH]; simpl; auto. Qed.

(** [%-20s] prints at least 20 columns, and the whole string. *)
Lemma fmt_left_length (w : nat) (s : string) :
  String.length (fmt_left w s) = Nat.max w (String.length s).
Proof.
  unfold fmt_left. rewrite string_length_app, length_string_of_list_ascii, repeat_length.
  lia.
Qed.

(** The line of [DEBUG_VAR(X)] is a one-line [printf] of [%08X]. *)
Lemma DEBUG_VAR_print (name : string) (x : Z) :
  DEBUG_VAR name x = print_lines [(fmt_left 20 name ++ ": 0x", ConvX08)] [wrap32 x].
Proof.
  unfold DEBUG_VAR, print_lines, printf_line, format_conv.
  now rewrite string_app_nil, !string_app_assoc.
Qed.

(** The line of [DEBUG_VAR64(X)] is a one-line [printf] of [%016llX]. *)
Lemma DEBUG_VAR64_print (name : string) (x : Z) :
  DEBUG_VAR64 name x =
  print_lines [(name ++ String (ascii_of_nat 13) (string_of_list_ascii (repeat (ascii_of_nat 9) 4))
                  ++ " : 0x", ConvX016ll)] [x mod 2 ^ 64].
Proof.
  unfold DEBUG_VAR64, print_lines, printf_line, format_conv.
  now rewrite string_app_nil, !string_app_assoc.
Qed.

End CtrFormat.
