(* ===== verification/CtrResult.v ===== *)
(** * CtrResult: the [Result] bitfield view of the 3DS driver

    [ctr_result_value] and [dump_result_value] of
    [src/frontend/drivers/platform_ctr.c] (lines 329-350). A libctru
    [Result] is a signed 32-bit word; the union reads it as four unsigned
    bitfields, allocated from the least significant bit as GCC does on the
    little-endian ARM target: [description] (bits 0-9), [module] (10-17),
    an unnamed 3-bit field (18-20), [summary] (21-26) and [level] (27-31).
    The layout is checked against libctru's [MAKERESULT] (written here as
    [make_result]): decoding inverts encoding, and the printed fields add
    back up to the printed word. *)

From Stdlib Require Import ZArith Lia String List Bool.
Import ListNotations.
From coqutil Require Import Z.bitblast.
From S2P Require Import Prelude.
From S2P Require Import CtrFormat.

Open Scope Z_scope.

Module CtrResult.

(** The C bitfield [v.field] of width [w] starting at bit [s]. *)
Definition bitfield (v s w : Z) : Z := Z.land (Z.shiftr v s) (Z.ones w).

(** The named fields of the union's struct. *)
Record ctr_result_value := {
  description : Z;
  module : Z;
  summary : Z;
  level : Z
}.

(** [res.val = val] followed by reads of the four named fields. *)
Definition ctr_result_value_of (val : Z) : ctr_result_value :=
  {| description := bitfield val 0 10;
     module := bitfield val 10 8;
     summary := bitfield val 21 6;
     level := bitfield val 27 5 |}.

(** [dump_result_value]: the five lines it prints, each as its label and
    the number printed. The first line prints the signed [Result] with
    [%08X], i.e. its 32-bit two's complement. *)
Definition dump_result_value (val : Z) : list (string * Z) :=
  let res := ctr_result_value_of val in
  [("result", wrap32 val);
   ("description", description res);
   ("module", module res);
   ("summary", summary res);
   ("level", level res)]%string.

(** The five [printf] formats of [dump_result_value]: the label each
    line starts with and the conversion that follows it. *)
Definition dump_specs : list (string * CtrFormat.conv) :=
  [("result      : 0x", CtrFormat.ConvX08);
   ("description : ", CtrFormat.ConvU);
   ("module      : ", CtrFormat.ConvU);
   ("summary     : ", CtrFormat.ConvU);
   ("level       : ", CtrFormat.ConvU)]%string.

(** The text [dump_result_value] writes to the console: [printf]'s
    [%08X] of the signed [Result] prints its 32-bit two's complement. *)
Definition dump_result_value_text (val : Z) : string :=
  let res := ctr_result_value_of val in
  CtrFormat.print_lines dump_specs
    [wrap32 val; description res; module res; summary res; level res].

(** [DEBUG_ERROR(X)] (line 48): dump a failed [Result], print nothing
    for success. As written the macro lacks the [;] after the call, so it
    only expands to valid C once that is added; this is its intended body. *)
Definition DEBUG_ERROR (x : Z) : string :=
  if negb (x =? 0) then dump_result_value_text x else "".

(** libctru's [MAKERESULT(level, summary, module, description)]. *)
Definition make_result (l s m d : Z) : Z :=
  Z.lor (Z.lor (Z.lor (Z.shiftl (Z.land l 0x1F) 27) (Z.shiftl (Z.land s 0x3F) 21))
               (Z.shiftl (Z.land m 0xFF) 10))
        (Z.land d 0x3FF).

(** The [u32] to [s32] conversion of the [Result] typedef. *)
Definition s32_of_u32 (u : Z) : Z := if u <? 2 ^ 31 then u else u - 2 ^ 32.

(** ** Lemmas *)

Lemma bitfield_div v s w : 0 <= s -> 0 <= w -> bitfield v s w = v / 2 ^ s mod 2 ^ w.
Proof.
  intros Hs Hw. unfold bitfield. now rewrite Z.land_ones, Z.shiftr_div_pow2.
Qed.

Lemma bitfield_range v s w : 0 <= s -> 0 <= w -> 0 <= bitfield v s w < 2 ^ w.
Proof.
  intros Hs Hw. rewrite bitfield_div by lia. apply Z.mod_pos_bound. lia.
Qed.

(** Fields that lie in the low 32 bits do not see the sign. *)
Lemma bitfield_wrap32 v s w :
  0 <= s -> 0 <= w -> s + w <= 32 -> bitfield (wrap32 v) s w = bitfield v s w.
Proof.
  intros Hs Hw Hsw. unfold bitfield, wrap32. Z.bitblast.
Qed.

Lemma mod_pow2_split a p q :
  0 <= p -> 0 <= q -> a mod 2 ^ (p + q) = a mod 2 ^ p + 2 ^ p * (a / 2 ^ p mod 2 ^ q).
Proof.
  intros Hp Hq. rewrite Z.pow_add_r by lia. apply Z.rem_mul_r; lia.
Qed.

Lemma make_result_range l s m d : 0 <= make_result l s m d < 2 ^ 32.
Proof.
  assert (Hb : make_result l s m d = Z.land (make_result l s m d) (Z.ones 32)).
  { unfold make_result. change 0x1F with (Z.ones 5). change 0x3F with (Z.ones 6).
    change 0xFF with (Z.ones 8). change 0x3FF with (Z.ones 10). Z.bitblast. }
  rewrite Hb, Z.land_ones by lia. apply Z.mod_pos_bound. lia.
Qed.

Lemma s32_of_u32_wrap u : 0 <= u < 2 ^ 32 -> wrap32 (s32_of_u32 u) = u.
Proof.
  intros H. unfold s32_of_u32. destruct (Z.ltb_spec u (2 ^ 31)).
  - now apply wrap32_small.
  - rewrite wrap32_neg; lia.
Qed.

Lemma testbit_above_width x w n : 0 <= x < 2 ^ w -> 0 <= w <= n -> Z.testbit x n = false.
Proof.
  intros Hx Hw. rewrite <- (Z.mod_small x (2 ^ w)) by lia.
  now apply Z.mod_pow2_bits_high.
Qed.

Lemma s32_of_u32_of_wrap v : - 2 ^ 31 <= v < 2 ^ 31 -> s32_of_u32 (wrap32 v) = v.
Proof.
  intros H. unfold s32_of_u32. destruct (Z.leb_spec 0 v).
  - rewrite wrap32_small by lia. destruct (Z.ltb_spec v (2 ^ 31)); lia.
  - rewrite wrap32_neg by lia. destruct (Z.ltb_spec (v + 2 ^ 32) (2 ^ 31)); lia.
Qed.

(** A field splits into its low [a] bits and the rest. *)
Lemma bitfield_split v s n a s' n' :
  0 <= s -> 0 <= a <= n -> s' = s + a -> n' = n - a ->
  bitfield v s n = bitfield v s a + 2 ^ a * bitfield v s' n'.
Proof.
  intros Hs Ha -> ->. rewrite !bitfield_div by lia.
  replace n with (a + (n - a)) at 1 by lia.
  rewrite mod_pow2_split, Z.div_div, <- Z.pow_add_r by lia. reflexivity.
Qed.

Lemma bitfield_zero_bits v s w :
  0 <= s -> 0 <= w -> bitfield v s w = 0 ->
  forall k, s <= k < s + w -> Z.testbit v k = false.
Proof.
  intros Hs Hw H k Hk.
  apply (f_equal (fun x => Z.testbit x (k - s))) in H.
  unfold bitfield in H. rewrite Z.land_spec, Z.shiftr_spec, Z.testbit_ones, Z.testbit_0_l in H by lia.
  replace (k - s + s) with k in H by lia.
  destruct (Z.leb_spec 0 (k - s)), (Z.ltb_spec (k - s) w); try lia.
  now rewrite andb_true_r in H.
Qed.

#[export] Hint Resolve bitfield_range make_result_range : ctr.

(** [field_bits] closes the bit goals left by [Z.bitblast] once a field
    is known to fit its width. *)
Ltac field_bits :=
  rewrite ?andb_false_r, ?andb_false_l, ?orb_false_r;
  try reflexivity;
  symmetry;
  first [ apply (testbit_above_width _ 5); [cbn; lia | lia]
        | apply (testbit_above_width _ 6); [cbn; lia | lia]
        | apply (testbit_above_width _ 8); [cbn; lia | lia]
        | apply (testbit_above_width _ 10); [cbn; lia | lia] ].

(** ** Properties *)

(** C5 (roundtrip). Reading the union's fields from a [Result] built by
    [MAKERESULT] gives back the level, summary, module and description it
    was built from, whenever they fit their widths. *)
Theorem ctr_result_decode_make l s m d :
  0 <= l < 32 -> 0 <= s < 64 -> 0 <= m < 256 -> 0 <= d < 1024 ->
  ctr_result_value_of (s32_of_u32 (make_result l s m d))
  = {| description := d; module := m; summary := s; level := l |}.
Proof.
  intros Hl Hs Hm Hd. unfold ctr_result_value_of.
  rewrite <- !(bitfield_wrap32 (s32_of_u32 _)) by lia.
  rewrite s32_of_u32_wrap by apply make_result_range.
  unfold bitfield, make_result.
  change 0x1F with (Z.ones 5). change 0x3F with (Z.ones 6).
  change 0xFF with (Z.ones 8). change 0x3FF with (Z.ones 10).
  f_equal; Z.bitblast; field_bits.
Qed.

(** C6 (roundtrip). Re-encoding the fields read from any signed 32-bit
    [Result] with [MAKERESULT] gives the [Result] back, provided its
    unnamed bits 18-20 (which the union cannot read) are zero. *)
Theorem ctr_result_make_decode val :
  - 2 ^ 31 <= val < 2 ^ 31 -> bitfield val 18 3 = 0 ->
  let r := ctr_result_value_of val in
  s32_of_u32 (make_result (level r) (summary r) (module r) (description r)) = val.
Proof.
  intros Hv Hr r. subst r.
  transitivity (s32_of_u32 (wrap32 val)); [f_equal | now apply s32_of_u32_of_wrap].
  pose proof (bitfield_zero_bits val 18 3 ltac:(lia) ltac:(lia) Hr) as Hb.
  unfold ctr_result_value_of, make_result, bitfield, wrap32. simpl.
  change 0x1F with (Z.ones 5). change 0x3F with (Z.ones 6).
  change 0xFF with (Z.ones 8). change 0x3FF with (Z.ones 10).
  Z.bitblast; rewrite Hb by lia; reflexivity.
Qed.

(** The text reads back, with the specs it was printed with, as the
    values printed. *)
Lemma dump_result_value_text_parse val :
  CtrFormat.parse_lines dump_specs (dump_result_value_text val)
  = Some [wrap32 val; description (ctr_result_value_of val); module (ctr_result_value_of val);
          summary (ctr_result_value_of val); level (ctr_result_value_of val)].
Proof.
  apply CtrFormat.parse_lines_print.
  repeat constructor; simpl; try apply wrap32_range; apply bitfield_range; lia.
Qed.

(** The fields read through the union only see the low 32 bits. *)
Lemma ctr_result_value_of_wrap32 v : ctr_result_value_of (wrap32 v) = ctr_result_value_of v.
Proof. unfold ctr_result_value_of. now rewrite !bitfield_wrap32 by lia. Qed.

(** [dump_result_value] prints the word and then four
    fields that fit their widths and that, with the unnamed bits 18-20,
    add back up to the printed word. *)
Lemma dump_result_value_fields val :
  exists d m s l,
    dump_result_value val =
      [("result", wrap32 val); ("description", d); ("module", m);
       ("summary", s); ("level", l)]%string /\
    0 <= d < 2 ^ 10 /\ 0 <= m < 2 ^ 8 /\ 0 <= s < 2 ^ 6 /\ 0 <= l < 2 ^ 5 /\
    wrap32 val = d + 2 ^ 10 * m + 2 ^ 18 * bitfield val 18 3 + 2 ^ 21 * s + 2 ^ 27 * l.
Proof.
  exists (bitfield val 0 10), (bitfield val 10 8), (bitfield val 21 6), (bitfield val 27 5).
  repeat split; auto with ctr; try apply bitfield_range; try lia.
  assert (H32 : wrap32 val = bitfield val 0 32).
  { rewrite bitfield_div by lia. now rewrite Z.div_1_r. }
  rewrite H32, (bitfield_split val 0 32 10 10 22), (bitfield_split val 10 22 8 18 14),
    (bitfield_split val 18 14 3 21 11), (bitfield_split val 21 11 6 27 5) by lia.
  lia.
Qed.

(** C31 (roundtrip). The console text of [dump_result_value val] is five
    lines: ["result      : 0x"] and the word in [%08X], then
    ["description : "], ["module      : "], ["summary     : "] and
    ["level       : "] each with a field in [%u]. Reading it back with
    exactly these labels and conversions gives the [Result] as an unsigned
    32-bit word and the fields at bits 0-9, 10-17, 21-26 and 27-31 of its
    two's complement, in this order. *)
Theorem dump_result_value_text_roundtrip val :
  CtrFormat.parse_lines
    [("result      : 0x", CtrFormat.ConvX08); ("description : ", CtrFormat.ConvU);
     ("module      : ", CtrFormat.ConvU); ("summary     : ", CtrFormat.ConvU);
     ("level       : ", CtrFormat.ConvU)]%string
    (dump_result_value_text val)
  = Some [val mod 2 ^ 32; val mod 2 ^ 10; val / 2 ^ 10 mod 2 ^ 8;
          val / 2 ^ 21 mod 2 ^ 6; val / 2 ^ 27 mod 2 ^ 5].
Proof.
  etransitivity.
  { apply CtrFormat.parse_lines_print.
    repeat constructor; simpl; try apply wrap32_range; apply bitfield_range; lia. }
  unfold ctr_result_value_of, wrap32.
  cbn [description module summary level]. rewrite !bitfield_div, Z.div_1_r by lia.
  reflexivity.
Qed.

(** Two [Result]s print the same text exactly when they are the same
    32-bit word. *)
Lemma dump_result_value_text_inj v w :
  dump_result_value_text v = dump_result_value_text w <-> wrap32 v = wrap32 w.
Proof.
  split.
  - intros E. pose proof (dump_result_value_text_parse v) as Hv.
    rewrite E, dump_result_value_text_parse in Hv. congruence.
  - intros E. unfold dump_result_value_text.
    now rewrite <- (ctr_result_value_of_wrap32 v), <- (ctr_result_value_of_wrap32 w), E.
Qed.

(** ** Witnesses *)

(** A permanent, not-found error of the FS module: level 27, summary 4,
    module 17, description 1000. *)
Lemma ctr_result_decode_make_witness :
  (0 <= 27 < 32 /\ 0 <= 4 < 64 /\ 0 <= 17 < 256 /\ 0 <= 1000 < 1024) /\
  ctr_result_value_of (s32_of_u32 (make_result 27 4 17 1000))
  = {| description := 1000; module := 17; summary := 4; level := 27 |}.
Proof. split; [lia | apply ctr_result_decode_make; lia]. Defined.

(** The result word [0xD8E007F7], negative as a [Result]. *)
Lemma ctr_result_make_decode_witness :
  (- 2 ^ 31 <= -656406537 < 2 ^ 31 /\ bitfield (-656406537) 18 3 = 0) /\
  let r := ctr_result_value_of (-656406537) in
  s32_of_u32 (make_result (level r) (summary r) (module r) (description r)) = -656406537.
Proof.
  split; [split; [lia | reflexivity] |].
  apply ctr_result_make_decode; [lia | reflexivity].
Defined.

(** The console text of the result word [0xD8E007F7]. *)
Example dump_result_value_text_D8E007F7 :
  dump_result_value_text (-656406537) =
  ("result      : 0xD8E007F7" ++ CtrFormat.newline ++
   "description : 1015" ++ CtrFormat.newline ++
   "module      : 1" ++ CtrFormat.newline ++
   "summary     : 7" ++ CtrFormat.newline ++
   "level       : 27" ++ CtrFormat.newline)%string.
Proof. vm_compute. reflexivity. Qed.

End CtrResult.
