(* ===== verification/CtrHeap.v ===== *)
(** * CtrHeap: the libctru heap set-up and process exit of the 3DS driver

    [__system_allocateHeaps] and [__libctru_exit] of
    [src/frontend/drivers/platform_ctr.c] (lines 53-124). The linker and
    kernel globals they read and write are the record [heap_globals]; the
    values they obtain from the kernel are the record [boot_env]; the
    supervisor calls they make are a trace of [svc_event]s. The abstract
    contract is a stack of reserved regions ([region_step]): the trace of
    the heap set-up followed by the exit is a run of it that ends empty. *)

From Stdlib Require Import ZArith Lia.
From stdpp Require Import base list.
From S2P Require Import Prelude.

Open Scope Z_scope.

Module CtrHeap.

(** Operation codes of [svcControlMemory]. *)
Inductive MemOp := MEMOP_FREE | MEMOP_ALLOC | MEMOP_ALLOC_LINEAR.

(** [MEMPERM_READ | MEMPERM_WRITE]. *)
Definition MEMPERM_RW : Z := 3.

(** The supervisor calls of the two routines, in the order made. *)
Inductive svc_event :=
  | SvcControlMemory (addr0 addr1 size : Z) (op : MemOp) (perm : Z)
  | DestroyHandleList
  | SystemRetAddr
  | SvcExitProcess.

(** The globals: [__linear_heap], [__heapBase], [__linear_heap_size],
    [__heap_size], their homebrew-launcher variants, and newlib's
    [fake_heap_start]/[fake_heap_end] (as 32-bit addresses). *)
Record heap_globals := {
  linear_heap : Z;
  heapBase : Z;
  linear_heap_size : Z;
  heap_size : Z;
  linear_heap_size_hbl : Z;
  heap_size_hbl : Z;
  fake_heap_start : Z;
  fake_heap_end : Z
}.

(** What the routines read from the system: [mem_used] from
    [svcGetSystemInfo(&mem_used, 0, 1)], the launcher's [__service_ptr],
    the word at [CTR_APPMEMALLOC_PTR], and the address the kernel writes
    back into [__linear_heap] for the linear allocation. *)
Record boot_env := {
  sys_mem_used : Z;
  service_ptr : Z;
  appmemalloc : Z;
  linear_alloc_addr : Z
}.

Definition CTR_HEAP_BASE : Z := 0x08000000.
Definition CTR_HEAP_CAP : Z := 0x6000000.
Definition CTR_MIN_APP_MEMORY : Z := 0x04000000.

(** [app_memory] (lines 79-85): under the homebrew launcher the sum
    [mem_used + __linear_heap_size_hbl + __heap_size_hbl], computed in
    [int64_t] and stored in a [u32], raised to at least 64 MiB; otherwise
    the kernel's application memory size, the [u32] word at
    [CTR_APPMEMALLOC_PTR]. *)
Definition app_memory (env : boot_env) (g : heap_globals) : Z :=
  if negb (service_ptr env =? 0) then
    let am := wrap32 (sys_mem_used env + linear_heap_size_hbl g + heap_size_hbl g) in
    if am <? CTR_MIN_APP_MEMORY then CTR_MIN_APP_MEMORY else am
  else wrap32 (appmemalloc env).

(** [mem_available] (line 87): the subtraction is done in [int64_t] (the
    [u32] operands are promoted), so it may be negative; the mask
    [0xFFFFF000] then keeps bits 12..31 of its two's complement. *)
Definition mem_available (env : boot_env) (g : heap_globals) : Z :=
  Z.land (app_memory env g - sys_mem_used env - linear_heap_size g - 0x10000) page_mask.

(** [__system_allocateHeaps] (lines 70-103). *)
Definition __system_allocateHeaps (env : boot_env) (g : heap_globals)
    : heap_globals * list svc_event :=
  let avail := mem_available env g in
  let hs := clamp_above (clamp_above (heap_size g) avail) CTR_HEAP_CAP in
  let base := CTR_HEAP_BASE in
  ({| linear_heap := linear_alloc_addr env;
      heapBase := base;
      linear_heap_size := linear_heap_size g;
      heap_size := hs;
      linear_heap_size_hbl := linear_heap_size_hbl g;
      heap_size_hbl := heap_size_hbl g;
      fake_heap_start := base;
      fake_heap_end := wrap32 (base + hs) |},
   [SvcControlMemory base 0 hs MEMOP_ALLOC MEMPERM_RW;
    SvcControlMemory 0 0 (linear_heap_size g) MEMOP_ALLOC_LINEAR MEMPERM_RW]).

(** [__libctru_exit] (lines 105-124): unmap the linear heap, then the
    application heap, close the handles, then call the loader's callback
    when [__system_retAddr] is set, and call [svcExitProcess] when there
    is none or the callback returns. [system_retAddr] is [None] for a
    [NULL] callback and [Some returns] for one that returns or jumps away.
    The exit code [rc] is not used. *)
Definition __libctru_exit (g : heap_globals) (system_retAddr : option bool) (rc : Z)
    : list svc_event :=
  [SvcControlMemory (linear_heap g) 0 (linear_heap_size g) MEMOP_FREE 0;
   SvcControlMemory (heapBase g) 0 (heap_size g) MEMOP_FREE 0;
   DestroyHandleList] ++
  match system_retAddr with
  | Some true => [SystemRetAddr; SvcExitProcess]
  | Some false => [SystemRetAddr]
  | None => [SvcExitProcess]
  end.

(** ** The abstract contract: a stack of reserved regions *)

(** A reserved region: its base address and its size. *)
Definition region : Type := Z * Z.

(** One step of the abstract memory provider. An allocation at a fixed
    address reserves that region; a linear allocation reserves a region at
    an address the kernel chooses; a free releases the most recently
    reserved region, which must match the call's address and size; the
    process may end only once every region has been released. *)
Inductive region_step : list region -> svc_event -> list region -> Prop :=
  | rs_alloc R a s :
      region_step R (SvcControlMemory a 0 s MEMOP_ALLOC MEMPERM_RW) ((a, s) :: R)
  | rs_alloc_linear R a s :
      region_step R (SvcControlMemory 0 0 s MEMOP_ALLOC_LINEAR MEMPERM_RW) ((a, s) :: R)
  | rs_free R a s :
      region_step ((a, s) :: R) (SvcControlMemory a 0 s MEMOP_FREE 0) R
  | rs_handles R :
      region_step R DestroyHandleList R
  | rs_retaddr :
      region_step [] SystemRetAddr []
  | rs_exit :
      region_step [] SvcExitProcess [].

(** A run of the abstract provider over a trace. *)
Inductive region_run : list region -> list svc_event -> list region -> Prop :=
  | rr_nil R : region_run R [] R
  | rr_cons R1 e R2 es R3 :
      region_step R1 e R2 -> region_run R2 es R3 -> region_run R1 (e :: es) R3.

#[export] Hint Constructors region_step region_run : ctr.

(** ** Concrete boots *)

(** An old 3DS started from a title: 64 MiB of application memory, 3 MiB
    in use, a 16 MiB linear heap and a 96 MiB default heap request. *)
Definition old3ds_env : boot_env :=
  {| sys_mem_used := 0x300000; service_ptr := 0; appmemalloc := 0x04000000;
     linear_alloc_addr := 0x14000000 |}.

Definition old3ds_globals : heap_globals :=
  {| linear_heap := 0; heapBase := 0; linear_heap_size := 0x01000000;
     heap_size := 0x06000000; linear_heap_size_hbl := 0x01000000;
     heap_size_hbl := 0x02000000; fake_heap_start := 0; fake_heap_end := 0 |}.

(** The same boot with a 64 MiB linear heap, which does not fit. *)
Definition big_linear_globals : heap_globals :=
  {| linear_heap := 0; heapBase := 0; linear_heap_size := 0x04000000;
     heap_size := 0x02000000; linear_heap_size_hbl := 0x01000000;
     heap_size_hbl := 0x02000000; fake_heap_start := 0; fake_heap_end := 0 |}.

(** ** Lemmas *)

Lemma region_run_app R1 es1 R2 es2 R3 :
  region_run R1 es1 R2 -> region_run R2 es2 R3 -> region_run R1 (es1 ++ es2) R3.
Proof. induction 1; simpl; eauto with ctr. Qed.

Lemma app_memory_hbl_floor env g :
  service_ptr env <> 0 -> CTR_MIN_APP_MEMORY <= app_memory env g < 2 ^ 32.
Proof.
  intros H. unfold app_memory. rewrite <- Z.eqb_neq in H. rewrite H. simpl.
  pose proof (wrap32_range (sys_mem_used env + linear_heap_size_hbl g + heap_size_hbl g)).
  unfold CTR_MIN_APP_MEMORY.
  destruct (Z.ltb_spec (wrap32 (sys_mem_used env + linear_heap_size_hbl g + heap_size_hbl g))
              0x04000000); lia.
Qed.

Lemma mem_available_no_underflow env g :
  let d := app_memory env g - sys_mem_used env - linear_heap_size g - 0x10000 in
  0 <= d < 2 ^ 32 -> d - 4096 < mem_available env g <= d.
Proof.
  intros d Hd. unfold mem_available. fold d.
  pose proof (land_page_mask_bounds d). rewrite wrap32_small in H by lia. lia.
Qed.

Lemma mem_available_underflow env g :
  let d := app_memory env g - sys_mem_used env - linear_heap_size g - 0x10000 in
  - 2 ^ 32 <= d < 0 -> mem_available env g > d + 2 ^ 32 - 4096.
Proof.
  intros d Hd. unfold mem_available. fold d.
  pose proof (land_page_mask_bounds d). rewrite wrap32_neg in H by lia. lia.
Qed.

Lemma allocate_heap_size_eq env g :
  heap_size (fst (__system_allocateHeaps env g))
  = Z.min (Z.min (heap_size g) (mem_available env g)) CTR_HEAP_CAP.
Proof. unfold __system_allocateHeaps. simpl. now rewrite !clamp_above_min. Qed.

Lemma mem_available_range env g : 0 <= mem_available env g < 2 ^ 32.
Proof.
  unfold mem_available. pose proof (land_page_mask_bounds
    (app_memory env g - sys_mem_used env - linear_heap_size g - 0x10000)).
  pose proof (wrap32_range
    (app_memory env g - sys_mem_used env - linear_heap_size g - 0x10000)). lia.
Qed.

(** ** Properties *)

(** C1 (bounds). The heap size chosen by [__system_allocateHeaps] is at
    most the original [__heap_size], at most the available memory, and at
    most 96 MiB ([0x6000000]); it is one of those three values; and the
    newlib heap [fake_heap_start .. fake_heap_end] spans exactly that many
    bytes from [0x08000000]. *)
Theorem allocateHeaps_bounds env g :
  0 <= heap_size g ->
  let g' := fst (__system_allocateHeaps env g) in
  0 <= heap_size g' <= CTR_HEAP_CAP /\
  heap_size g' <= heap_size g /\
  heap_size g' <= mem_available env g /\
  (heap_size g' = heap_size g \/ heap_size g' = mem_available env g \/
   heap_size g' = CTR_HEAP_CAP) /\
  fake_heap_start g' = CTR_HEAP_BASE /\
  fake_heap_end g' - fake_heap_start g' = heap_size g'.
Proof.
  intros Hh g'. pose proof (mem_available_range env g).
  subst g'. unfold __system_allocateHeaps. simpl. rewrite !clamp_above_min.
  rewrite wrap32_small; unfold CTR_HEAP_BASE, CTR_HEAP_CAP; lia.
Qed.

(** C2 (safety). When the application memory covers what is already used,
    the linear heap and the 64 KiB reserve (no underflow in line 87), the
    application heap chosen fits in what remains: used memory, linear
    heap, application heap and reserve add up to at most [app_memory]. *)
Theorem allocateHeaps_fits env g :
  0 <= heap_size g ->
  0 <= app_memory env g - sys_mem_used env - linear_heap_size g - 0x10000 < 2 ^ 32 ->
  sys_mem_used env + linear_heap_size g
    + heap_size (fst (__system_allocateHeaps env g)) + 0x10000 <= app_memory env g.
Proof.
  intros Hh Hd. rewrite allocate_heap_size_eq.
  pose proof (mem_available_no_underflow env g Hd). lia.
Qed.

(** C3 (bounds, a defect of the code). When the linear heap does not fit
    in the application memory, the [int64_t] difference of line 87 is
    negative and the mask turns it into a value close to 4 GiB: the clamp
    against [mem_available] no longer limits the heap, which is then only
    capped at 96 MiB, so the heaps requested exceed the application
    memory. *)
Theorem allocateHeaps_underflow env g :
  0 < heap_size g ->
  CTR_HEAP_CAP + 4096 - 2 ^ 32
    <= app_memory env g - sys_mem_used env - linear_heap_size g - 0x10000 < 0 ->
  heap_size (fst (__system_allocateHeaps env g)) = Z.min (heap_size g) CTR_HEAP_CAP /\
  app_memory env g < sys_mem_used env + linear_heap_size g
    + heap_size (fst (__system_allocateHeaps env g)) + 0x10000.
Proof.
  intros Hh Hd. rewrite allocate_heap_size_eq.
  pose proof (mem_available_underflow env g ltac:(unfold CTR_HEAP_CAP in *; lia)).
  unfold CTR_HEAP_CAP in *. lia.
Qed.

(** C4 (refinement). The heap set-up followed by the process exit is a
    run of the abstract region stack from empty to empty: the application
    heap and the linear heap are reserved, then released in the reverse
    order with the addresses and sizes recorded by the set-up, before the
    loader's callback and the process exit, whether the callback is
    absent, returns, or jumps away. *)
Theorem heap_lifecycle_refines env g system_retAddr rc :
  let '(g', tr) := __system_allocateHeaps env g in
  region_run [] (tr ++ __libctru_exit g' system_retAddr rc) [].
Proof.
  unfold __system_allocateHeaps, __libctru_exit. simpl.
  destruct system_retAddr as [[|]|]; repeat econstructor.
Qed.

(** ** Witnesses *)

Lemma allocateHeaps_bounds_witness :
  0 <= heap_size old3ds_globals /\
  let g' := fst (__system_allocateHeaps old3ds_env old3ds_globals) in
  0 <= heap_size g' <= CTR_HEAP_CAP /\
  heap_size g' <= heap_size old3ds_globals /\
  heap_size g' <= mem_available old3ds_env old3ds_globals /\
  (heap_size g' = heap_size old3ds_globals \/
   heap_size g' = mem_available old3ds_env old3ds_globals \/
   heap_size g' = CTR_HEAP_CAP) /\
  fake_heap_start g' = CTR_HEAP_BASE /\
  fake_heap_end g' - fake_heap_start g' = heap_size g'.
Proof. split; [cbn; lia | apply allocateHeaps_bounds; cbn; lia]. Defined.

Lemma allocateHeaps_fits_witness :
  0 <= heap_size old3ds_globals /\
  0 <= app_memory old3ds_env old3ds_globals - sys_mem_used old3ds_env
       - linear_heap_size old3ds_globals - 0x10000 < 2 ^ 32 /\
  sys_mem_used old3ds_env + linear_heap_size old3ds_globals
    + heap_size (fst (__system_allocateHeaps old3ds_env old3ds_globals)) + 0x10000
    <= app_memory old3ds_env old3ds_globals.
Proof.
  split; [cbn; lia | split; [vm_compute; split; congruence |]].
  apply allocateHeaps_fits; [cbn; lia | vm_compute; split; congruence].
Defined.

Lemma allocateHeaps_underflow_witness :
  heap_size (fst (__system_allocateHeaps old3ds_env big_linear_globals)) = 0x02000000 /\
  app_memory old3ds_env big_linear_globals
    < sys_mem_used old3ds_env + linear_heap_size big_linear_globals
      + heap_size (fst (__system_allocateHeaps old3ds_env big_linear_globals)) + 0x10000.
Proof.
  destruct (allocateHeaps_underflow old3ds_env big_linear_globals) as [H1 H2];
    [cbn; lia | vm_compute; split; congruence |].
  split; [rewrite H1; reflexivity | exact H2].
Defined.

End CtrHeap.
