(* ===== verification/CtrSbrk.v ===== *)
(** * CtrSbrk: the program break of the 3DS build ([_sbrk_r])

    [_sbrk_r] and its statistics, lines 414-465 of
    [src/frontend/drivers/platform_ctr.c]. The block is under [#if 0]:
    no build compiles it, and it is modelled as written, for the day it
    is switched on. newlib's [malloc] obtains its core through this
    routine; it bumps a static [heap_start] from [fake_heap_start] (or
    the linker's [__end__]) towards [fake_heap_end] (or the stack
    pointer), refusing with [ENOMEM] an increment that would pass it.

    Pointers are 32-bit addresses ([Z] in [[0, 2^32)], 0 for [NULL]);
    the pointer sum [heap_start + incr] wraps like the ARM address
    arithmetic it compiles to, as in [CtrDspFirm]. The abstract
    contract is a bump allocator over [[base, limit)] ([bump_run]); the
    break refines it for non-negative increments below [2^31]
    ([sbrk_refines_bump]), and after [__system_allocateHeaps] the
    blocks it hands out tile the heap that routine reserved. *)

From Stdlib Require Import ZArith Lia List Morphisms RelationClasses.
Import ListNotations.
From S2P Require Import Prelude CtrHeap.

Open Scope Z_scope.

Module CtrSbrk.

Import CtrHeap.

(** [ENOMEM] of newlib's [errno.h]. *)
Definition ENOMEM : Z := 12.

(** [(caddr_t) -1] as a 32-bit address. *)
Definition SBRK_FAIL : Z := 0xFFFFFFFF.

(** What the routine reads besides newlib's [fake_heap_*]: the address
    of the linker symbol [__end__] and the stack pointer [sp] (line 425)
    at the time of the call. *)
Record sbrk_env := {
  end_addr : Z;
  stack_ptr : Z
}.

(** The routine's static [heap_start] (0 until the first call), the
    [_errno] of the reentrancy structure it is given, and the five
    [uint32_t] statistics of lines 414-418. *)
Record sbrk_state := {
  heap_start : Z;
  reent_errno : Z;
  sbrk_calls : Z;
  sbrk_max_incr : Z;
  sbrk_total_incr : Z;
  sbrk_heap_start : Z;
  sbrk_heap_end : Z
}.

Definition sbrk_init : sbrk_state :=
  {| heap_start := 0; reent_errno := 0; sbrk_calls := 0; sbrk_max_incr := 0;
     sbrk_total_incr := 0; sbrk_heap_start := 0; sbrk_heap_end := 0 |}.

(** Where the break starts (lines 434-440) and where it stops (lines
    444-448). *)
Definition sbrk_base (g : heap_globals) (e : sbrk_env) : Z :=
  if fake_heap_start g =? 0 then end_addr e else fake_heap_start g.

Definition sbrk_limit (g : heap_globals) (e : sbrk_env) : Z :=
  if fake_heap_end g =? 0 then stack_ptr e else fake_heap_end g.

(** [_sbrk_r(ptr, incr)] (lines 427-465): the block's address (or
    [SBRK_FAIL]) and the state after. [incr] is a [ptrdiff_t]; the test
    [sbrk_max_incr < incr] converts it to unsigned, which is its value
    since [incr > 0] is tested first. *)
Definition _sbrk_r (g : heap_globals) (e : sbrk_env) (st : sbrk_state) (incr : Z)
    : Z * sbrk_state :=
  let hs := if heap_start st =? 0 then sbrk_base g e else heap_start st in
  let heap_end := sbrk_limit g e in
  if heap_end <? wrap32 (hs + incr) then
    (SBRK_FAIL,
     {| heap_start := hs; reent_errno := ENOMEM; sbrk_calls := sbrk_calls st;
        sbrk_max_incr := sbrk_max_incr st; sbrk_total_incr := sbrk_total_incr st;
        sbrk_heap_start := sbrk_heap_start st; sbrk_heap_end := sbrk_heap_end st |})
  else
    let hs' := wrap32 (hs + incr) in
    (hs,
     {| heap_start := hs'; reent_errno := reent_errno st;
        sbrk_calls := wrap32 (sbrk_calls st + 1);
        sbrk_max_incr := if ((0 <? incr) && (sbrk_max_incr st <? incr))%bool then incr
                         else sbrk_max_incr st;
        sbrk_total_incr := wrap32 (sbrk_total_incr st + incr);
        sbrk_heap_start := hs'; sbrk_heap_end := heap_end |}).

(** A sequence of calls, with the addresses returned. *)
Fixpoint sbrk_run (g : heap_globals) (e : sbrk_env) (st : sbrk_state) (reqs : list Z)
    : list Z * sbrk_state :=
  match reqs with
  | [] => ([], st)
  | n :: reqs' =>
      let '(p, st1) := _sbrk_r g e st n in
      let '(ps, st2) := sbrk_run g e st1 reqs' in
      (p :: ps, st2)
  end.

(** ** The abstract contract: a bump allocator *)

(** From the break [brk], hand out the next [n] bytes when they stay
    below [hi], else refuse; the addresses given and the final break. *)
Fixpoint bump_run (brk hi : Z) (reqs : list Z) : list (option Z) * Z :=
  match reqs with
  | [] => ([], brk)
  | n :: reqs' =>
      if brk + n <=? hi then
        let '(os, b) := bump_run (brk + n) hi reqs' in (Some brk :: os, b)
      else
        let '(os, b) := bump_run brk hi reqs' in (None :: os, b)
  end.

(** What [_sbrk_r] returns for an abstract answer. *)
Definition ret_of (o : option Z) : Z := match o with Some p => p | None => SBRK_FAIL end.

(** The blocks granted, with their sizes. *)
Fixpoint granted (os : list (option Z)) (reqs : list Z) : list (Z * Z) :=
  match os, reqs with
  | Some p :: os', n :: reqs' => (p, n) :: granted os' reqs'
  | None :: os', _ :: reqs' => granted os' reqs'
  | _, _ => []
  end.

(** Blocks that follow one another from [b] without gap or overlap. *)
Fixpoint tiles (b : Z) (bs : list (Z * Z)) : Prop :=
  match bs with
  | [] => True
  | (p, n) :: bs' => p = b /\ tiles (b + n) bs'
  end.

(** The abstraction: the concrete state stands for the break [brk] when
    its [heap_start] is [brk] (or still [NULL] with [brk] the base) and
    the running total of increments is the distance from the base. *)
Definition sbrk_abs (base : Z) (st : sbrk_state) (brk : Z) : Prop :=
  (if heap_start st =? 0 then brk = base else heap_start st = brk) /\
  sbrk_total_incr st = brk - base.

(** Where the next block starts: [heap_start], or the base while it is
    still [NULL]. *)
Definition eff_start (g : heap_globals) (e : sbrk_env) (st : sbrk_state) : Z :=
  if heap_start st =? 0 then sbrk_base g e else heap_start st.

(** Two states are equivalent when every later call behaves the same on
    them: same effective start and same statistics ([_errno] is only
    written). *)
Definition sbrk_equiv (g : heap_globals) (e : sbrk_env) (st1 st2 : sbrk_state) : Prop :=
  eff_start g e st1 = eff_start g e st2 /\ sbrk_calls st1 = sbrk_calls st2 /\
  sbrk_max_incr st1 = sbrk_max_incr st2 /\ sbrk_total_incr st1 = sbrk_total_incr st2 /\
  sbrk_heap_start st1 = sbrk_heap_start st2 /\ sbrk_heap_end st1 = sbrk_heap_end st2.

(** Equal results and equivalent states. *)
Definition sbrk_result_equiv {A} (g : heap_globals) (e : sbrk_env) (r1 r2 : A * sbrk_state) : Prop :=
  fst r1 = fst r2 /\ sbrk_equiv g e (snd r1) (snd r2).

(** ** A boot *)

(** The loader's [__end__] and the stack pointer of a boot. *)
Definition boot_sbrk_env : sbrk_env := {| end_addr := 0x00240000; stack_ptr := 0x10000000 |}.

Definition booted_globals : heap_globals := fst (__system_allocateHeaps old3ds_env old3ds_globals).

(** ** Lemmas *)

Section Break.

Context (g : heap_globals) (e : sbrk_env).

Lemma sbrk_start_abs st brk :
  0 < sbrk_base g e -> sbrk_abs (sbrk_base g e) st brk ->
  (if heap_start st =? 0 then sbrk_base g e else heap_start st) = brk.
Proof.
  intros Hb [Hs _]. destruct (heap_start st =? 0); congruence.
Qed.

(** One call is one step of the bump allocator. *)
Lemma sbrk_step_sim st brk n :
  0 < sbrk_base g e <= brk -> brk <= sbrk_limit g e < 2 ^ 31 -> 0 <= n < 2 ^ 31 ->
  sbrk_abs (sbrk_base g e) st brk ->
  let '(p, st') := _sbrk_r g e st n in
  if brk + n <=? sbrk_limit g e
  then p = brk /\ sbrk_abs (sbrk_base g e) st' (brk + n)
  else p = SBRK_FAIL /\ sbrk_abs (sbrk_base g e) st' brk.
Proof.
  intros Hb Hl Hn Habs. pose proof (sbrk_start_abs st brk (proj1 Hb) Habs) as Hs.
  destruct Habs as [_ Ht]. unfold _sbrk_r. rewrite Hs, wrap32_small by lia.
  destruct (Z.leb_spec (brk + n) (sbrk_limit g e));
    [rewrite (proj2 (Z.ltb_ge _ _)) by lia | rewrite (proj2 (Z.ltb_lt _ _)) by lia];
    unfold sbrk_abs; simpl.
  - rewrite (proj2 (Z.eqb_neq _ _)) by lia. rewrite Ht, wrap32_small by lia. lia.
  - destruct (Z.eqb_spec brk 0); lia.
Qed.

#[export] Instance sbrk_equiv_equiv : Equivalence (sbrk_equiv g e).
Proof.
  unfold sbrk_equiv. split.
  - intros st. tauto.
  - intros st1 st2 H. intuition congruence.
  - intros st1 st2 st3 H1 H2. intuition congruence.
Qed.

(** Storing the effective start as [heap_start] does not move it. *)
Lemma eff_start_store st st' :
  heap_start st' = eff_start g e st -> eff_start g e st' = eff_start g e st.
Proof.
  unfold eff_start. intros ->.
  destruct (Z.eqb_spec (heap_start st) 0) as [H0 | H0];
    [destruct (Z.eqb_spec (sbrk_base g e) 0) | rewrite (proj2 (Z.eqb_neq _ _) H0)]; auto.
Qed.

#[export] Instance _sbrk_r_proper :
  Proper (sbrk_equiv g e ==> eq ==> sbrk_result_equiv g e) (_sbrk_r g e).
Proof.
  intros st1 st2 [Hs [Hc [Hm [Ht [Hh He]]]]] n ? <-. unfold _sbrk_r.
  fold (eff_start g e st1) (eff_start g e st2). rewrite Hs, Hc, Hm, Ht.
  match goal with |- context [if ?c then _ else _] => destruct c end; split; simpl; try reflexivity;
    unfold sbrk_equiv; simpl; rewrite ?Hh, ?He; repeat split; reflexivity.
Qed.

#[export] Instance sbrk_run_proper :
  Proper (sbrk_equiv g e ==> eq ==> sbrk_result_equiv g e) (sbrk_run g e).
Proof.
  intros st1 st2 Hst reqs ? <-. revert st1 st2 Hst.
  induction reqs as [|n reqs IH]; intros st1 st2 Hst; simpl; [split; [reflexivity | exact Hst] |].
  destruct (_sbrk_r_proper st1 st2 Hst n n eq_refl) as [Hp Hq].
  destruct (_sbrk_r g e st1 n) as [p1 s1], (_sbrk_r g e st2 n) as [p2 s2]; simpl in *.
  destruct (IH s1 s2 Hq) as [Hps Hr].
  destruct (sbrk_run g e s1 reqs), (sbrk_run g e s2 reqs); unfold sbrk_result_equiv in *; simpl in *. split; [congruence | exact Hr].
Qed.

(** A run of calls is a run of the bump allocator. *)
Lemma sbrk_run_sim st brk reqs :
  0 < sbrk_base g e <= brk -> brk <= sbrk_limit g e < 2 ^ 31 ->
  Forall (fun n => 0 <= n < 2 ^ 31) reqs -> sbrk_abs (sbrk_base g e) st brk ->
  fst (sbrk_run g e st reqs) = map ret_of (fst (bump_run brk (sbrk_limit g e) reqs)) /\
  sbrk_abs (sbrk_base g e) (snd (sbrk_run g e st reqs)) (snd (bump_run brk (sbrk_limit g e) reqs)).
Proof.
  revert st brk. induction reqs as [|n reqs IH]; intros st brk Hb Hl Hall Habs; [split; auto |].
  inversion Hall as [|? ? Hn Hr]; subst. simpl.
  pose proof (sbrk_step_sim st brk n Hb Hl Hn Habs) as Hstep.
  destruct (_sbrk_r g e st n) as [p st1].
  destruct (Z.leb_spec (brk + n) (sbrk_limit g e)) as [Hfit | Hfit]; destruct Hstep as [-> Habs1].
  - destruct (IH st1 (brk + n) ltac:(lia) ltac:(lia) Hr Habs1) as [H1 H2].
    destruct (sbrk_run g e st1 reqs), (bump_run (brk + n) (sbrk_limit g e) reqs).
    simpl in *. subst. auto.
  - destruct (IH st1 brk Hb Hl Hr Habs1) as [H1 H2].
    destruct (sbrk_run g e st1 reqs), (bump_run brk (sbrk_limit g e) reqs).
    simpl in *. subst. auto.
Qed.

End Break.

Lemma bump_run_brk brk hi reqs :
  brk <= hi -> Forall (fun n => 0 <= n) reqs ->
  brk <= snd (bump_run brk hi reqs) <= hi /\
  tiles brk (granted (fst (bump_run brk hi reqs)) reqs) /\
  Forall (fun '(p, n) => brk <= p /\ p + n <= snd (bump_run brk hi reqs))
         (granted (fst (bump_run brk hi reqs)) reqs).
Proof.
  revert brk. induction reqs as [|n reqs IH]; intros brk Hle Hall; simpl; [split; [lia | split; [exact I | constructor]] |].
  inversion Hall as [|? ? Hn Hr]; subst.
  destruct (Z.leb_spec (brk + n) hi).
  - destruct (bump_run (brk + n) hi reqs) as [os b] eqn:E. simpl.
    destruct (IH (brk + n) ltac:(lia) Hr) as [Hb [Ht Hf]]. rewrite E in Hb, Ht, Hf. simpl in *.
    split; [lia | split; [split; [reflexivity | exact Ht] |]].
    constructor; [lia |]. eapply Forall_impl; [| exact Hf]. intros [p m]. lia.
  - destruct (bump_run brk hi reqs) as [os b] eqn:E. simpl.
    destruct (IH brk ltac:(lia) Hr) as [Hb [Ht Hf]]. rewrite E in Hb, Ht, Hf. simpl in *. tauto.
Qed.

(** After [__system_allocateHeaps] the break runs from [__heapBase] to
    the end of the heap that routine reserved, both set and below
    [2^31]. *)
Lemma allocateHeaps_sbrk_range env g0 e :
  0 <= heap_size g0 ->
  let g := fst (__system_allocateHeaps env g0) in
  sbrk_base g e = heapBase g /\ sbrk_limit g e = heapBase g + heap_size g /\
  0 < heapBase g /\ 0 <= heap_size g /\ heapBase g + heap_size g < 2 ^ 31.
Proof.
  intros Hh g. pose proof (allocate_heap_size_eq env g0) as Hs.
  pose proof (mem_available_range env g0). fold g in Hs.
  assert (Hg : heapBase g = CTR_HEAP_BASE /\ fake_heap_start g = CTR_HEAP_BASE /\
               fake_heap_end g = wrap32 (CTR_HEAP_BASE + heap_size g)) by (subst g; simpl; auto).
  destruct Hg as [Hb [Hfs Hfe]]. clearbody g. unfold sbrk_base, sbrk_limit, CTR_HEAP_CAP, CTR_HEAP_BASE in *.
  rewrite Hfs, Hfe, Hb, wrap32_small by lia. simpl.
  rewrite (proj2 (Z.eqb_neq _ _)) by lia. lia.
Qed.

(** ** Properties *)

(** C25 (refinement). From the first call on, [_sbrk_r] with
    increments in [[0, 2^31)] and a break range below [2^31] returns
    exactly the addresses of the abstract bump allocator over
    [[base, limit]] ([(caddr_t) -1] where it refuses), and its
    [sbrk_total_incr] is the distance of the abstract break from the
    base. *)
Theorem sbrk_refines_bump g e reqs :
  0 < sbrk_base g e <= sbrk_limit g e -> sbrk_limit g e < 2 ^ 31 ->
  Forall (fun n => 0 <= n < 2 ^ 31) reqs ->
  fst (sbrk_run g e sbrk_init reqs)
    = map ret_of (fst (bump_run (sbrk_base g e) (sbrk_limit g e) reqs)) /\
  sbrk_total_incr (snd (sbrk_run g e sbrk_init reqs))
    = snd (bump_run (sbrk_base g e) (sbrk_limit g e) reqs) - sbrk_base g e.
Proof.
  intros Hb Hl Hall.
  destruct (sbrk_run_sim g e sbrk_init (sbrk_base g e) reqs ltac:(lia) ltac:(lia) Hall)
    as [H1 [_ H2]]; [split; simpl; lia |].
  split; assumption.
Qed.

(** C26 (safety). After [__system_allocateHeaps], the blocks
    [_sbrk_r] grants to any sequence of increments in [[0, 2^31)] follow
    one another from [__heapBase] without gap or overlap, and each lies
    inside the heap the routine reserved with [svcControlMemory]. *)
Theorem sbrk_heap_tiles env g0 e reqs :
  0 <= heap_size g0 -> Forall (fun n => 0 <= n < 2 ^ 31) reqs ->
  let g := fst (__system_allocateHeaps env g0) in
  exists os, fst (sbrk_run g e sbrk_init reqs) = map ret_of os /\
    tiles (heapBase g) (granted os reqs) /\
    Forall (fun '(p, n) => heapBase g <= p /\ p + n <= heapBase g + heap_size g) (granted os reqs).
Proof.
  intros Hh Hall g. destruct (allocateHeaps_sbrk_range env g0 e Hh) as (Hb & Hl & H0 & Hs & Hm).
  fold g in Hb, Hl, H0, Hs, Hm.
  destruct (sbrk_run_sim g e sbrk_init (sbrk_base g e) reqs ltac:(lia) ltac:(lia) Hall)
    as [H1 _]; [split; simpl; lia |].
  exists (fst (bump_run (sbrk_base g e) (sbrk_limit g e) reqs)). split; [exact H1 |].
  destruct (bump_run_brk (sbrk_base g e) (sbrk_limit g e) reqs ltac:(lia)
              (Forall_impl _ (fun n Hn => proj1 Hn) Hall)) as (Hr & Ht & Hf).
  rewrite Hb, Hl in *. split; [exact Ht |].
  eapply Forall_impl; [| exact Hf]. intros [p n]. lia.
Qed.

(** C27 (error). A call whose increment would carry the break
    past its end returns [(caddr_t) -1] and sets [ENOMEM], and changes
    nothing a later call reads: the statistics do not count it, and
    every later sequence of calls returns what it would have returned
    without it. *)
Theorem sbrk_enomem g e st n reqs :
  sbrk_limit g e < wrap32 (eff_start g e st + n) ->
  fst (_sbrk_r g e st n) = SBRK_FAIL /\ reent_errno (snd (_sbrk_r g e st n)) = ENOMEM /\
  sbrk_equiv g e (snd (_sbrk_r g e st n)) st /\
  fst (sbrk_run g e (snd (_sbrk_r g e st n)) reqs) = fst (sbrk_run g e st reqs).
Proof.
  intros Hover.
  assert (Heq : sbrk_equiv g e (snd (_sbrk_r g e st n)) st).
  { unfold _sbrk_r. fold (eff_start g e st). rewrite (proj2 (Z.ltb_lt _ _) Hover).
    unfold sbrk_equiv. simpl. repeat split; try reflexivity. now apply eff_start_store. }
  unfold _sbrk_r in *. fold (eff_start g e st) in *. rewrite (proj2 (Z.ltb_lt _ _) Hover) in *.
  simpl in *. split; [reflexivity | split; [reflexivity | split; [exact Heq |]]].
  exact (proj1 (sbrk_run_proper g e _ _ Heq reqs reqs eq_refl)).
Qed.

(** ** Witnesses *)

Lemma sbrk_refines_bump_witness :
  fst (sbrk_run booted_globals boot_sbrk_env sbrk_init [0x1000; 0x7FFFFFFF; 0x2000])
    = [0x08000000; SBRK_FAIL; 0x08001000] /\
  sbrk_total_incr (snd (sbrk_run booted_globals boot_sbrk_env sbrk_init [0x1000; 0x7FFFFFFF; 0x2000]))
    = 0x3000.
Proof.
  destruct (sbrk_refines_bump booted_globals boot_sbrk_env [0x1000; 0x7FFFFFFF; 0x2000])
    as [H1 H2]; [vm_compute; split; congruence | vm_compute; reflexivity |
                 repeat constructor; vm_compute; congruence |].
  rewrite H1, H2. split; vm_compute; reflexivity.
Defined.

Lemma sbrk_heap_tiles_witness :
  0 <= heap_size old3ds_globals /\
  exists os, fst (sbrk_run booted_globals boot_sbrk_env sbrk_init [0x100; 0x200]) = map ret_of os /\
    tiles (heapBase booted_globals) (granted os [0x100; 0x200]) /\
    Forall (fun '(p, n) => heapBase booted_globals <= p /\
                           p + n <= heapBase booted_globals + heap_size booted_globals)
           (granted os [0x100; 0x200]).
Proof.
  split; [vm_compute; congruence |].
  apply (sbrk_heap_tiles old3ds_env old3ds_globals boot_sbrk_env [0x100; 0x200]);
    [vm_compute; congruence | repeat constructor; vm_compute; congruence].
Defined.

Lemma sbrk_enomem_witness :
  fst (_sbrk_r booted_globals boot_sbrk_env sbrk_init 0x7FFFFFFF) = SBRK_FAIL /\
  reent_errno (snd (_sbrk_r booted_globals boot_sbrk_env sbrk_init 0x7FFFFFFF)) = ENOMEM /\
  sbrk_equiv booted_globals boot_sbrk_env
    (snd (_sbrk_r booted_globals boot_sbrk_env sbrk_init 0x7FFFFFFF)) sbrk_init /\
  fst (sbrk_run booted_globals boot_sbrk_env
         (snd (_sbrk_r booted_globals boot_sbrk_env sbrk_init 0x7FFFFFFF)) [0x10])
  = fst (sbrk_run booted_globals boot_sbrk_env sbrk_init [0x10]).
Proof. apply sbrk_enomem. vm_compute. reflexivity. Defined.

End CtrSbrk.
