(* ===== verification/CtrMemProbe.v ===== *)
(** * CtrMemProbe: the memory probe of the 3DS build

    [ctr_crawl_memory], [ctr_get_memory_info] and the [malloc]/[free]
    wrappers, lines 351-412 of [src/frontend/drivers/platform_ctr.c].
    The block is under [#if 0]: no build compiles it, and it is
    modelled as written. When it is switched on, [malloc] and [free]
    replace the C library's: they forward to newlib's [_malloc_r] and
    [_free_r] and keep three [uint32_t] statistics, and the probe
    measures the memory left by allocating blocks and freeing them.

    newlib's allocator is not in the repository; the wrappers and the
    probe are written against the class [Malloc] (its two entry points)
    and proved against [MallocLaws] (what any allocator promises: a
    refused request changes nothing, a granted block uses up its size,
    freeing the last block granted undoes the grant, [free(NULL)] does
    nothing) and, for the exact answers of the probe, [ExactMalloc] (a
    request succeeds exactly when it fits in what is free). The ideal
    stack allocator [stack_heap] is an instance of both, for the
    examples.

    The recursion of [ctr_crawl_memory] is not structural: it repeats a
    size while allocations succeed and halves it when one fails. It is
    a [Fixpoint] on fuel; [crawl_measure] (free bytes over 5, plus the
    binary logarithm of the size) bounds its depth, since a repeated
    size is above 4 and a halved one loses a bit. *)

From Stdlib Require Import ZArith Lia List.
Import ListNotations.
From S2P Require Import Prelude.

Open Scope Z_scope.
Open Scope bool_scope.

Module CtrMemProbe.

(** newlib's allocator as the wrappers call it: [_malloc_r(_REENT, n)]
    gives a block (0 for [NULL]) and the heap after it, [_free_r(_REENT,
    p)] the heap after the release. *)
Class Malloc (H : Type) := {
  _malloc_r : H -> Z -> Z * H;
  _free_r : H -> Z -> H
}.

(** What the probe relies on, with [heap_avail] the bytes still free. *)
Class MallocLaws (H : Type) `{Malloc H} := {
  heap_avail : H -> Z;
  heap_avail_nonneg h : 0 <= heap_avail h;
  malloc_null_keeps h n : fst (_malloc_r h n) = 0 -> snd (_malloc_r h n) = h;
  malloc_consumes h n :
    fst (_malloc_r h n) <> 0 -> heap_avail (snd (_malloc_r h n)) + n <= heap_avail h;
  free_malloc h n :
    fst (_malloc_r h n) <> 0 -> _free_r (snd (_malloc_r h n)) (fst (_malloc_r h n)) = h;
  free_null h : _free_r h 0 = h
}.

(** An allocator without overhead or fragmentation. *)
Class ExactMalloc (H : Type) `{MallocLaws H} := {
  malloc_fits h n : 0 < n -> (fst (_malloc_r h n) <> 0 <-> n <= heap_avail h);
  malloc_exact h n :
    fst (_malloc_r h n) <> 0 -> heap_avail (snd (_malloc_r h n)) = heap_avail h - n
}.

Section Probe.

Context {H : Type} `{Malloc H}.

(** The heap and the statistics of lines 388-390. *)
Record dbg_state := {
  dbg_heap : H;
  malloc_calls : Z;
  min_malloc_addr : Z;
  max_malloc_addr : Z
}.

Definition dbg_init (h : H) : dbg_state :=
  {| dbg_heap := h; malloc_calls := 0; min_malloc_addr := 0xFFFFFFFF; max_malloc_addr := 0 |}.

(** [malloc(nbytes)] (lines 392-407). [(uint32_t)ret + nbytes] is a
    32-bit sum. *)
Definition malloc (st : dbg_state) (nbytes : Z) : Z * dbg_state :=
  let '(ret, h') := _malloc_r (dbg_heap st) nbytes in
  let '(mx, mn) :=
    if ret =? 0 then (max_malloc_addr st, min_malloc_addr st)
    else ((if max_malloc_addr st <? wrap32 (ret + nbytes) then wrap32 (ret + nbytes)
           else max_malloc_addr st),
          (if ret <? min_malloc_addr st then ret else min_malloc_addr st)) in
  (ret, {| dbg_heap := h'; malloc_calls := wrap32 (malloc_calls st + 1);
           min_malloc_addr := mn; max_malloc_addr := mx |}).

(** [free(aptr)] (lines 409-412). *)
Definition free (st : dbg_state) (aptr : Z) : dbg_state :=
  {| dbg_heap := _free_r (dbg_heap st) aptr; malloc_calls := malloc_calls st;
     min_malloc_addr := min_malloc_addr st; max_malloc_addr := max_malloc_addr st |}.

(** The body of [ctr_crawl_memory(total_size, size)] (lines 352-364),
    with the recursive call [crawl]: the state and [*total_size] after
    it. The block [tmp] is freed after the recursive call returns. *)
Definition ctr_crawl_memory_F (crawl : dbg_state -> Z -> Z -> option (dbg_state * Z))
    (st : dbg_state) (total_size size : Z) : option (dbg_state * Z) :=
  let '(tmp, st1) := malloc st size in
  let total1 := if tmp =? 0 then total_size else wrap32 (total_size + size) in
  let size1 := if tmp =? 0 then Z.shiftr size 1 else size in
  match (if 4 <? size1 then crawl st1 total1 size1 else Some (st1, total1)) with
  | Some (st2, total2) => Some (free st2 tmp, total2)
  | None => None
  end.

(** [ctr_crawl_memory] itself, [None] when the fuel runs out. *)
Fixpoint ctr_crawl_memory (fuel : nat) (st : dbg_state) (total_size size : Z)
    : option (dbg_state * Z) :=
  match fuel with
  | O => None
  | S fuel' => ctr_crawl_memory_F (ctr_crawl_memory fuel') st total_size size
  end.

(** The [for (i = 27; i > 2; i--)] loop of [ctr_get_memory_info] (lines
    375-383), [n] iterations left, [i = n + 2]. *)
Fixpoint max_block_loop (n : nat) (st : dbg_state) (max_block : Z) : dbg_state * Z :=
  match n with
  | O => (st, max_block)
  | S n' =>
      let i := Z.of_nat n + 2 in
      let '(tmp, st1) := malloc st (wrap32 (max_block + Z.shiftl 1 i)) in
      if tmp =? 0 then max_block_loop n' st1 max_block
      else max_block_loop n' (free st1 tmp) (wrap32 (max_block + Z.shiftl 1 i))
  end.

(** [ctr_get_memory_info(available, max_block)] (lines 366-386): the
    state, [*available] and [*max_block]. *)
Definition ctr_get_memory_info (fuel : nat) (st : dbg_state) : option (dbg_state * Z * Z) :=
  match ctr_crawl_memory fuel st 0 (Z.shiftl 1 27) with
  | Some (st1, available) =>
      let '(st2, max_block) := max_block_loop 25 st1 0 in Some (st2, available, max_block)
  | None => None
  end.

(** A sequence of calls to the wrappers, and the blocks they grant
    (address and size), in order. *)
Inductive dbg_op := DMalloc (n : Z) | DFree (p : Z).

Fixpoint dbg_run (st : dbg_state) (ops : list dbg_op) : list (Z * Z) * dbg_state :=
  match ops with
  | [] => ([], st)
  | DMalloc n :: ops' =>
      let '(p, st1) := malloc st n in
      let '(bs, st2) := dbg_run st1 ops' in
      (if p =? 0 then bs else (p, n) :: bs, st2)
  | DFree p :: ops' => dbg_run (free st p) ops'
  end.

Fixpoint count_mallocs (ops : list dbg_op) : nat :=
  match ops with
  | [] => O
  | DMalloc _ :: ops' => S (count_mallocs ops')
  | DFree _ :: ops' => count_mallocs ops'
  end.

End Probe.

Arguments dbg_state H : clear implicits.

(** ** An ideal allocator, for the examples *)

(** Blocks stacked from [sh_top] up to [sh_limit]; freeing the block on
    top pops it. *)
Record stack_heap := {
  sh_top : Z;
  sh_limit : Z;
  sh_blocks : list Z
}.

#[export] Instance stack_malloc : Malloc stack_heap := {
  _malloc_r h n :=
    if (0 <? sh_top h) && (0 <=? n) && (sh_top h + n <=? sh_limit h) then
      (sh_top h, {| sh_top := sh_top h + n; sh_limit := sh_limit h; sh_blocks := sh_top h :: sh_blocks h |})
    else (0, h);
  _free_r h p :=
    match sh_blocks h with
    | q :: bs => if (p =? q) && negb (p =? 0) then {| sh_top := q; sh_limit := sh_limit h; sh_blocks := bs |}
                 else h
    | [] => h
    end
}.

Definition stack_avail (h : stack_heap) : Z :=
  if 0 <? sh_top h then Z.max 0 (sh_limit h - sh_top h) else 0.

(** A heap of 1003 free bytes at the base of the application heap. *)
Definition small_heap : stack_heap :=
  {| sh_top := 0x08000000; sh_limit := 0x08000000 + 1003; sh_blocks := [] |}.

(** ** Lemmas on the wrappers and the crawl *)

Section Laws.

Context {H : Type} `{MallocLaws H}.

(** The bound on the depth of the crawl. *)
Definition crawl_measure (h : H) (size : Z) : nat := Z.to_nat (heap_avail h / 5 + Z.log2 size).

Lemma malloc_ret (st : dbg_state H) n : fst (malloc st n) = fst (_malloc_r (dbg_heap st) n).
Proof. unfold malloc. destruct (_malloc_r (dbg_heap st) n) as [r h']. now destruct (r =? 0). Qed.

Lemma malloc_heap (st : dbg_state H) n : dbg_heap (snd (malloc st n)) = snd (_malloc_r (dbg_heap st) n).
Proof. unfold malloc. destruct (_malloc_r (dbg_heap st) n) as [r h']. now destruct (r =? 0). Qed.

(** A refused [malloc] leaves the heap; a granted one followed by the
    [free] of its block gives the heap back. *)
Lemma malloc_free_heap (st : dbg_state H) n st2 :
  dbg_heap st2 = dbg_heap (snd (malloc st n)) ->
  dbg_heap (free st2 (fst (malloc st n))) = dbg_heap st.
Proof.
  intros E. simpl. rewrite E, malloc_heap, malloc_ret.
  destruct (Z.eqb_spec (fst (_malloc_r (dbg_heap st) n)) 0) as [Hz | Hz].
  - rewrite Hz, free_null. now apply malloc_null_keeps.
  - now apply free_malloc.
Qed.

Lemma crawl_S fuel (st : dbg_state H) total size :
  ctr_crawl_memory (S fuel) st total size = ctr_crawl_memory_F (ctr_crawl_memory fuel) st total size.
Proof. reflexivity. Qed.

(** More fuel gives the same result. *)
Lemma crawl_more_fuel fuel (st : dbg_state H) total size r :
  ctr_crawl_memory fuel st total size = Some r -> ctr_crawl_memory (S fuel) st total size = Some r.
Proof.
  revert st total size r. induction fuel as [|fuel IH]; intros st total size r Hr; [discriminate |].
  rewrite crawl_S in Hr. rewrite (crawl_S (S fuel)). unfold ctr_crawl_memory_F in *.
  destruct (malloc st size) as [tmp st1]. cbv zeta in Hr |- *.
  match goal with |- context [if 4 <? ?x then _ else _] => destruct (4 <? x) end; [| exact Hr].
  destruct (ctr_crawl_memory fuel st1 _ _) as [[st2 t2] |] eqn:E; [| discriminate].
  now rewrite (IH _ _ _ _ E).
Qed.

Lemma crawl_fuel_le fuel fuel' (st : dbg_state H) total size r :
  (fuel <= fuel')%nat -> ctr_crawl_memory fuel st total size = Some r ->
  ctr_crawl_memory fuel' st total size = Some r.
Proof. induction 1; auto using crawl_more_fuel. Qed.

(** The measure drops on each recursive call. *)
Lemma crawl_measure_granted h h' size fuel :
  heap_avail h' + size <= heap_avail h -> 4 < size ->
  (crawl_measure h size < S fuel)%nat -> (crawl_measure h' size < fuel)%nat.
Proof.
  unfold crawl_measure. intros Hc Hs Hm. pose proof (heap_avail_nonneg h').
  pose proof (Z.log2_nonneg size).
  pose proof (Z.div_mod (heap_avail h) 5 ltac:(lia)). pose proof (Z.mod_pos_bound (heap_avail h) 5 ltac:(lia)).
  pose proof (Z.div_mod (heap_avail h') 5 ltac:(lia)). pose proof (Z.mod_pos_bound (heap_avail h') 5 ltac:(lia)).
  lia.
Qed.

Lemma crawl_measure_halved h size fuel :
  4 < Z.shiftr size 1 -> (crawl_measure h size < S fuel)%nat ->
  (crawl_measure h (Z.shiftr size 1) < fuel)%nat.
Proof.
  unfold crawl_measure. intros Hs Hm.
  rewrite Z.shiftr_div_pow2 in Hs by lia. change (2 ^ 1) with 2 in Hs.
  rewrite Z.log2_shiftr by (Z.div_mod_to_equations; lia).
  assert (1 <= Z.log2 size)
    by (change 1 with (Z.log2 2); apply Z.log2_le_mono; Z.div_mod_to_equations; lia).
  pose proof (Z.div_pos (heap_avail h) 5 (heap_avail_nonneg h) ltac:(lia)). lia.
Qed.

(** With fuel above [crawl_measure], the crawl returns, gives the heap
    back, and adds to [*total_size] (modulo [2^32]) at most the bytes
    that were free. *)
Lemma crawl_spec fuel (st : dbg_state H) total size :
  0 <= size -> 0 <= total < 2 ^ 32 -> (crawl_measure (dbg_heap st) size < fuel)%nat ->
  exists st' added, ctr_crawl_memory fuel st total size = Some (st', wrap32 (total + added)) /\
    dbg_heap st' = dbg_heap st /\ 0 <= added <= heap_avail (dbg_heap st).
Proof.
  revert st total size. induction fuel as [|fuel IH]; intros st total size Hs Ht Hm; [lia |].
  rewrite crawl_S. unfold ctr_crawl_memory_F. pose proof (malloc_free_heap st size) as Hfree.
  pose proof (malloc_ret st size) as Hret. pose proof (malloc_heap st size) as Hheap.
  destruct (malloc st size) as [tmp st1]. simpl in Hret, Hheap, Hfree.
  destruct (Z.eqb_spec tmp 0) as [Hz | Hz].
  - assert (Hh1 : dbg_heap st1 = dbg_heap st) by (rewrite Hheap; apply malloc_null_keeps; congruence).
    rewrite Hz in *.
    destruct (Z.ltb_spec 4 (Z.shiftr size 1)) as [Hb | Hb].
    + destruct (IH st1 total (Z.shiftr size 1)) as (st2 & a & E & Hh2 & Ha);
        [apply Z.shiftr_nonneg; lia | exact Ht | rewrite Hh1; now apply crawl_measure_halved |].
      rewrite E. do 2 eexists. split; [reflexivity |].
      split; [apply Hfree; congruence | rewrite <- Hh1; exact Ha].
    + exists (free st1 0), 0. rewrite Z.add_0_r, wrap32_small by exact Ht.
      split; [reflexivity |]. split; [apply Hfree; reflexivity | pose proof (heap_avail_nonneg (dbg_heap st)); lia].
  - pose proof (malloc_consumes (dbg_heap st) size ltac:(rewrite <- Hret; exact Hz)) as Hc.
    rewrite <- Hheap in Hc. pose proof (heap_avail_nonneg (dbg_heap st1)).
    destruct (Z.ltb_spec 4 size) as [Hb | Hb].
    + destruct (IH st1 (wrap32 (total + size)) size) as (st2 & a & E & Hh2 & Ha);
        [exact Hs | apply wrap32_range | eapply crawl_measure_granted; eauto |].
      rewrite E. exists (free st2 tmp), (size + a). rewrite wrap32_add_wrap, Z.add_assoc.
      split; [reflexivity |]. split; [apply Hfree; congruence | lia].
    + exists (free st1 tmp), size. split; [reflexivity |].
      split; [apply Hfree; reflexivity | lia].
Qed.

End Laws.

(** ** Lemmas for an exact allocator *)

Lemma pow2_split k : 3 <= k -> 2 ^ k = 8 * 2 ^ (k - 3).
Proof.
  intros Hk. replace k with (3 + (k - 3)) at 1 by lia. rewrite Z.pow_add_r by lia. reflexivity.
Qed.

Lemma pow2_shiftr k : 1 <= k -> Z.shiftr (2 ^ k) 1 = 2 ^ (k - 1).
Proof.
  intros Hk. rewrite Z.shiftr_div_pow2 by lia. rewrite <- Z.pow_sub_r by lia. reflexivity.
Qed.

Lemma pow2_add3 n : 2 ^ (Z.of_nat n + 3) = 8 * 2 ^ Z.of_nat n.
Proof. rewrite Z.pow_add_r by lia. lia. Qed.

Lemma pow2_succ n : 2 ^ (Z.of_nat (S n) + 3) = 2 * (8 * 2 ^ Z.of_nat n).
Proof.
  rewrite Nat2Z.inj_succ. replace (Z.succ (Z.of_nat n) + 3) with (1 + (3 + Z.of_nat n)) by lia.
  rewrite !Z.pow_add_r by lia. reflexivity.
Qed.

(** The goal of the two loop lemmas after one iteration. *)
Ltac exists_loop j Hh2 Ej Hj :=
  split; [rewrite Hh2; reflexivity |]; exists j; split; [rewrite Ej; ring | split; [lia |]].

Section LoopLaws.

Context {H : Type} `{MallocLaws H}.

(** One iteration of the loop, [i = n + 3]: the request [max_block +
    2^i] (no wrap below [2^32]) is refused and the heap is unchanged,
    or granted and freed, which gives the heap back. *)
Lemma max_block_loop_S n (st : dbg_state H) mb :
  0 <= mb -> mb + 2 * (8 * 2 ^ Z.of_nat n) <= 2 ^ 32 ->
  let m := mb + 8 * 2 ^ Z.of_nat n in
  (fst (malloc st m) = 0 /\ dbg_heap (snd (malloc st m)) = dbg_heap st /\
   max_block_loop (S n) st mb = max_block_loop n (snd (malloc st m)) mb) \/
  (fst (malloc st m) <> 0 /\ dbg_heap (free (snd (malloc st m)) (fst (malloc st m))) = dbg_heap st /\
   max_block_loop (S n) st mb = max_block_loop n (free (snd (malloc st m)) (fst (malloc st m))) m).
Proof.
  intros Hmb Hlim m. pose proof (Z.pow_pos_nonneg 2 (Z.of_nat n) ltac:(lia) ltac:(lia)).
  assert (Hm : wrap32 (mb + Z.shiftl 1 (Z.of_nat (S n) + 2)) = m).
  { rewrite Z.shiftl_1_l, Nat2Z.inj_succ. replace (Z.succ (Z.of_nat n) + 2) with (3 + Z.of_nat n) by lia.
    rewrite Z.pow_add_r by lia. apply wrap32_small. lia. }
  pose proof (malloc_free_heap st m) as Hfree. pose proof (malloc_heap st m) as Hheap.
  pose proof (malloc_ret st m) as Hret.
  simpl max_block_loop. rewrite Hm. destruct (malloc st m) as [tmp st1]. simpl in *.
  destruct (Z.eqb_spec tmp 0) as [Hz | Hz]; [left | right]; (split; [exact Hz |]).
  - split; [rewrite Hheap; apply malloc_null_keeps; congruence | reflexivity].
  - split; [apply Hfree; reflexivity | reflexivity].
Qed.

(** For any lawful allocator, [n] iterations add to [max_block] a
    multiple of 8 below [2^(n+3)] and give the heap back. *)
Lemma max_block_loop_laws n (st : dbg_state H) mb :
  0 <= mb -> mb + 2 ^ (Z.of_nat n + 3) <= 2 ^ 32 ->
  dbg_heap (fst (max_block_loop n st mb)) = dbg_heap st /\
  exists j, snd (max_block_loop n st mb) = mb + 8 * j /\ 0 <= j /\ 8 * j <= 2 ^ (Z.of_nat n + 3) - 8.
Proof.
  revert st mb. induction n as [|n IH]; intros st mb Hmb Hlim.
  - split; [reflexivity |]. exists 0. simpl. lia.
  - pose proof (Z.pow_pos_nonneg 2 (Z.of_nat n) ltac:(lia) ltac:(lia)).
    rewrite pow2_succ in *. rewrite pow2_add3 in IH.
    destruct (max_block_loop_S n st mb ltac:(lia) ltac:(lia)) as [(Hz & Hh & ->) | (Hz & Hh & ->)];
      rewrite <- Hh.
    + destruct (IH (snd (malloc st (mb + 8 * 2 ^ Z.of_nat n))) mb ltac:(lia) ltac:(lia)) as [Hh2 (j & Ej & Hj)].
      exists_loop j Hh2 Ej Hj. lia.
    + destruct (IH (free (snd (malloc st (mb + 8 * 2 ^ Z.of_nat n))) (fst (malloc st (mb + 8 * 2 ^ Z.of_nat n)))) (mb + 8 * 2 ^ Z.of_nat n) ltac:(lia) ltac:(lia)) as [Hh2 (j & Ej & Hj)].
      exists_loop (2 ^ Z.of_nat n + j) Hh2 Ej Hj. lia.
Qed.

End LoopLaws.

Section Exact.

Context {H : Type} `{ExactMalloc H}.

Lemma malloc_granted_iff (st : dbg_state H) n :
  0 < n -> fst (malloc st n) <> 0 <-> n <= heap_avail (dbg_heap st).
Proof. intros Hn. rewrite malloc_ret. now apply malloc_fits. Qed.

(** From a power of two [2^k] with [k >= 3], the crawl adds to
    [*total_size] the free bytes rounded down to a multiple of 8. *)
Lemma crawl_exact fuel (st : dbg_state H) total k :
  3 <= k -> 0 <= total < 2 ^ 32 -> (crawl_measure (dbg_heap st) (2 ^ k) < fuel)%nat ->
  exists st' j, ctr_crawl_memory fuel st total (2 ^ k) = Some (st', wrap32 (total + 8 * j)) /\
    dbg_heap st' = dbg_heap st /\ 0 <= j /\ 8 * j <= heap_avail (dbg_heap st) < 8 * j + 8.
Proof.
  revert st total k. induction fuel as [|fuel IH]; intros st total k Hk Ht Hm; [lia |].
  rewrite crawl_S. unfold ctr_crawl_memory_F. pose proof (malloc_free_heap st (2 ^ k)) as Hfree.
  pose proof (malloc_granted_iff st (2 ^ k) ltac:(lia)) as Hfit.
  pose proof (malloc_heap st (2 ^ k)) as Hheap. rewrite malloc_ret in Hfit.
  pose proof (pow2_split k Hk) as Hq. pose proof (Z.pow_pos_nonneg 2 (k - 3) ltac:(lia) ltac:(lia)).
  pose proof (malloc_ret st (2 ^ k)) as Hret.
  destruct (malloc st (2 ^ k)) as [tmp st1]. simpl in Hret, Hheap, Hfree. rewrite <- Hret in Hfit.
  cbv zeta. destruct (Z.eqb_spec tmp 0) as [Hz | Hz].
  - assert (Hh1 : dbg_heap st1 = dbg_heap st) by (rewrite Hheap; apply malloc_null_keeps; congruence).
    rewrite Hz in *. rewrite pow2_shiftr by lia.
    assert (Ha : heap_avail (dbg_heap st) < 2 ^ k) by (destruct (Z_lt_le_dec (heap_avail (dbg_heap st)) (2 ^ k)); [assumption | exfalso; now apply Hfit]).
    destruct (Z.ltb_spec 4 (2 ^ (k - 1))) as [Hb | Hb].
    + destruct (IH st1 total (k - 1)) as (st2 & j & E & Hh2 & Hj);
        [| exact Ht | rewrite Hh1, <- pow2_shiftr by lia; apply crawl_measure_halved; [rewrite pow2_shiftr by lia |]; assumption |].
      { destruct (Z_le_gt_dec 4 k); [lia |]. replace k with 3 in Hb by lia. simpl in Hb. lia. }
      rewrite E. exists (free st2 0), j. split; [reflexivity |].
      split; [apply Hfree; congruence | rewrite <- Hh1; exact Hj].
    + exists (free st1 0), 0. rewrite Z.mul_0_r, Z.add_0_r, wrap32_small by exact Ht.
      split; [reflexivity |]. split; [apply Hfree; reflexivity |].
      assert (k = 3) by (destruct (Z_le_gt_dec k 3); [lia |]; pose proof (Z.pow_le_mono_r 2 3 (k - 1) ltac:(lia) ltac:(lia)); simpl in *; lia).
      subst k. pose proof (heap_avail_nonneg (dbg_heap st)). simpl in Ha. lia.
  - assert (Hle : 2 ^ k <= heap_avail (dbg_heap st)) by (now apply Hfit).
    pose proof (malloc_exact (dbg_heap st) (2 ^ k) ltac:(rewrite <- Hret; exact Hz)) as Hx.
    rewrite <- Hheap in Hx.
    assert (H4 : 4 < 2 ^ k) by lia. rewrite (proj2 (Z.ltb_lt _ _) H4).
    destruct (IH st1 (wrap32 (total + 2 ^ k)) k) as (st2 & j & E & Hh2 & Hj);
      [exact Hk | apply wrap32_range | apply (crawl_measure_granted (dbg_heap st)); [rewrite Hx; lia | exact H4 | exact Hm] |].
    rewrite E. exists (free st2 tmp), (2 ^ (k - 3) + j). rewrite wrap32_add_wrap, <- Z.add_assoc.
    split; [do 3 f_equal; lia |]. split; [apply Hfree; congruence | lia].
Qed.

(** After [n] iterations [max_block] has grown by the largest multiple
    of 8 that fits in what is free and stays below [2^(n+3)]; the heap
    is the same after each iteration. *)
Lemma max_block_loop_exact n (st : dbg_state H) mb :
  0 <= mb <= heap_avail (dbg_heap st) -> mb + 2 ^ (Z.of_nat n + 3) <= 2 ^ 32 ->
  dbg_heap (fst (max_block_loop n st mb)) = dbg_heap st /\
  exists j, snd (max_block_loop n st mb) = mb + 8 * j /\ 0 <= j /\
    8 * j <= Z.min (heap_avail (dbg_heap st) - mb) (2 ^ (Z.of_nat n + 3) - 1) < 8 * j + 8.
Proof.
  revert st mb. induction n as [|n IH]; intros st mb Hmb Hlim.
  - split; [reflexivity |]. exists 0. simpl. lia.
  - pose proof (Z.pow_pos_nonneg 2 (Z.of_nat n) ltac:(lia) ltac:(lia)).
    rewrite pow2_succ in *. rewrite pow2_add3 in IH.
    pose proof (malloc_granted_iff st (mb + 8 * 2 ^ Z.of_nat n) ltac:(lia)) as Hfit.
    destruct (max_block_loop_S n st mb ltac:(lia) ltac:(lia)) as [(Hz & Hh & ->) | (Hz & Hh & ->)];
      rewrite <- Hh;
      [destruct (IH (snd (malloc st (mb + 8 * 2 ^ Z.of_nat n))) mb ltac:(rewrite Hh; lia) ltac:(lia)) as [Hh2 (j & Ej & Hj)];
       exists_loop j Hh2 Ej Hj; rewrite Hh in * |
       destruct (IH (free (snd (malloc st (mb + 8 * 2 ^ Z.of_nat n))) (fst (malloc st (mb + 8 * 2 ^ Z.of_nat n)))) (mb + 8 * 2 ^ Z.of_nat n) ltac:(rewrite Hh; lia) ltac:(lia)) as [Hh2 (j & Ej & Hj)];
       exists_loop (2 ^ Z.of_nat n + j) Hh2 Ej Hj; rewrite Hh in *].
    + assert (heap_avail (dbg_heap st) < mb + 8 * 2 ^ Z.of_nat n) by (apply Z.nle_gt; intros Hle; now apply Hfit).
      lia.
    + assert (mb + 8 * 2 ^ Z.of_nat n <= heap_avail (dbg_heap st)) by (now apply Hfit). lia.
Qed.

End Exact.

(** ** The ideal allocator is lawful and exact *)

Lemma stack_malloc_cases (h : stack_heap) n :
  (0 < sh_top h /\ 0 <= n /\ sh_top h + n <= sh_limit h /\
   _malloc_r h n = (sh_top h, {| sh_top := sh_top h + n; sh_limit := sh_limit h;
                                 sh_blocks := sh_top h :: sh_blocks h |})) \/
  (~ (0 < sh_top h /\ 0 <= n /\ sh_top h + n <= sh_limit h) /\ _malloc_r h n = (0, h)).
Proof. simpl. zcase; simpl; [left; auto | right; split; [lia | reflexivity] ..]. Qed.

#[export] Instance stack_malloc_laws : MallocLaws stack_heap.
Proof.
  refine {| heap_avail := stack_avail |}.
  - intros h. unfold stack_avail. zcase; lia.
  - intros h n. destruct (stack_malloc_cases h n) as [(? & ? & ? & ->) | (? & ->)]; simpl; [lia | auto].
  - intros h n. unfold stack_avail.
    destruct (stack_malloc_cases h n) as [(? & ? & ? & ->) | (? & ->)]; simpl; [zcase; lia | congruence].
  - intros [t l bs] n. destruct (stack_malloc_cases {| sh_top := t; sh_limit := l; sh_blocks := bs |} n)
      as [(? & ? & ? & ->) | (? & ->)]; simpl in *; [| congruence].
    rewrite Z.eqb_refl. zcase; [lia | reflexivity].
  - intros [t l [|q bs]]; simpl; [reflexivity |]. now rewrite Bool.andb_false_r.
Defined.

Lemma stack_heap_avail (h : stack_heap) : heap_avail h = stack_avail h.
Proof. reflexivity. Qed.

#[export] Instance stack_malloc_exact : ExactMalloc stack_heap.
Proof.
  split.
  - intros h n Hn. rewrite !stack_heap_avail. unfold stack_avail.
    destruct (stack_malloc_cases h n) as [(? & ? & ? & ->) | (Hno & ->)]; simpl; unfold stack_avail; zcase; split; intros; lia.
  - intros h n. rewrite !stack_heap_avail. unfold stack_avail.
    destruct (stack_malloc_cases h n) as [(? & ? & ? & ->) | (? & ->)]; simpl; unfold stack_avail; [zcase; lia | congruence].
Qed.

(** ** The statistics of the wrappers *)

Lemma fold_min_init p m l : fold_right Z.min (Z.min p m) l = Z.min p (fold_right Z.min m l).
Proof. induction l as [|x l IH]; simpl; [reflexivity |]. rewrite IH. lia. Qed.

Lemma fold_max_init p m l : fold_right Z.max (Z.max p m) l = Z.max p (fold_right Z.max m l).
Proof. induction l as [|x l IH]; simpl; [reflexivity |]. rewrite IH. lia. Qed.

Section Stats.

Context {H : Type} `{Malloc H}.

(** The conditional updates of lines 398-402 are [max] and [min]. *)
Lemma malloc_stats (st : dbg_state H) n :
  let '(p, st1) := malloc st n in
  malloc_calls st1 = wrap32 (malloc_calls st + 1) /\
  min_malloc_addr st1 = (if p =? 0 then min_malloc_addr st else Z.min p (min_malloc_addr st)) /\
  max_malloc_addr st1 = (if p =? 0 then max_malloc_addr st
                         else Z.max (wrap32 (p + n)) (max_malloc_addr st)).
Proof.
  unfold malloc. destruct (_malloc_r (dbg_heap st) n) as [p h']. simpl.
  zcase; simpl; zcase; repeat split; lia.
Qed.

Lemma dbg_run_stats (st : dbg_state H) ops :
  0 <= malloc_calls st < 2 ^ 32 ->
  min_malloc_addr (snd (dbg_run st ops))
    = fold_right Z.min (min_malloc_addr st) (map fst (fst (dbg_run st ops))) /\
  max_malloc_addr (snd (dbg_run st ops))
    = fold_right Z.max (max_malloc_addr st)
        (map (fun '(p, n) => wrap32 (p + n)) (fst (dbg_run st ops))) /\
  malloc_calls (snd (dbg_run st ops)) = wrap32 (malloc_calls st + Z.of_nat (count_mallocs ops)).
Proof.
  revert st. induction ops as [|[n | q] ops IH]; intros st Hc; simpl.
  - rewrite Z.add_0_r, wrap32_small by exact Hc. auto.
  - pose proof (malloc_stats st n) as Hs. destruct (malloc st n) as [p st1].
    destruct Hs as (Hc1 & Hmin & Hmax).
    destruct (IH st1 ltac:(rewrite Hc1; apply wrap32_range)) as (Hmin' & Hmax' & Hc').
    destruct (dbg_run st1 ops) as [bs st2]. simpl in *.
    rewrite Hmin', Hmax', Hc', Hmin, Hmax, Hc1, wrap32_add_wrap.
    split; [| split; [| f_equal; lia]]; destruct (p =? 0); simpl;
      auto using fold_min_init, fold_max_init.
  - apply (IH (free st q)). exact Hc.
Qed.

End Stats.

(** ** Properties *)

Section Properties.

Context {H : Type} `{MallocLaws H}.

(** C30 (termination). [ctr_crawl_memory] returns: given fuel
    above [crawl_measure] (free bytes over 5 plus the binary logarithm
    of the size), it gives a result, and any more fuel gives the same
    one, for every lawful allocator. *)
Theorem crawl_terminates fuel (st : dbg_state H) total size :
  0 <= size -> 0 <= total < 2 ^ 32 -> (crawl_measure (dbg_heap st) size < fuel)%nat ->
  exists r, ctr_crawl_memory fuel st total size = Some r /\
    forall fuel', (fuel <= fuel')%nat -> ctr_crawl_memory fuel' st total size = Some r.
Proof.
  intros Hs Ht Hm. destruct (crawl_spec fuel st total size Hs Ht Hm) as (st' & a & E & _).
  exists (st', wrap32 (total + a)). split; [exact E |]. intros fuel' Hle. exact (crawl_fuel_le _ _ _ _ _ _ Hle E).
Qed.

(** C29 (safety). For every lawful allocator with fewer than
    [2^32] free bytes, [ctr_get_memory_info] returns, frees every block
    it allocated (the heap after it is the heap before), reports as
    [*available] at most the free bytes, and as [*max_block] a multiple
    of 8 below [2^28]. *)
Theorem get_memory_info_safe fuel (st : dbg_state H) :
  (crawl_measure (dbg_heap st) (2 ^ 27) < fuel)%nat -> heap_avail (dbg_heap st) < 2 ^ 32 ->
  exists st' available max_block,
    ctr_get_memory_info fuel st = Some (st', available, max_block) /\
    dbg_heap st' = dbg_heap st /\ 0 <= available <= heap_avail (dbg_heap st) /\
    0 <= max_block <= 2 ^ 28 - 8 /\ max_block mod 8 = 0.
Proof.
  intros Hm Ha. unfold ctr_get_memory_info. rewrite Z.shiftl_1_l.
  destruct (crawl_spec fuel st 0 (2 ^ 27) ltac:(lia) ltac:(lia) Hm) as (st1 & a & -> & Hh1 & Hav).
  destruct (max_block_loop_laws 25 st1 0 ltac:(lia) ltac:(vm_compute; congruence)) as [Hh2 (j & Ej & Hj)].
  destruct (max_block_loop 25 st1 0) as [st2 mb]. cbn [fst snd] in *.
  exists st2, a, mb. rewrite wrap32_small by lia. split; [reflexivity |].
  split; [congruence | split; [lia | rewrite Ej; change (2 ^ (25 + 3)) with (2 ^ 28) in Hj]].
  split; [lia |]. rewrite Z.add_0_l, Z.mul_comm. apply Z_mod_mult.
Qed.

End Properties.

(** C28 (refinement). With an allocator that grants a request
    exactly when it fits in the free bytes [A < 2^32],
    [ctr_get_memory_info] reports [*available] = [A] rounded down to a
    multiple of 8 and [*max_block] = [min A (2^28 - 1)] rounded down to
    a multiple of 8, and gives the heap back. *)
Theorem get_memory_info_exact {H : Type} `{ExactMalloc H} fuel (st : dbg_state H) :
  (crawl_measure (dbg_heap st) (2 ^ 27) < fuel)%nat -> heap_avail (dbg_heap st) < 2 ^ 32 ->
  let A := heap_avail (dbg_heap st) in
  exists st', ctr_get_memory_info fuel st
    = Some (st', A - A mod 8, Z.min A (2 ^ 28 - 1) - Z.min A (2 ^ 28 - 1) mod 8) /\
    dbg_heap st' = dbg_heap st.
Proof.
  intros Hm Ha A. unfold ctr_get_memory_info. rewrite Z.shiftl_1_l.
  pose proof (heap_avail_nonneg (dbg_heap st)).
  destruct (crawl_exact fuel st 0 27 ltac:(lia) ltac:(lia) Hm) as (st1 & j & -> & Hh1 & Hj).
  destruct (max_block_loop_exact 25 st1 0 ltac:(rewrite Hh1; lia) ltac:(vm_compute; congruence))
    as [Hh2 (j2 & Ej & Hj2)].
  destruct (max_block_loop 25 st1 0) as [st2 mb]. cbn [fst snd] in *. rewrite Hh1 in Hj2.
  change (2 ^ (25 + 3)) with (2 ^ 28) in Hj2. fold A in Hj, Hj2.
  exists st2. rewrite wrap32_small by lia. split; [| congruence].
  do 2 f_equal; [f_equal |]; [| rewrite Ej]; Z.div_mod_to_equations; lia.
Qed.

(** Over any interleaving of [malloc] and
    [free] calls from the initial statistics, [min_malloc_addr] is the
    least address granted (or [0xFFFFFFFF]), [max_malloc_addr] the
    greatest block end as a 32-bit sum [(uint32_t)ret + nbytes] (or 0),
    and [malloc_calls] the number of [malloc] calls modulo [2^32]. *)
Theorem malloc_stats_equiv {H : Type} `{Malloc H} (h : H) ops :
  let '(blocks, st) := dbg_run (dbg_init h) ops in
  min_malloc_addr st = fold_right Z.min 0xFFFFFFFF (map fst blocks) /\
  max_malloc_addr st = fold_right Z.max 0 (map (fun '(p, n) => wrap32 (p + n)) blocks) /\
  malloc_calls st = wrap32 (Z.of_nat (count_mallocs ops)).
Proof.
  destruct (dbg_run_stats (dbg_init h) ops ltac:(simpl; lia)) as (Hmin & Hmax & Hc).
  destruct (dbg_run (dbg_init h) ops) as [bs st]. exact (conj Hmin (conj Hmax Hc)).
Qed.

(** ** Witnesses *)

Lemma crawl_terminates_witness :
  (crawl_measure (dbg_heap (dbg_init small_heap)) (2 ^ 27) < 228)%nat /\
  exists r, ctr_crawl_memory 228 (dbg_init small_heap) 0 (2 ^ 27) = Some r /\
    forall fuel', (228 <= fuel')%nat -> ctr_crawl_memory fuel' (dbg_init small_heap) 0 (2 ^ 27) = Some r.
Proof.
  split; [vm_compute; lia |].
  apply crawl_terminates; [lia | lia | vm_compute; lia].
Defined.

Lemma get_memory_info_safe_witness :
  (crawl_measure (dbg_heap (dbg_init small_heap)) (2 ^ 27) < 228)%nat /\
  heap_avail (dbg_heap (dbg_init small_heap)) < 2 ^ 32 /\
  exists st' available max_block,
    ctr_get_memory_info 228 (dbg_init small_heap) = Some (st', available, max_block) /\
    dbg_heap st' = dbg_heap (dbg_init small_heap) /\
    0 <= available <= heap_avail (dbg_heap (dbg_init small_heap)) /\
    0 <= max_block <= 2 ^ 28 - 8 /\ max_block mod 8 = 0.
Proof.
  split; [vm_compute; lia | split; [vm_compute; reflexivity |]].
  apply (get_memory_info_safe 228 (dbg_init small_heap)); vm_compute; [lia | reflexivity].
Defined.

Lemma get_memory_info_exact_witness :
  (crawl_measure (dbg_heap (dbg_init small_heap)) (2 ^ 27) < 228)%nat /\
  heap_avail (dbg_heap (dbg_init small_heap)) < 2 ^ 32 /\
  exists st', ctr_get_memory_info 228 (dbg_init small_heap) = Some (st', 1000, 1000) /\
    dbg_heap st' = small_heap.
Proof.
  split; [vm_compute; lia | split; [vm_compute; reflexivity |]].
  destruct (get_memory_info_exact 228 (dbg_init small_heap)) as (st' & E & Hh);
    [vm_compute; lia | vm_compute; reflexivity |].
  exists st'. split; [rewrite E; vm_compute; reflexivity | exact Hh].
Defined.

End CtrMemProbe.
