(* ===== verification/CtrDspFirm.v ===== *)
(** * CtrDspFirm: the DSP firmware probe of the 3DS driver

    [ctr_check_dspfirm] of [src/frontend/drivers/platform_ctr.c]
    (lines 243-291). The SD card is a map from paths to byte lists (stdpp
    [gmap string (list Z)]) with a flag telling whether files can be
    created. When [sdmc:/3ds/dspfirm.cdc] is missing, the routine reads
    [sdmc:/3ds/code.bin] into a [malloc]ed buffer, scans its 32-bit words
    from word [0x40] on for the magic ["DSP1"], reads the firmware size in
    the next word, checks with a pointer comparison that the firmware
    (which starts [0x40] words before the magic) fits in the buffer, and
    writes it out. The outcome of a call is a value of [dspfirm_outcome],
    undefined behaviour (a read past the buffer) included.

    Addresses are 32-bit: the size guard of line 275 compares pointers
    that wrap modulo [2^32] ([wrap32]); the loop bounds of line 269 are
    compared as word indices, the buffer lying inside the address space.
    The scan is structural recursion on the number of words left, so it
    terminates by construction. *)

From Stdlib Require Import ZArith Lia.
From stdpp Require Import base list strings gmap.
From S2P Require Import Prelude.

Open Scope Z_scope.

Module CtrDspFirm.

(** The SD card: its files and whether [fopen(..., "wb")] succeeds. *)
Record sdcard := {
  files : gmap string (list Z);
  writable : bool
}.

(** What [malloc(code_size)] returns: success, and the buffer's address. *)
Record dsp_env := {
  malloc_ok : bool;
  malloc_base : Z
}.

Definition dspfirm_path : string := "sdmc:/3ds/dspfirm.cdc".
Definition code_path : string := "sdmc:/3ds/code.bin".

(** ["DSP1"] read as a little-endian word. *)
Definition dsp1_magic : Z := 0x31505344.

(** How a call ends. [SizeRejected] is the [break] of line 276,
    [OpenFailed] the one of line 280; [Extracted start size] records the
    word index of the firmware in the buffer and its size in bytes;
    [OverRead start size] is the [fwrite] of line 281 reading past the end
    of the buffer, after line 278 has created [dspfirm.cdc];
    [UndefinedRead] is a read of the size word past the end of the
    buffer, before anything is written. *)
Inductive dspfirm_outcome :=
  | FirmPresent
  | NoCodeBin
  | NoMemory
  | MagicNotFound
  | SizeRejected
  | OpenFailed
  | Extracted (start : nat) (size : Z)
  | OverRead (start : nat) (size : Z)
  | UndefinedRead.

(** [code_buffer[i]]: the little-endian word at word index [i], or [None]
    when one of its bytes is past the end of the buffer. *)
Definition word_at (buf : list Z) (i : nat) : option Z :=
  match buf !! (4 * i)%nat, buf !! (4 * i + 1)%nat,
        buf !! (4 * i + 2)%nat, buf !! (4 * i + 3)%nat with
  | Some b0, Some b1, Some b2, Some b3 => Some (le32 b0 b1 b2 b3)
  | _, _, _, _ => None
  end.

(** [sd] with [path] (re)created holding [data]. *)
Definition sd_write (sd : sdcard) (path : string) (data : list Z) : sdcard :=
  {| files := <[path := data]> (files sd); writable := writable sd |}.

(** The body of the match (lines 271-284) for the magic found at word [i]
    of a buffer at address [base] holding [nwords] whole words. When the
    [fwrite] reads past the buffer, [fopen(..., "wb")] has already
    created the file; what [fwrite] copies from beyond the buffer is
    undefined, and the file is recorded with the bytes of the buffer
    from the firmware's start. *)
Definition dspfirm_extract (sd : sdcard) (base : Z) (buf : list Z) (nwords i : nat)
    : dspfirm_outcome * sdcard :=
  match word_at buf (S i) with
  | None => (UndefinedRead, sd)
  | Some dspfirm_size =>
      let start := (i - 0x40)%nat in
      let fw_end := wrap32 (base + 4 * Z.of_nat start + 4 * Z.shiftr dspfirm_size 2) in
      let buf_end := wrap32 (base + 4 * Z.of_nat nwords) in
      if buf_end <? fw_end then (SizeRejected, sd)
      else if negb (writable sd) then (OpenFailed, sd)
      else
        let first := (4 * start)%nat in
        if Z.of_nat (length buf) <? Z.of_nat first + dspfirm_size
        then (OverRead start dspfirm_size, sd_write sd dspfirm_path (drop first buf))
        else (Extracted start dspfirm_size,
              sd_write sd dspfirm_path (take (Z.to_nat dspfirm_size) (drop first buf)))
  end.

(** The [for] loop of line 269, from word [i] with [k] words left. Every
    path through the match ends in [break], so the loop stops at the
    first magic. *)
Fixpoint dspfirm_loop (sd : sdcard) (base : Z) (buf : list Z) (nwords i k : nat)
    : dspfirm_outcome * sdcard :=
  match k with
  | O => (MagicNotFound, sd)
  | S k' =>
      match word_at buf i with
      | None => (UndefinedRead, sd)
      | Some w =>
          if w =? dsp1_magic then dspfirm_extract sd base buf nwords i
          else dspfirm_loop sd base buf nwords (S i) k'
      end
  end.

(** [ctr_check_dspfirm] (lines 243-291). [code_size >> 2] is the number
    of whole words of [code.bin]; the loop runs from word [0x40] to the
    last of them. *)
Definition ctr_check_dspfirm (env : dsp_env) (sd : sdcard) : dspfirm_outcome * sdcard :=
  match files sd !! dspfirm_path with
  | Some _ => (FirmPresent, sd)
  | None =>
      match files sd !! code_path with
      | None => (NoCodeBin, sd)
      | Some code =>
          if negb (malloc_ok env) then (NoMemory, sd)
          else
            let nwords := (length code / 4)%nat in
            dspfirm_loop sd (malloc_base env) code nwords 0x40 (nwords - 0x40)
      end
  end.

(** ** Specifications *)

(** Every file holds bytes. *)
Definition byte_ok (b : Z) : Prop := 0 <= b < 256.

Definition sd_wf (sd : sdcard) : Prop :=
  map_Forall (fun _ data => Forall byte_ok data) (files sd).

(** The SD card a call leaves behind, as a function of its outcome. *)
Definition outcome_effect (code : list Z) (o : dspfirm_outcome) (sd : sdcard) : sdcard :=
  match o with
  | Extracted st sz => sd_write sd dspfirm_path (take (Z.to_nat sz) (drop (4 * st) code))
  | OverRead st _ => sd_write sd dspfirm_path (drop (4 * st) code)
  | _ => sd
  end.

(** [i] is the first word index from [0x40] on that holds the magic. *)
Definition first_magic (code : list Z) (i : nat) : Prop :=
  (0x40 <= i < length code / 4)%nat /\ word_at code i = Some dsp1_magic /\
  forall j, (0x40 <= j < i)%nat -> word_at code j <> Some dsp1_magic.

(** The same, as a test. *)
Definition first_magicb (code : list Z) (i : nat) : bool :=
  (0x40 <=? i)%nat && (i <? length code / 4)%nat &&
  bool_decide (word_at code i = Some dsp1_magic) &&
  forallb (fun j => negb (bool_decide (word_at code j = Some dsp1_magic)))
          (seq 0x40 (i - 0x40)).

#[export] Instance byte_ok_dec b : Decision (byte_ok b).
Proof. unfold byte_ok. apply _. Defined.

(** ** Concrete SD cards *)

(** A firmware image of 272 bytes: a 256-byte header, the magic, its size
    and 8 more bytes. *)
Definition example_firm : list Z :=
  replicate 256 0 ++ le32_bytes dsp1_magic ++ le32_bytes 272 ++ replicate 8 7.

(** A [code.bin] holding it at byte 16. *)
Definition example_code : list Z := replicate 16 1 ++ example_firm ++ replicate 16 2.

Definition example_sd : sdcard :=
  {| files := <[code_path := example_code]> ∅; writable := true |}.

(** A heap buffer at [0x08100000]. *)
Definition example_env : dsp_env := {| malloc_ok := true; malloc_base := 0x08100000 |}.

(** A [code.bin] whose magic announces [0xFFFFFFFC] bytes. *)
Definition hostile_code : list Z :=
  replicate 256 0 ++ le32_bytes dsp1_magic ++ le32_bytes 0xFFFFFFFC ++ replicate 8 7.

Definition hostile_sd : sdcard :=
  {| files := <[code_path := hostile_code]> ∅; writable := true |}.

(** ** Lemmas on words *)

Lemma word_at_Some buf i w :
  word_at buf i = Some w -> (4 * i + 3 < length buf)%nat.
Proof.
  unfold word_at. intros H.
  destruct (buf !! (4 * i + 3)%nat) eqn:E3;
    [| now repeat case_match].
  apply lookup_lt_Some in E3. lia.
Qed.

Lemma word_at_inbounds buf i :
  (i < length buf / 4)%nat -> exists w, word_at buf i = Some w.
Proof.
  intros Hi. assert (H4 : (4 * i + 3 < length buf)%nat).
  { pose proof (Nat.Div0.mul_div_le (length buf) 4). lia. }
  unfold word_at.
  destruct (lookup_lt_is_Some_2 buf (4 * i) ltac:(lia)) as [b0 ->].
  destruct (lookup_lt_is_Some_2 buf (4 * i + 1) ltac:(lia)) as [b1 ->].
  destruct (lookup_lt_is_Some_2 buf (4 * i + 2) ltac:(lia)) as [b2 ->].
  destruct (lookup_lt_is_Some_2 buf (4 * i + 3) ltac:(lia)) as [b3 ->].
  eauto.
Qed.

Lemma word_at_range buf i w :
  Forall byte_ok buf -> word_at buf i = Some w -> 0 <= w < 2 ^ 32.
Proof.
  intros Hb. unfold word_at.
  repeat match goal with
         | |- context [buf !! ?n] =>
             let E := fresh "E" in destruct (buf !! n) eqn:E; [| discriminate]
         end.
  intros [= <-]. rewrite Forall_lookup in Hb.
  apply le32_range; unfold byte_ok in Hb; eauto.
Qed.

Lemma first_magicb_spec code i : first_magicb code i = true -> first_magic code i.
Proof.
  unfold first_magicb, first_magic.
  rewrite !andb_true_iff, Nat.leb_le, Nat.ltb_lt, bool_decide_eq_true, forallb_forall.
  intros [[[Hlo Hhi] Hm] Hall]. split_and!; [lia | lia | exact Hm |].
  intros j Hj Hjm. specialize (Hall j). rewrite in_seq in Hall.
  rewrite (proj2 (bool_decide_eq_true _) Hjm) in Hall.
  discriminate (Hall ltac:(lia)).
Qed.

(** ** Lemmas on the scan *)

Lemma extract_effect sd base buf nwords i :
  snd (dspfirm_extract sd base buf nwords i)
  = outcome_effect buf (fst (dspfirm_extract sd base buf nwords i)) sd.
Proof. unfold dspfirm_extract. repeat case_match; reflexivity. Qed.

Lemma loop_effect sd base buf nwords i k :
  snd (dspfirm_loop sd base buf nwords i k)
  = outcome_effect buf (fst (dspfirm_loop sd base buf nwords i k)) sd.
Proof.
  revert i. induction k as [|k IH]; intros i; simpl; [reflexivity |].
  repeat case_match; auto using extract_effect.
Qed.

Lemma check_effect env sd :
  (exists code, files sd !! dspfirm_path = None /\ files sd !! code_path = Some code /\
     snd (ctr_check_dspfirm env sd) = outcome_effect code (fst (ctr_check_dspfirm env sd)) sd)
  \/ snd (ctr_check_dspfirm env sd) = sd.
Proof.
  unfold ctr_check_dspfirm.
  destruct (files sd !! dspfirm_path) eqn:Ef; [now right |].
  destruct (files sd !! code_path) as [code|] eqn:Ec; [| now right].
  destruct (malloc_ok env); [| now right].
  left. exists code. split_and!; [reflexivity | reflexivity | apply loop_effect].
Qed.

(** The scan stops at the first magic, and what it does there is the
    body of the match. *)
Lemma loop_extracted sd base buf nwords i k st sz sd' :
  dspfirm_loop sd base buf nwords i k = (Extracted st sz, sd') ->
  exists j, (i <= j < i + k)%nat /\ word_at buf j = Some dsp1_magic /\
    (forall j', (i <= j' < j)%nat -> word_at buf j' <> Some dsp1_magic) /\
    dspfirm_extract sd base buf nwords j = (Extracted st sz, sd').
Proof.
  revert i. induction k as [|k IH]; intros i; simpl; [discriminate |].
  destruct (word_at buf i) as [w|] eqn:Ew; [| discriminate].
  destruct (Z.eqb_spec w dsp1_magic) as [-> | Hne].
  - intros H. exists i. split_and!; try assumption; try lia.
  - intros H. destruct (IH (S i) H) as (j & Hj & Hm & Hfirst & Hx).
    exists j. split_and!; try assumption; try lia.
    intros j' Hj'. destruct (decide (j' = i)) as [-> | ?]; [congruence |].
    apply Hfirst. lia.
Qed.

Lemma loop_reaches sd base buf nwords i k j :
  (i <= j < i + k)%nat -> word_at buf j = Some dsp1_magic ->
  (forall j', (i <= j' < j)%nat -> exists w, word_at buf j' = Some w /\ w <> dsp1_magic) ->
  dspfirm_loop sd base buf nwords i k = dspfirm_extract sd base buf nwords j.
Proof.
  revert i. induction k as [|k IH]; intros i Hj Hm Hbefore; [lia |]. simpl.
  destruct (decide (i = j)) as [-> | Hij].
  - rewrite Hm, Z.eqb_refl. reflexivity.
  - destruct (Hbefore i ltac:(lia)) as (w & Ew & Hw). rewrite Ew.
    rewrite (proj2 (Z.eqb_neq w dsp1_magic) Hw).
    apply IH; [lia | assumption |]. intros j' Hj'. apply Hbefore. lia.
Qed.

Lemma extract_extracted sd base buf nwords j st sz sd' :
  dspfirm_extract sd base buf nwords j = (Extracted st sz, sd') ->
  st = (j - 0x40)%nat /\ word_at buf (S j) = Some sz /\ writable sd = true /\
  Z.of_nat (4 * st) + sz <= Z.of_nat (length buf) /\
  sd' = sd_write sd dspfirm_path (take (Z.to_nat sz) (drop (4 * st) buf)).
Proof.
  unfold dspfirm_extract.
  destruct (word_at buf (S j)) as [size|] eqn:Es; [| discriminate].
  destruct (_ <? _); [discriminate |].
  destruct (writable sd) eqn:Ew; [| discriminate]. simpl.
  destruct (_ <? _) eqn:Elt; [discriminate |]. apply Z.ltb_ge in Elt.
  intros H. injection H as <- <- <-. split_and!; auto.
Qed.

Lemma shiftr2_div4 z : Z.shiftr z 2 = z / 4.
Proof. rewrite Z.shiftr_div_pow2 by lia. reflexivity. Qed.

Lemma nwords_le (code : list Z) : (4 * (length code / 4) <= length code)%nat.
Proof. apply Nat.Div0.mul_div_le. Qed.

(** Once [code.bin] is loaded, the call goes straight to the first magic. *)
Lemma check_reaches env sd code j :
  files sd !! dspfirm_path = None -> files sd !! code_path = Some code ->
  malloc_ok env = true -> first_magic code j ->
  ctr_check_dspfirm env sd
  = dspfirm_extract sd (malloc_base env) code (length code / 4) j.
Proof.
  intros Hf Hc Hm (Hj & Hmag & Hfirst).
  unfold ctr_check_dspfirm. rewrite Hf, Hc, Hm. cbn [negb].
  apply loop_reaches; [lia | exact Hmag |].
  intros j' Hj'. destruct (word_at_inbounds code j' ltac:(lia)) as [w Hw].
  exists w. split; [exact Hw |]. intros ->. exact (Hfirst j' Hj' Hw).
Qed.

Lemma sd_write_wf sd path data : sd_wf sd -> Forall byte_ok data -> sd_wf (sd_write sd path data).
Proof. intros Hwf Hd. apply map_Forall_insert_2; assumption. Qed.

Lemma check_dspfirm_keeps_wf env sd : sd_wf sd -> sd_wf (snd (ctr_check_dspfirm env sd)).
Proof.
  intros Hwf. destruct (check_effect env sd) as [(code & _ & Hc & ->) | ->]; [| exact Hwf].
  destruct (fst (ctr_check_dspfirm env sd)); try exact Hwf;
    (apply sd_write_wf; [exact Hwf |]); [apply Forall_take |]; apply Forall_drop;
    exact (Hwf _ _ Hc).
Qed.

Lemma check_loop env sd code :
  files sd !! dspfirm_path = None -> files sd !! code_path = Some code -> malloc_ok env = true ->
  ctr_check_dspfirm env sd
  = dspfirm_loop sd (malloc_base env) code (length code / 4) 0x40 (length code / 4 - 0x40).
Proof. intros Hf Hc Hm. unfold ctr_check_dspfirm. rewrite ?Hf, Hc, Hm. reflexivity. Qed.

(** ** Properties *)

(** C7 (safety). The probe changes the SD card at most by creating
    [sdmc:/3ds/dspfirm.cdc], and only when that file was missing: no other
    file is touched and an existing firmware is never overwritten. *)
Theorem ctr_check_dspfirm_frame env sd :
  let sd' := snd (ctr_check_dspfirm env sd) in
  writable sd' = writable sd /\
  (files sd' = files sd \/
   (files sd !! dspfirm_path = None /\
    exists firm, files sd' = <[dspfirm_path := firm]> (files sd))).
Proof.
  simpl. destruct (check_effect env sd) as [(code & Hf & _ & ->) | ->]; [| split; auto].
  destruct (fst (ctr_check_dspfirm env sd)); simpl; split; auto;
    right; (split; [exact Hf | eexists; reflexivity]).
Qed.

(** C8 (functional). A second run of the probe on the card the first
    one left finds the firmware and writes nothing when the first run
    created [dspfirm.cdc] (an extraction, or the [fopen] before an
    over-read) or found it; after every other outcome the card is as it
    was and the second run repeats the first exactly. *)
Theorem ctr_check_dspfirm_idempotent env sd :
  ctr_check_dspfirm env (snd (ctr_check_dspfirm env sd)) =
  match fst (ctr_check_dspfirm env sd) with
  | FirmPresent | Extracted _ _ | OverRead _ _ => (FirmPresent, snd (ctr_check_dspfirm env sd))
  | _ => ctr_check_dspfirm env sd
  end.
Proof.
  destruct (files sd !! dspfirm_path) eqn:Ef.
  { assert (E : ctr_check_dspfirm env sd = (FirmPresent, sd))
      by (unfold ctr_check_dspfirm; now rewrite Ef).
    rewrite E. exact E. }
  destruct (files sd !! code_path) as [code|] eqn:Ec.
  2: { assert (E : ctr_check_dspfirm env sd = (NoCodeBin, sd))
         by (unfold ctr_check_dspfirm; now rewrite Ef, Ec).
       rewrite E. exact E. }
  destruct (malloc_ok env) eqn:Em.
  2: { assert (E : ctr_check_dspfirm env sd = (NoMemory, sd))
         by (unfold ctr_check_dspfirm; now rewrite Ef, Ec, Em).
       rewrite E. exact E. }
  rewrite (check_loop env sd code Ef Ec Em).
  pose proof (loop_effect sd (malloc_base env) code (length code / 4) 0x40
                (length code / 4 - 0x40)) as Hl.
  destruct (dspfirm_loop _ _ _ _ _ _) as [o sd'] eqn:El. cbn [fst snd] in Hl |- *. subst sd'.
  destruct o; cbn [outcome_effect]; try (rewrite (check_loop env sd code Ef Ec Em); exact El);
    unfold ctr_check_dspfirm; cbn [sd_write files]; now rewrite lookup_insert_eq.
Qed.

(** C9 (functional). When the probe extracts a firmware, [code.bin] was
    loaded, the firmware's magic is the first one from word [0x40] on, the
    size written is the word after it, the bytes written lie inside the
    buffer, and the new file holds exactly those bytes. *)
Theorem ctr_check_dspfirm_extracted env sd st sz sd' :
  ctr_check_dspfirm env sd = (Extracted st sz, sd') ->
  exists code,
    files sd !! dspfirm_path = None /\ files sd !! code_path = Some code /\
    first_magic code (st + 0x40) /\ word_at code (st + 0x41) = Some sz /\
    Z.of_nat (4 * st) + sz <= Z.of_nat (length code) /\
    files sd' = <[dspfirm_path := take (Z.to_nat sz) (drop (4 * st) code)]> (files sd).
Proof.
  unfold ctr_check_dspfirm.
  destruct (files sd !! dspfirm_path) eqn:Hf; [discriminate |].
  destruct (files sd !! code_path) as [code|] eqn:Hc; [| discriminate].
  destruct (malloc_ok env); [| discriminate]. cbn [negb]. intros H.
  destruct (loop_extracted _ _ _ _ _ _ _ _ _ H) as (j & Hj & Hmag & Hfirst & Hx).
  destruct (extract_extracted _ _ _ _ _ _ _ _ Hx) as (-> & Hsz & _ & Hlen & ->).
  replace (j - 64 + 64)%nat with j by lia.
  replace (j - 64 + 65)%nat with (S j) by lia.
  exists code. unfold first_magic.
  split_and!; try assumption; try reflexivity; lia.
Qed.

(** C10 (functional). Conversely, when the first magic announces a size
    that is a whole number of words and fits in the buffer, and the buffer
    lies inside the 32-bit address space, the probe extracts exactly that
    firmware. *)
Theorem ctr_check_dspfirm_extracts env sd code j sz :
  files sd !! dspfirm_path = None -> files sd !! code_path = Some code ->
  malloc_ok env = true -> writable sd = true -> Forall byte_ok code ->
  first_magic code j -> word_at code (S j) = Some sz ->
  0 <= malloc_base env -> malloc_base env + Z.of_nat (length code) < 2 ^ 32 ->
  sz mod 4 = 0 -> 4 * Z.of_nat (j - 0x40) + sz <= 4 * Z.of_nat (length code / 4) ->
  ctr_check_dspfirm env sd
  = (Extracted (j - 0x40) sz,
     sd_write sd dspfirm_path (take (Z.to_nat sz) (drop (4 * (j - 0x40)) code))).
Proof.
  intros Hf Hc Hm Hw Hb Hfirst Hsz Hbase Htop Hal Hfit.
  rewrite (check_reaches env sd code j) by assumption.
  pose proof (word_at_range _ _ _ Hb Hsz). pose proof (nwords_le code).
  unfold dspfirm_extract. rewrite Hsz, shiftr2_div4, Hw.
  rewrite !wrap32_small by (Z.div_mod_to_equations; lia).
  replace (_ <? _) with false by (symmetry; apply Z.ltb_ge; Z.div_mod_to_equations; lia).
  replace (Z.of_nat (length code) <? _) with false by (symmetry; apply Z.ltb_ge; lia).
  reflexivity.
Qed.

(** C11 (bounds, a defect of the code). The size guard of line 275 adds
    the announced size to a 32-bit pointer. When the sum passes [2^32] it
    wraps below the end of the buffer, the guard accepts, [dspfirm.cdc]
    is created, and [fwrite] reads the announced size from the buffer:
    far past its end. *)
Theorem dspfirm_guard_wraps env sd code j sz :
  files sd !! dspfirm_path = None -> files sd !! code_path = Some code ->
  malloc_ok env = true -> writable sd = true -> Forall byte_ok code ->
  first_magic code j -> word_at code (S j) = Some sz ->
  0 <= malloc_base env -> malloc_base env + Z.of_nat (length code) < 2 ^ 32 ->
  2 ^ 32 <= malloc_base env + 4 * Z.of_nat (j - 0x40) + 4 * Z.shiftr sz 2 ->
  ctr_check_dspfirm env sd
  = (OverRead (j - 0x40) sz, sd_write sd dspfirm_path (drop (4 * (j - 0x40)) code)).
Proof.
  intros Hf Hc Hm Hw Hb Hfirst Hsz Hbase Htop Hwrap.
  rewrite (check_reaches env sd code j) by assumption.
  pose proof (word_at_range _ _ _ Hb Hsz). pose proof (nwords_le code).
  pose proof (word_at_Some _ _ _ Hsz). destruct Hfirst as (Hj & _ & _).
  unfold dspfirm_extract. rewrite Hsz, Hw. rewrite shiftr2_div4 in *.
  rewrite (wrap32_small (malloc_base env + _)) by lia.
  rewrite wrap32_above by (Z.div_mod_to_equations; lia).
  replace (_ <? _) with false by (symmetry; apply Z.ltb_ge; Z.div_mod_to_equations; lia).
  replace (Z.of_nat (length code) <? _) with true
    by (symmetry; apply Z.ltb_lt; Z.div_mod_to_equations; lia).
  reflexivity.
Qed.

(** The probe keeps every file of the SD card a list of
    bytes. *)
Lemma ctr_check_dspfirm_wf env sd : sd_wf sd -> sd_wf (snd (ctr_check_dspfirm env sd)).
Proof. apply check_dspfirm_keeps_wf. Qed.

(** ** Witnesses *)

Lemma ctr_check_dspfirm_extracted_witness :
  ctr_check_dspfirm example_env example_sd
    = (Extracted 4 272, snd (ctr_check_dspfirm example_env example_sd)) /\
  exists code,
    files example_sd !! dspfirm_path = None /\ files example_sd !! code_path = Some code /\
    first_magic code (4 + 0x40) /\ word_at code (4 + 0x41) = Some 272 /\
    Z.of_nat (4 * 4) + 272 <= Z.of_nat (length code) /\
    files (snd (ctr_check_dspfirm example_env example_sd))
      = <[dspfirm_path := take (Z.to_nat 272) (drop (4 * 4) code)]> (files example_sd).
Proof.
  split; [vm_compute; reflexivity |].
  apply (ctr_check_dspfirm_extracted example_env example_sd 4 272).
  vm_compute. reflexivity.
Defined.

Lemma ctr_check_dspfirm_extracts_witness :
  ctr_check_dspfirm example_env example_sd
  = (Extracted (68 - 0x40) 272,
     sd_write example_sd dspfirm_path
       (take (Z.to_nat 272) (drop (4 * (68 - 0x40)) example_code))).
Proof.
  apply ctr_check_dspfirm_extracts.
  - vm_compute. reflexivity.
  - vm_compute. reflexivity.
  - reflexivity.
  - reflexivity.
  - apply (bool_decide_unpack _). vm_compute. exact I.
  - apply first_magicb_spec. vm_compute. reflexivity.
  - vm_compute. reflexivity.
  - cbn. lia.
  - vm_compute. reflexivity.
  - reflexivity.
  - vm_compute. discriminate.
Defined.

Lemma dspfirm_guard_wraps_witness :
  ctr_check_dspfirm example_env hostile_sd
  = (OverRead (64 - 0x40) 0xFFFFFFFC,
     sd_write hostile_sd dspfirm_path (drop (4 * (64 - 0x40)) hostile_code)).
Proof.
  apply (dspfirm_guard_wraps example_env hostile_sd hostile_code 64 0xFFFFFFFC).
  - vm_compute. reflexivity.
  - vm_compute. reflexivity.
  - reflexivity.
  - reflexivity.
  - apply (bool_decide_unpack _). vm_compute. exact I.
  - apply first_magicb_spec. vm_compute. reflexivity.
  - vm_compute. reflexivity.
  - cbn. lia.
  - vm_compute. reflexivity.
  - vm_compute. discriminate.
Defined.

End CtrDspFirm.
