(* ===== verification/FileList.v ===== *)
(** * FileList: the menu's entry lists

    [file_list_t] and [menu_entries_push], which the driver's
    [parse_drive_list] and the displaylist strategies append to. Their code
    ([libretro-common/file/file_list.c], [menu/menu_entries.c]) is not
    under [src/]; they are modelled from the spec: an ordered sequence of
    entries, insertion order being the rendering order, a push appending
    one entry at the end. *)

From Stdlib Require Import ZArith String List Lia.
Import ListNotations.
From S2P Require Import Prelude.

Module FileList.

(** The entry types the sources of this repository name. *)
Inductive menu_file_type :=
  | MENU_FILE_DIRECTORY
  | MENU_FILE_PLAIN
  | MENU_FILE_CORE
  | MENU_FILE_PLAYLIST_ENTRY
  | MENU_FILE_RDB_ENTRY
  | MENU_SETTING_ACTION
  | MENU_SETTING_GROUP
  | MENU_SETTING_SUBGROUP
  | MENU_SETTING_ITEM
  | MENU_INFO_MESSAGE.

(** One entry: path, label, type, and the two indices pushed with it. *)
Record menu_entry := {
  entry_path : string;
  entry_label : string;
  entry_type : menu_file_type;
  entry_directory_ptr : Z;
  entry_idx : Z
}.

(** A [file_list_t]: its entries in order. *)
Definition file_list : Type := list menu_entry.

(** [menu_entries_push(list, path, label, type, directory_ptr, entry_idx)]. *)
Definition menu_entries_push (l : file_list) (path label : string) (ty : menu_file_type)
    (directory_ptr idx : Z) : file_list :=
  l ++ [{| entry_path := path; entry_label := label; entry_type := ty;
           entry_directory_ptr := directory_ptr; entry_idx := idx |}].

(** The label a renderer shows: the label, or the path when it is empty. *)
Definition display_label (e : menu_entry) : string :=
  if String.eqb (entry_label e) "" then entry_path e else entry_label e.

Lemma menu_entries_push_length l p lb t d i :
  length (menu_entries_push l p lb t d i) = S (length l).
Proof. unfold menu_entries_push. rewrite length_app. simpl. lia. Qed.

Lemma menu_entries_push_prefix l p lb t d i n e :
  nth_error l n = Some e -> nth_error (menu_entries_push l p lb t d i) n = Some e.
Proof.
  intros H. unfold menu_entries_push. rewrite nth_error_app1; [exact H |].
  apply nth_error_Some. congruence.
Qed.

End FileList.
