(* ===== verification/Paths.v ===== *)
(** * Paths: bounded C path strings

    [strlcpy], [strlcat], [fill_pathname_slash], [fill_pathname_join] and
    [fill_pathname_basedir], which [frontend_ctr_get_environment_settings]
    calls. Their code ([libretro-common/file/file_path.c] and the C
    library) is not under [src/]; they are modelled from the spec's join
    semantics: a buffer of [size] bytes holds at most [size - 1]
    characters, a join inserts one ['/'] between a non-empty directory not
    ending in ['/'] and the name, and the base directory of a path keeps
    everything up to its last ['/']. *)

From Stdlib Require Import String Ascii Arith Lia.
From S2P Require Import Prelude.

Open Scope string_scope.

Module Paths.

(** [PATH_MAX_LENGTH] of [retro_miscellaneous.h]. *)
Definition PATH_MAX_LENGTH : nat := 4096.

(** [strlcpy(dst, src, size)]: the result held in [dst]. *)
Definition strlcpy (src : string) (size : nat) : string :=
  substring 0 (size - 1) src.

(** [strlcat(dst, src, size)]: the result held in [dst]. *)
Definition strlcat (dst src : string) (size : nat) : string :=
  dst ++ substring 0 (size - 1 - String.length dst) src.

Definition is_slash (c : ascii) : bool := Ascii.eqb c "/"%char.

(** Does the string end with a slash? *)
Definition ends_with_slash (s : string) : bool :=
  match String.get (String.length s - 1) s with
  | Some c => is_slash c
  | None => false
  end.

(** The index of the last slash, if any. *)
Fixpoint last_slash_from (s : string) (i : nat) : option nat :=
  match s with
  | EmptyString => None
  | String c s' =>
      match last_slash_from s' (S i) with
      | Some j => Some j
      | None => if is_slash c then Some i else None
      end
  end.

(** [fill_pathname_slash(path, size)]. *)
Definition fill_pathname_slash (path : string) (size : nat) : string :=
  if ends_with_slash path then path else strlcat path "/" size.

(** [fill_pathname_join(out, dir, path, size)]. *)
Definition fill_pathname_join (dir path : string) (size : nat) : string :=
  let out := strlcpy dir size in
  let out := if String.eqb out "" then out else fill_pathname_slash out size in
  strlcat out path size.

(** [path_basedir(path)]: truncate after the last slash, or ["./"]. *)
Definition path_basedir (p : string) : string :=
  if Nat.ltb (String.length p) 2 then p
  else match last_slash_from p 0 with
       | Some i => substring 0 (S i) p
       | None => "./"
       end.

(** [fill_pathname_basedir(out, in, size)]. *)
Definition fill_pathname_basedir (inp : string) (size : nat) : string :=
  path_basedir (strlcpy inp size).

(** ** Lemmas *)

Lemma append_assoc_s (s1 s2 s3 : string) : (s1 ++ s2) ++ s3 = s1 ++ (s2 ++ s3).
Proof. induction s1; simpl; congruence. Qed.

Lemma length_append (s1 s2 : string) :
  String.length (s1 ++ s2) = String.length s1 + String.length s2.
Proof. induction s1; simpl; auto. Qed.

Lemma substring_0_length (s : string) n : String.length (substring 0 n s) = Nat.min n (String.length s).
Proof. revert n. induction s; intros [|n]; simpl; auto. Qed.

Lemma substring_0_all (s : string) n : String.length s <= n -> substring 0 n s = s.
Proof.
  revert n. induction s; intros [|n] H; simpl in *; try lia; auto.
  f_equal. apply IHs. lia.
Qed.

Lemma ends_with_slash_app s t : t <> "" -> ends_with_slash (s ++ t) = ends_with_slash t.
Proof.
  intros Ht. unfold ends_with_slash. rewrite length_append.
  replace (String.length s + String.length t - 1)
    with ((String.length t - 1) + String.length s)
    by (destruct t; [congruence | simpl; lia]).
  now rewrite <- append_correct2.
Qed.

Lemma append_nonempty s t : t <> "" -> s ++ t <> "".
Proof. intros Ht. destruct s; simpl; [exact Ht | discriminate]. Qed.

Lemma strlcpy_length src size : 0 < size -> String.length (strlcpy src size) < size.
Proof. intros H. unfold strlcpy. rewrite substring_0_length. lia. Qed.

Lemma strlcat_length dst src size :
  String.length dst < size -> String.length (strlcat dst src size) < size.
Proof.
  intros H. unfold strlcat. rewrite length_append, substring_0_length. lia.
Qed.

Lemma strlcpy_fits src size : String.length src < size -> strlcpy src size = src.
Proof. intros H. apply substring_0_all. lia. Qed.

Lemma strlcat_fits dst src size :
  String.length dst + String.length src < size -> strlcat dst src size = dst ++ src.
Proof. intros H. unfold strlcat. rewrite substring_0_all by lia. reflexivity. Qed.

Lemma fill_pathname_join_length dir path size :
  0 < size -> String.length (fill_pathname_join dir path size) < size.
Proof.
  intros H. unfold fill_pathname_join. apply strlcat_length.
  destruct (String.eqb _ _); [now apply strlcpy_length |].
  unfold fill_pathname_slash. destruct (ends_with_slash _).
  - now apply strlcpy_length.
  - apply strlcat_length. now apply strlcpy_length.
Qed.

(** Without truncation, a join onto a directory that ends with a slash is
    the concatenation. *)
Lemma fill_pathname_join_slash dir path size :
  dir <> "" -> ends_with_slash dir = true ->
  String.length dir + String.length path < size ->
  fill_pathname_join dir path size = dir ++ path.
Proof.
  intros Hne Hs Hlen. unfold fill_pathname_join.
  rewrite strlcpy_fits by lia.
  destruct (String.eqb_spec dir "") as [-> | _]; [congruence |].
  unfold fill_pathname_slash. rewrite Hs. apply strlcat_fits. lia.
Qed.

(** Without truncation, a join onto a directory that does not end with a
    slash inserts one. *)
Lemma fill_pathname_join_noslash dir path size :
  dir <> "" -> ends_with_slash dir = false ->
  String.length dir + String.length path + 1 < size ->
  fill_pathname_join dir path size = dir ++ "/" ++ path.
Proof.
  intros Hne Hs Hlen. unfold fill_pathname_join.
  rewrite strlcpy_fits by lia.
  destruct (String.eqb_spec dir "") as [-> | _]; [congruence |].
  unfold fill_pathname_slash. rewrite Hs.
  rewrite (strlcat_fits dir "/") by (simpl; lia). rewrite strlcat_fits.
  - now rewrite append_assoc_s.
  - rewrite length_append. simpl. lia.
Qed.

End Paths.
