(* ===== verification/FrontendDriver.v ===== *)
(** * FrontendDriver: the capability table and the bootstrap order

    [frontend_ctx_driver_t] is a struct of optional function pointers and
    an identifier; [frontend_ctx_ctr] (lines 531-548 of
    [src/frontend/drivers/platform_ctr.c]) gives its fields in order. Here
    it is a record of [option]al hooks over the state [W] of the platform,
    [None] standing for a [NULL] slot. A hook that may end the process
    returns a [hook_result]: done with a new state, exited with a code, or
    blocked waiting for input that never comes.

    The bootstrap that calls the hooks ([frontend/frontend.c]) is not under
    [src/]; it is modelled from the spec: environment settings, init, the
    run loop, deinit, then shutdown, each absent hook skipped. It is a step
    relation on configurations ([boot_step]) whose invariant, proved by
    rule induction for every driver, is that the hooks called so far are,
    in order, a prefix of that sequence. *)

From Stdlib Require Import ZArith String List Lia.
Import ListNotations.
From S2P Require Import Prelude FileList.

Module FrontendDriver.

(** [enum frontend_architecture]. *)
Inductive frontend_architecture :=
  | FRONTEND_ARCH_NONE
  | FRONTEND_ARCH_X86
  | FRONTEND_ARCH_X86_64
  | FRONTEND_ARCH_PPC
  | FRONTEND_ARCH_ARM
  | FRONTEND_ARCH_MIPS
  | FRONTEND_ARCH_TILE.

(** How a hook returns. *)
Inductive hook_result (W : Type) :=
  | HookDone (w : W)
  | HookExit (code : Z)
  | HookBlocked.

Arguments HookDone {W} w.
Arguments HookExit {W} code.
Arguments HookBlocked {W}.

(** [frontend_ctx_driver_t], fields in the order of [frontend_ctx_ctr]. *)
Record frontend_ctx_driver_t (W : Type) := {
  environment_get : option (W -> hook_result W);
  init : option (W -> hook_result W);
  deinit : option (W -> hook_result W);
  exitspawn : option (W -> hook_result W);
  process_args : option (W -> hook_result W);
  exec : option (W -> hook_result W);
  set_fork : option (bool -> bool -> W -> hook_result W);
  shutdown : option (bool -> W -> hook_result W);
  get_name : option (W -> string);
  get_os : option (W -> string);
  get_rating : option (W -> Z);
  load_content : option (W -> hook_result W);
  get_architecture : option (W -> frontend_architecture);
  get_powerstate : option (W -> Z);
  parse_drive_list : option (option FileList.file_list -> W -> Z * option FileList.file_list);
  ident : string
}.

Arguments environment_get {W} _.
Arguments init {W} _.
Arguments deinit {W} _.
Arguments shutdown {W} _.
Arguments get_rating {W} _.
Arguments get_architecture {W} _.
Arguments parse_drive_list {W} _.
Arguments ident {W} _.

(** The driver with every slot [NULL]. *)
Definition null_driver (W : Type) (name : string) : frontend_ctx_driver_t W :=
  {| environment_get := None; init := None; deinit := None; exitspawn := None;
     process_args := None; exec := None; set_fork := None; shutdown := None;
     get_name := None; get_os := None; get_rating := None; load_content := None;
     get_architecture := None; get_powerstate := None; parse_drive_list := None;
     ident := name |}.

(** A driver over a counter: no environment hook, init and deinit each
    add one, no shutdown. *)
Definition counting_driver : frontend_ctx_driver_t nat :=
  {| environment_get := None; init := Some (fun n => HookDone (S n));
     deinit := Some (fun n => HookDone (S n)); exitspawn := None;
     process_args := None; exec := None; set_fork := None; shutdown := None;
     get_name := None; get_os := None; get_rating := None; load_content := None;
     get_architecture := None; get_powerstate := None; parse_drive_list := None;
     ident := "counting" |}.

(** ** The bootstrap (from the spec) *)

(** The hooks the bootstrap calls, in its order. *)
Inductive boot_hook := HEnv | HInit | HDeinit | HShutdown.

Definition boot_hook_eq_dec (a b : boot_hook) : {a = b} + {a <> b}.
Proof. decide equality. Defined.

Definition boot_order : list boot_hook := [HEnv; HInit; HDeinit; HShutdown].

(** Where the bootstrap is. [BootRunning] is the run loop. *)
Inductive boot_phase :=
  | BootStart | BootEnvDone | BootRunning | BootRunDone | BootDeinited
  | BootFinished | BootExited (code : Z) | BootBlocked.

Section Bootstrap.

Context {W : Type} (d : frontend_ctx_driver_t W) (run : W -> W).

(** The slot of each bootstrap hook ([shutdown] is called with [false]). *)
Definition hook_slot (h : boot_hook) : option (W -> hook_result W) :=
  match h with
  | HEnv => environment_get d
  | HInit => init d
  | HDeinit => deinit d
  | HShutdown => option_map (fun f => f false) (shutdown d)
  end.

(** Calling a slot: an absent hook is skipped, and no call is recorded. *)
Definition call_slot (h : boot_hook) (w : W) : hook_result W * list boot_hook :=
  match hook_slot h with
  | None => (HookDone w, [])
  | Some f => (f w, [h])
  end.

(** A configuration: phase, state, hooks called so far. *)
Definition boot_config : Type := boot_phase * W * list boot_hook.

Definition after_hook (h : boot_hook) (next : boot_phase) (w : W) (calls : list boot_hook)
    : boot_config :=
  let '(r, c) := call_slot h w in
  match r with
  | HookDone w' => (next, w', calls ++ c)
  | HookExit code => (BootExited code, w, calls ++ c)
  | HookBlocked => (BootBlocked, w, calls ++ c)
  end.

Inductive boot_step : boot_config -> boot_config -> Prop :=
  | bs_env w calls : boot_step (BootStart, w, calls) (after_hook HEnv BootEnvDone w calls)
  | bs_init w calls : boot_step (BootEnvDone, w, calls) (after_hook HInit BootRunning w calls)
  | bs_run w calls : boot_step (BootRunning, w, calls) (BootRunDone, run w, calls)
  | bs_deinit w calls : boot_step (BootRunDone, w, calls) (after_hook HDeinit BootDeinited w calls)
  | bs_shutdown w calls :
      boot_step (BootDeinited, w, calls) (after_hook HShutdown BootFinished w calls).

Inductive boot_star : boot_config -> boot_config -> Prop :=
  | bstar_refl c : boot_star c c
  | bstar_step c1 c2 c3 : boot_step c1 c2 -> boot_star c2 c3 -> boot_star c1 c3.

(** The hooks among the first [n] of [boot_order] that are present. *)
Definition present_prefix (n : nat) : list boot_hook :=
  filter (fun h => match hook_slot h with Some _ => true | None => false end)
         (firstn n boot_order).

(** How many hooks each phase has gone through (called or skipped). *)
Definition phase_progress (p : boot_phase) : option nat :=
  match p with
  | BootStart => Some 0%nat | BootEnvDone => Some 1%nat | BootRunning => Some 2%nat
  | BootRunDone => Some 2%nat | BootDeinited => Some 3%nat | BootFinished => Some 4%nat
  | BootExited _ | BootBlocked => None
  end.

(** The bootstrap invariant: the calls made are the present hooks of a
    prefix of [boot_order], the one the phase has reached. *)
Definition boot_inv (c : boot_config) : Prop :=
  let '(p, _, calls) := c in
  match phase_progress p with
  | Some n => calls = present_prefix n
  | None => exists n, (0 < n <= 4)%nat /\ calls = present_prefix n
  end.

(** The calls a bootstrap hook contributes. *)
Definition slot_calls (h : boot_hook) : list boot_hook :=
  match hook_slot h with Some _ => [h] | None => [] end.

(** ** Lemmas *)

Lemma call_slot_calls h w : snd (call_slot h w) = slot_calls h.
Proof. unfold call_slot, slot_calls. now destruct (hook_slot h). Qed.

Lemma present_prefix_S n h :
  nth_error boot_order n = Some h -> present_prefix (S n) = present_prefix n ++ slot_calls h.
Proof.
  intros Hn. unfold present_prefix, slot_calls.
  destruct n as [|[|[|[|n]]]]; simpl in Hn; first [injection Hn as <- | destruct n; discriminate Hn];
    unfold hook_slot; simpl;
    destruct (environment_get d), (init d), (deinit d), (shutdown d); reflexivity.
Qed.

Lemma after_hook_inv h next w calls n :
  nth_error boot_order n = Some h -> phase_progress next = Some (S n) ->
  calls = present_prefix n -> boot_inv (after_hook h next w calls).
Proof.
  intros Hn Hnext ->. assert (Hlt : (n < 4)%nat).
  { assert (Hs : nth_error boot_order n <> None) by congruence.
    apply nth_error_Some in Hs. exact Hs. }
  unfold after_hook. pose proof (call_slot_calls h w) as Hc.
  destruct (call_slot h w) as [r c]. simpl in Hc. subst c.
  rewrite <- present_prefix_S by exact Hn.
  destruct r; simpl; [rewrite Hnext; reflexivity | exists (S n); split; [lia | reflexivity] ..].
Qed.

Lemma after_hook_done h next w w' calls :
  call_slot h w = (HookDone w', [h]) -> after_hook h next w calls = (next, w', calls ++ [h]).
Proof. intros H. unfold after_hook. now rewrite H. Qed.

Lemma boot_step_inv c1 c2 : boot_inv c1 -> boot_step c1 c2 -> boot_inv c2.
Proof.
  intros Hinv Hstep. destruct Hstep; simpl in Hinv.
  - apply (after_hook_inv _ _ _ _ 0); auto.
  - apply (after_hook_inv _ _ _ _ 1); auto.
  - exact Hinv.
  - apply (after_hook_inv _ _ _ _ 2); auto.
  - apply (after_hook_inv _ _ _ _ 3); auto.
Qed.

Lemma boot_star_inv c1 c2 : boot_inv c1 -> boot_star c1 c2 -> boot_inv c2.
Proof. intros H1 Hs. induction Hs; eauto using boot_step_inv. Qed.

Lemma present_prefix_init_once n :
  (n <= 4)%nat -> (count_occ boot_hook_eq_dec (present_prefix n) HInit <= 1)%nat /\
  (In HDeinit (present_prefix n) -> init d <> None -> In HInit (present_prefix n)).
Proof.
  intros Hn. unfold present_prefix.
  destruct n as [|[|[|[|[|n]]]]]; try lia; unfold hook_slot; simpl;
    destruct (environment_get d), (init d), (deinit d), (shutdown d); simpl;
    split; intros; try lia; intuition congruence.
Qed.

(** ** Properties *)

(** For every driver, in every configuration the
    bootstrap reaches from its start, the hooks called so far are exactly
    the present ones among a prefix of environment, init, deinit,
    shutdown: in that order, each at most once, absent ones skipped. *)
Theorem boot_invariant w c :
  boot_star (BootStart, w, []) c -> boot_inv c.
Proof. apply boot_star_inv. reflexivity. Qed.

(** For every driver, init is called at most once, and
    deinit is called only after init when the driver has an init hook. *)
Theorem boot_init_once_before_deinit w p w' calls :
  boot_star (BootStart, w, []) (p, w', calls) ->
  (count_occ boot_hook_eq_dec calls HInit <= 1)%nat /\
  (In HDeinit calls -> init d <> None -> In HInit calls).
Proof.
  intros Hs. apply boot_star_inv in Hs; [| reflexivity]. simpl in Hs.
  destruct (phase_progress p) as [n|] eqn:Hp.
  - subst calls. apply present_prefix_init_once.
    destruct p; simpl in Hp; try discriminate; injection Hp as <-; lia.
  - destruct Hs as (n & Hn & ->). apply present_prefix_init_once. lia.
Qed.

End Bootstrap.

(** [boot_run] follows the bootstrap of a concrete driver to its end. *)
Ltac boot_run := repeat (eapply bstar_step; [constructor | cbn]); apply bstar_refl.

(** A driver whose every slot is [NULL] still runs: the
    bootstrap reaches the run loop and finishes, calling nothing. *)
Lemma null_driver_runs {W} (name : string) (run : W -> W) (w : W) :
  boot_star (null_driver W name) run (BootStart, w, []) (BootRunning, w, []) /\
  boot_star (null_driver W name) run (BootStart, w, []) (BootFinished, run w, []).
Proof.
  split.
  - eapply bstar_step; [apply bs_env |]. eapply bstar_step; [apply bs_init |].
    apply bstar_refl.
  - eapply bstar_step; [apply bs_env |]. eapply bstar_step; [apply bs_init |].
    eapply bstar_step; [apply bs_run |]. eapply bstar_step; [apply bs_deinit |].
    eapply bstar_step; [apply bs_shutdown |]. apply bstar_refl.
Qed.

(** ** Witnesses *)

Lemma boot_invariant_witness :
  boot_star counting_driver id (BootStart, 0%nat, []) (BootFinished, 2%nat, [HInit; HDeinit]) /\
  boot_inv counting_driver (BootFinished, 2%nat, [HInit; HDeinit]).
Proof.
  assert (H : boot_star counting_driver id (BootStart, 0%nat, [])
                (BootFinished, 2%nat, [HInit; HDeinit])) by boot_run.
  split; [exact H | exact (boot_invariant counting_driver id 0%nat _ H)].
Defined.

Lemma boot_init_once_before_deinit_witness :
  boot_star counting_driver id (BootStart, 0%nat, []) (BootFinished, 2%nat, [HInit; HDeinit]) /\
  (count_occ boot_hook_eq_dec [HInit; HDeinit] HInit <= 1)%nat /\
  (In HDeinit [HInit; HDeinit] -> init counting_driver <> None -> In HInit [HInit; HDeinit]).
Proof.
  assert (H : boot_star counting_driver id (BootStart, 0%nat, [])
                (BootFinished, 2%nat, [HInit; HDeinit])) by boot_run.
  split; [exact H | exact (boot_init_once_before_deinit counting_driver id 0%nat _ _ _ H)].
Defined.

End FrontendDriver.
