(* ===== verification/CtrFrontend.v ===== *)
(** * CtrFrontend: the 3DS frontend driver hooks

    The hooks of [src/frontend/drivers/platform_ctr.c]:
    [frontend_ctr_get_environment_settings] (lines 126-200),
    [frontend_ctr_deinit] (202-236), [frontend_ctr_shutdown] (238-241),
    [frontend_ctr_init] (293-319), [frontend_ctr_get_rating] (322-325),
    [wait_for_input] (468-492), [usleep] (494-497), [sysconf] (499-508),
    [frontend_ctr_get_architecture] (511-514),
    [frontend_ctr_parse_drive_list] (516-529) and the table
    [frontend_ctx_ctr] (531-548).

    The process state is the record [ctr_state]: the global audio driver
    structs [audio_ctr_dsp] and [audio_ctr_csnd] (which [frontend_ctr_init]
    overwrites through the pointer [dsp_audio_driver]), [global->verbosity],
    [global->log_file], the SD card, [g_defaults], [argc], whether the
    console is on the bottom screen, and the trace of libctru service
    calls. What the platform answers (service init results, the console
    model, the input frames) is the record [ctr_env], a section variable
    shared by all hooks, as is the build configuration [build_config]
    (the preprocessor symbols [IS_SALAMANDER], [HAVE_LOGGER],
    [HAVE_FILE_LOGGER]). *)

From Stdlib Require Import ZArith String List Lia.
Import ListNotations.
From stdpp Require Import base strings gmap.
From S2P Require Import Prelude FileList Paths CtrDspFirm FrontendDriver.

Open Scope Z_scope.

Module CtrFrontend.

Import FileList Paths FrontendDriver.
Open Scope list_scope.

(** The preprocessor symbols the file tests. *)
Record build_config := {
  IS_SALAMANDER : bool;
  HAVE_LOGGER : bool;
  HAVE_FILE_LOGGER : bool
}.

(** Contents of an [audio_driver_t] struct: which backend it is. *)
Inductive audio_driver_t := audio_dsp_backend | audio_csnd_backend | audio_null_backend.

(** The globals [audio_ctr_dsp] and [audio_ctr_csnd]. *)
Inductive audio_slot := AUDIO_CTR_DSP | AUDIO_CTR_CSND.

Record audio_globals := {
  audio_ctr_dsp : audio_driver_t;
  audio_ctr_csnd : audio_driver_t
}.

Definition audio_read (a : audio_globals) (s : audio_slot) : audio_driver_t :=
  match s with AUDIO_CTR_DSP => audio_ctr_dsp a | AUDIO_CTR_CSND => audio_ctr_csnd a end.

(** [*slot = v]. *)
Definition audio_write (a : audio_globals) (s : audio_slot) (v : audio_driver_t) : audio_globals :=
  match s with
  | AUDIO_CTR_DSP => {| audio_ctr_dsp := v; audio_ctr_csnd := audio_ctr_csnd a |}
  | AUDIO_CTR_CSND => {| audio_ctr_dsp := audio_ctr_dsp a; audio_ctr_csnd := v |}
  end.

(** The globals as the audio drivers define them. *)
Definition initial_audio : audio_globals :=
  {| audio_ctr_dsp := audio_dsp_backend; audio_ctr_csnd := audio_csnd_backend |}.

(** libctru services the driver starts and stops. *)
Inductive service := SrvGfx | SrvCsnd | SrvNdsp | SrvCfgu.

(** The calls the hooks make, in order. *)
Inductive ctr_event :=
  | EvSpeedupEnable (on : bool)
  | EvServiceInit (s : service) (result : Z)
  | EvServiceExit (s : service)
  | EvGfxSet3D (on : bool)
  | EvConsoleInitBottom
  | EvDspFirm (o : CtrDspFirm.dspfirm_outcome)
  | EvLoggerInit
  | EvLogClose
  | EvLcdCommand (header arg : Z)
  | EvCloseHandle
  | EvSleepThread (ns : Z).

(** One iteration of the input loop: [aptMainLoop()] and [hidKeysDown()]. *)
Record input_frame := {
  apt_main_loop : bool;
  keys_down : Z
}.

Definition KEY_SELECT : Z := 4.
Definition KEY_START : Z := 8.

(** What the platform answers. *)
Record ctr_env := {
  csnd_init_result : Z;
  ndsp_init_result : Z;
  cfgu_init_result : Z;
  dsp_malloc : CtrDspFirm.dsp_env;
  not_2DS : bool;
  lcd_handle_result : Z;
  inputs : list input_frame
}.

(** The entries of [g_defaults] the driver writes. *)
Record defaults := {
  dir_port : string;
  dir_core_assets : string;
  dir_assets : string;
  dir_core : string;
  dir_core_info : string;
  dir_savestate : string;
  dir_sram : string;
  dir_system : string;
  dir_playlist : string;
  dir_remap : string;
  path_config : string
}.

Record ctr_state := {
  verbosity : bool;
  log_file : bool;
  audio : audio_globals;
  sd : CtrDspFirm.sdcard;
  g_defaults : defaults;
  argc : Z;
  console_on_bottom : bool;
  events : list ctr_event
}.

Definition emit (st : ctr_state) (e : ctr_event) : ctr_state :=
  {| verbosity := verbosity st; log_file := log_file st; audio := audio st; sd := sd st;
     g_defaults := g_defaults st; argc := argc st; console_on_bottom := console_on_bottom st;
     events := events st ++ [e] |}.

Definition set_verbosity (st : ctr_state) (v : bool) : ctr_state :=
  {| verbosity := v; log_file := log_file st; audio := audio st; sd := sd st;
     g_defaults := g_defaults st; argc := argc st; console_on_bottom := console_on_bottom st;
     events := events st |}.

Definition set_log_file (st : ctr_state) (open : bool) (card : CtrDspFirm.sdcard) : ctr_state :=
  {| verbosity := verbosity st; log_file := open; audio := audio st; sd := card;
     g_defaults := g_defaults st; argc := argc st; console_on_bottom := console_on_bottom st;
     events := events st |}.

Definition set_audio_sd (st : ctr_state) (a : audio_globals) (card : CtrDspFirm.sdcard)
    : ctr_state :=
  {| verbosity := verbosity st; log_file := log_file st; audio := a; sd := card;
     g_defaults := g_defaults st; argc := argc st; console_on_bottom := console_on_bottom st;
     events := events st |}.

Definition set_paths (st : ctr_state) (d : defaults) (n : Z) : ctr_state :=
  {| verbosity := verbosity st; log_file := log_file st; audio := audio st; sd := sd st;
     g_defaults := d; argc := n; console_on_bottom := console_on_bottom st;
     events := events st |}.

Definition set_console_bottom (st : ctr_state) : ctr_state :=
  {| verbosity := verbosity st; log_file := log_file st; audio := audio st; sd := sd st;
     g_defaults := g_defaults st; argc := argc st; console_on_bottom := true;
     events := events st |}.

(** [elf_path_cst] (line 40). *)
Definition elf_path_cst : string := "sdmc:/retroarch/test.3dsx".

Definition log_path : string := "sdmc:/retroarch/retroarch-log.txt".

(** Lines 143-162: the directories under the port directory. The save
    directories join onto the core directory. *)
Definition ctr_defaults_of (port : string) : defaults :=
  let core := fill_pathname_join port "cores" PATH_MAX_LENGTH in
  {| dir_port := port;
     dir_core_assets := fill_pathname_join port "downloads" PATH_MAX_LENGTH;
     dir_assets := fill_pathname_join port "media" PATH_MAX_LENGTH;
     dir_core := core;
     dir_core_info := fill_pathname_join port "cores" PATH_MAX_LENGTH;
     dir_savestate := fill_pathname_join core "savestates" PATH_MAX_LENGTH;
     dir_sram := fill_pathname_join core "savefiles" PATH_MAX_LENGTH;
     dir_system := fill_pathname_join core "system" PATH_MAX_LENGTH;
     dir_playlist := fill_pathname_join core "playlists" PATH_MAX_LENGTH;
     dir_remap := fill_pathname_join port "remaps" PATH_MAX_LENGTH;
     path_config := fill_pathname_join port "retroarch.cfg" PATH_MAX_LENGTH |}.

(** [wait_for_input] (lines 468-492): how the loop ends on a finite run of
    input frames. [START] is tested before [SELECT]; [SELECT] calls
    [exit(0)]; running out of frames means the loop is still waiting. *)
Inductive wait_outcome := WaitDone | WaitExit (code : Z) | WaitStarved.

Fixpoint wait_for_input (frames : list input_frame) : wait_outcome :=
  match frames with
  | [] => WaitStarved
  | f :: rest =>
      if negb (apt_main_loop f) then WaitDone
      else if negb (Z.land (keys_down f) KEY_START =? 0) then WaitDone
      else if negb (Z.land (keys_down f) KEY_SELECT =? 0) then WaitExit 0
      else wait_for_input rest
  end.

(** [usleep] (lines 494-497): the nanoseconds passed to [svcSleepThread],
    computed in [int64_t] after the cast. The function returns no value. *)
Definition usleep (us : Z) : ctr_event := EvSleepThread (us * 1000).

(** [_SC_NPROCESSORS_ONLN] of newlib's [unistd.h]. *)
Definition _SC_NPROCESSORS_ONLN : Z := 9.

(** [sysconf] (lines 499-508). *)
Definition sysconf (name : Z) : Z := if name =? _SC_NPROCESSORS_ONLN then 2 else -1.

(** [frontend_ctr_get_rating] (lines 322-325). *)
Definition frontend_ctr_get_rating : Z := 3.

(** [frontend_ctr_get_architecture] (lines 511-514). *)
Definition frontend_ctr_get_architecture : frontend_architecture := FRONTEND_ARCH_ARM.

(** [frontend_ctr_shutdown] (lines 238-241). *)
Definition frontend_ctr_shutdown (unused : bool) (st : ctr_state) : ctr_state := st.

(** The services started and stopped along a trace. *)
Fixpoint service_inits (es : list ctr_event) : list service :=
  match es with
  | [] => []
  | EvServiceInit s _ :: es' => s :: service_inits es'
  | _ :: es' => service_inits es'
  end.

Fixpoint service_exits (es : list ctr_event) : list service :=
  match es with
  | [] => []
  | EvServiceExit s :: es' => s :: service_exits es'
  | _ :: es' => service_exits es'
  end.

(** A frame that ends the input loop. *)
Definition frame_decides (f : input_frame) : bool :=
  negb (apt_main_loop f) || negb (Z.land (keys_down f) KEY_START =? 0)
  || negb (Z.land (keys_down f) KEY_SELECT =? 0).

(** The fields of [struct rarch_main_wrap] (declared outside [src/])
    that the auto-start block writes; absent pointers are [None]. *)
Record rarch_main_wrap := {
  touched : bool;
  no_content : bool;
  verbose : bool;
  config_path : option string;
  sram_path : option string;
  state_path : option string;
  content_path : option string;
  libretro_path : option string
}.

(** The auto-start block of [frontend_ctr_get_environment_settings]
    (lines 169-198, under [#if 0]): when [argv[1]] is a non-empty string
    the static buffer [path] is cleared, and when [params_data] is set
    [argv[1]] is copied into it and the wrap asks for that content with
    the default core, config and save paths. The result is [path] after
    the block and the wrap; the [RARCH_LOG] lines are not modelled. *)
Definition ctr_argv_autostart (argv1 : option string) (path : string)
    (params_data : option rarch_main_wrap) : string * option rarch_main_wrap :=
  match argv1 with
  | Some a =>
      if (String.length a =? 0)%nat then (path, params_data)
      else
        match params_data with
        | Some _ =>
            let p := strlcpy a PATH_MAX_LENGTH in
            (p, Some {| touched := true; no_content := false; verbose := false;
                        config_path := None; sram_path := None; state_path := None;
                        content_path := Some p; libretro_path := None |})
        | None => (""%string, None)
        end
  | None => (path, params_data)
  end.

(** ** Concrete platforms *)

(** The regular (non-salamander) build with a file logger. *)
Definition example_cfg : build_config :=
  {| IS_SALAMANDER := false; HAVE_LOGGER := false; HAVE_FILE_LOGGER := true |}.

(** A new 3DS whose CSND service fails to start; the user presses START at
    the second frame. *)
Definition csnd_fail_env : ctr_env :=
  {| csnd_init_result := -1; ndsp_init_result := 0; cfgu_init_result := 0;
     dsp_malloc := CtrDspFirm.example_env; not_2DS := true; lcd_handle_result := 0;
     inputs := [{| apt_main_loop := true; keys_down := 0 |};
                {| apt_main_loop := true; keys_down := KEY_START |}] |}.

(** A process before the driver runs, with the SD card of [CtrDspFirm]. *)
Definition example_state : ctr_state :=
  {| verbosity := false; log_file := false; audio := initial_audio;
     sd := CtrDspFirm.example_sd; g_defaults := ctr_defaults_of ""; argc := 1;
     console_on_bottom := false; events := [] |}.

(** The paths of [g_defaults] the driver writes. *)
Definition defaults_paths (d : defaults) : list string :=
  [dir_port d; dir_core_assets d; dir_assets d; dir_core d; dir_core_info d;
   dir_savestate d; dir_sram d; dir_system d; dir_playlist d; dir_remap d; path_config d].

(** The well-formedness of the driver's state: every file of the SD card
    holds bytes, and every path of [g_defaults] fits its
    [char[PATH_MAX_LENGTH]] buffer with the NUL. *)
Definition ctr_state_wf (st : ctr_state) : Prop :=
  CtrDspFirm.sd_wf (sd st) /\
  Forall (fun p => String.length p < PATH_MAX_LENGTH)%nat (defaults_paths (g_defaults st)).

Section CtrDriver.

Context (cfg : build_config) (env : ctr_env).

(** [frontend_ctr_get_environment_settings] (lines 126-200). *)
Definition frontend_ctr_get_environment_settings (st : ctr_state) : ctr_state :=
  let st :=
    if IS_SALAMANDER cfg then st
    else if HAVE_LOGGER cfg then emit st EvLoggerInit
    else if HAVE_FILE_LOGGER cfg then
      let card := sd st in
      if CtrDspFirm.writable card
      then set_log_file st true (CtrDspFirm.sd_write card log_path [])
      else set_log_file st false card
    else st in
  let port := fill_pathname_basedir elf_path_cst PATH_MAX_LENGTH in
  set_paths st (ctr_defaults_of port) 0.

(** [frontend_ctr_init] (lines 293-319). [dsp_audio_driver] points to
    [audio_ctr_dsp], or to [audio_ctr_csnd] once [csndInit] has failed; a
    failed [ndspInit] stores the null driver through that pointer. *)
Definition frontend_ctr_init (st : ctr_state) : ctr_state :=
  if IS_SALAMANDER cfg then st
  else
    let st := set_verbosity st true in
    let st := emit st (EvSpeedupEnable true) in
    let st := emit st (EvServiceInit SrvGfx 0) in
    let st := emit st (EvGfxSet3D false) in
    let st := set_console_bottom (emit st EvConsoleInitBottom) in
    let r_csnd := csnd_init_result env in
    let st := emit st (EvServiceInit SrvCsnd r_csnd) in
    let '(dsp_audio_driver, a) :=
      if negb (r_csnd =? 0) then
        let a := audio_write (audio st) AUDIO_CTR_CSND (audio_ctr_dsp (audio st)) in
        (AUDIO_CTR_CSND, audio_write a AUDIO_CTR_DSP audio_null_backend)
      else (AUDIO_CTR_DSP, audio st) in
    let '(o, card) := CtrDspFirm.ctr_check_dspfirm (dsp_malloc env) (sd st) in
    let st := emit (set_audio_sd st a card) (EvDspFirm o) in
    let r_ndsp := ndsp_init_result env in
    let st := emit st (EvServiceInit SrvNdsp r_ndsp) in
    let st :=
      if negb (r_ndsp =? 0)
      then set_audio_sd st (audio_write (audio st) dsp_audio_driver audio_null_backend) (sd st)
      else st in
    emit st (EvServiceInit SrvCfgu (cfgu_init_result env)).

(** The end of [frontend_ctr_deinit] (lines 221-234), after the wait. *)
Definition deinit_release (st : ctr_state) : ctr_state :=
  let st :=
    if not_2DS env && (0 <=? lcd_handle_result env)
    then emit (emit st (EvLcdCommand 0x00110040 2)) EvCloseHandle
    else st in
  let st := emit st (EvServiceExit SrvCfgu) in
  let st := emit st (EvServiceExit SrvNdsp) in
  let st := emit st (EvServiceExit SrvCsnd) in
  emit st (EvServiceExit SrvGfx).

(** [frontend_ctr_deinit] (lines 202-236). With the console still on the
    bottom screen it waits for a key; [SELECT] ends the process there. *)
Definition frontend_ctr_deinit (st : ctr_state) : hook_result ctr_state :=
  if IS_SALAMANDER cfg then HookDone st
  else
    let st := set_verbosity st true in
    let st :=
      if HAVE_FILE_LOGGER cfg then
        set_log_file (if log_file st then emit st EvLogClose else st) false (sd st)
      else st in
    if console_on_bottom st then
      match wait_for_input (inputs env) with
      | WaitDone => HookDone (deinit_release st)
      | WaitExit code => HookExit code
      | WaitStarved => HookBlocked
      end
    else HookDone (deinit_release st).

(** [frontend_ctr_parse_drive_list] (lines 516-529); [None] is a [NULL]
    list. *)
Definition frontend_ctr_parse_drive_list (data : option file_list) : Z * option file_list :=
  if IS_SALAMANDER cfg then (0, data)
  else
    match data with
    | None => (-1, None)
    | Some l => (0, Some (menu_entries_push l "sdmc:/" "" MENU_FILE_DIRECTORY 0 0))
    end.

(** [frontend_ctx_ctr] (lines 531-548). *)
Definition frontend_ctx_ctr : frontend_ctx_driver_t ctr_state :=
  {| environment_get := Some (fun st => HookDone (frontend_ctr_get_environment_settings st));
     init := Some (fun st => HookDone (frontend_ctr_init st));
     deinit := Some frontend_ctr_deinit;
     exitspawn := None;
     process_args := None;
     exec := None;
     set_fork := None;
     shutdown := Some (fun b st => HookDone (frontend_ctr_shutdown b st));
     get_name := None;
     get_os := None;
     get_rating := Some (fun _ => frontend_ctr_get_rating);
     load_content := None;
     get_architecture := Some (fun _ => frontend_ctr_get_architecture);
     get_powerstate := None;
     parse_drive_list := Some (fun l _ => frontend_ctr_parse_drive_list l);
     ident := "ctr" |}.

(** ** Lemmas *)

Lemma service_inits_app l1 l2 :
  service_inits (l1 ++ l2) = service_inits l1 ++ service_inits l2.
Proof. induction l1 as [|[] l1 IH]; simpl; rewrite ?IH; reflexivity. Qed.

Lemma service_exits_app l1 l2 :
  service_exits (l1 ++ l2) = service_exits l1 ++ service_exits l2.
Proof. induction l1 as [|[] l1 IH]; simpl; rewrite ?IH; reflexivity. Qed.

#[local] Hint Rewrite service_inits_app service_exits_app app_nil_r : ctr_rw.

(** [trace_simpl] normalises the services of a trace built by [emit]. *)
Ltac trace_simpl := cbn; autorewrite with ctr_rw; cbn; rewrite <- ?app_assoc; cbn.

Lemma init_trace st :
  IS_SALAMANDER cfg = false ->
  service_inits (events (frontend_ctr_init st))
    = service_inits (events st) ++ [SrvGfx; SrvCsnd; SrvNdsp; SrvCfgu] /\
  service_exits (events (frontend_ctr_init st)) = service_exits (events st) /\
  console_on_bottom (frontend_ctr_init st) = true.
Proof.
  intros Hs. unfold frontend_ctr_init. rewrite Hs.
  destruct (negb (csnd_init_result env =? 0)), (CtrDspFirm.ctr_check_dspfirm _ _),
    (negb (ndsp_init_result env =? 0)); split_and!; trace_simpl; reflexivity.
Qed.

Lemma deinit_release_trace st :
  service_inits (events (deinit_release st)) = service_inits (events st) /\
  service_exits (events (deinit_release st))
    = service_exits (events st) ++ [SrvCfgu; SrvNdsp; SrvCsnd; SrvGfx].
Proof.
  unfold deinit_release. destruct (not_2DS env && (0 <=? lcd_handle_result env));
    split; trace_simpl; reflexivity.
Qed.

(** What [frontend_ctr_deinit] does before the wait keeps the trace's
    services and the console. *)
Definition deinit_prelude (st : ctr_state) : ctr_state :=
  let st := set_verbosity st true in
  if HAVE_FILE_LOGGER cfg then
    set_log_file (if log_file st then emit st EvLogClose else st) false (sd st)
  else st.

Lemma deinit_prelude_trace st :
  service_inits (events (deinit_prelude st)) = service_inits (events st) /\
  service_exits (events (deinit_prelude st)) = service_exits (events st) /\
  console_on_bottom (deinit_prelude st) = console_on_bottom st.
Proof.
  unfold deinit_prelude. cbn. destruct (HAVE_FILE_LOGGER cfg), (log_file st);
    split_and!; trace_simpl; reflexivity.
Qed.

Lemma deinit_unfold st :
  IS_SALAMANDER cfg = false ->
  frontend_ctr_deinit st =
    if console_on_bottom (deinit_prelude st) then
      match wait_for_input (inputs env) with
      | WaitDone => HookDone (deinit_release (deinit_prelude st))
      | WaitExit code => HookExit code
      | WaitStarved => HookBlocked
      end
    else HookDone (deinit_release (deinit_prelude st)).
Proof. intros Hs. unfold frontend_ctr_deinit, deinit_prelude. now rewrite Hs. Qed.

Lemma deinit_done st :
  IS_SALAMANDER cfg = false -> wait_for_input (inputs env) = WaitDone ->
  frontend_ctr_deinit st = HookDone (deinit_release (deinit_prelude st)).
Proof.
  intros Hs Hw. rewrite deinit_unfold by exact Hs. rewrite Hw.
  now destruct (console_on_bottom _).
Qed.

Lemma init_audio st :
  IS_SALAMANDER cfg = false ->
  audio (frontend_ctr_init st) =
    if csnd_init_result env =? 0 then
      if ndsp_init_result env =? 0 then audio st
      else audio_write (audio st) AUDIO_CTR_DSP audio_null_backend
    else
      let a := audio_write (audio_write (audio st) AUDIO_CTR_CSND (audio_ctr_dsp (audio st)))
                 AUDIO_CTR_DSP audio_null_backend in
      if ndsp_init_result env =? 0 then a
      else audio_write a AUDIO_CTR_CSND audio_null_backend.
Proof.
  intros Hs. unfold frontend_ctr_init. rewrite Hs.
  destruct (csnd_init_result env =? 0), (CtrDspFirm.ctr_check_dspfirm _ _),
    (ndsp_init_result env =? 0); reflexivity.
Qed.

Lemma wait_cons f rest :
  wait_for_input (f :: rest)
  = if frame_decides f
    then (if apt_main_loop f && (Z.land (keys_down f) KEY_START =? 0) then WaitExit 0 else WaitDone)
    else wait_for_input rest.
Proof.
  unfold frame_decides. simpl.
  destruct (apt_main_loop f), (Z.land (keys_down f) KEY_START =? 0),
    (Z.land (keys_down f) KEY_SELECT =? 0); reflexivity.
Qed.

Lemma ctr_defaults_fit port :
  (String.length port < PATH_MAX_LENGTH)%nat ->
  Forall (fun p => String.length p < PATH_MAX_LENGTH)%nat (defaults_paths (ctr_defaults_of port)).
Proof.
  intros H.
  repeat (apply List.Forall_cons;
          [first [exact H | apply fill_pathname_join_length; unfold PATH_MAX_LENGTH; lia] |]).
  apply List.Forall_nil.
Qed.

Lemma port_fits : (String.length (fill_pathname_basedir elf_path_cst PATH_MAX_LENGTH) < PATH_MAX_LENGTH)%nat.
Proof. apply Nat.ltb_lt. vm_compute. reflexivity. Qed.

Lemma env_keeps st :
  CtrDspFirm.sd_wf (sd st) ->
  CtrDspFirm.sd_wf (sd (frontend_ctr_get_environment_settings st)) /\
  g_defaults (frontend_ctr_get_environment_settings st)
  = ctr_defaults_of (fill_pathname_basedir elf_path_cst PATH_MAX_LENGTH).
Proof.
  intros Hwf. unfold frontend_ctr_get_environment_settings.
  destruct (IS_SALAMANDER cfg), (HAVE_LOGGER cfg), (HAVE_FILE_LOGGER cfg); cbn;
    try destruct (CtrDspFirm.writable (sd st)); cbn; split; try reflexivity; try exact Hwf.
  all: apply CtrDspFirm.sd_write_wf; [exact Hwf | constructor].
Qed.

Lemma init_keeps st :
  sd (frontend_ctr_init st)
  = (if IS_SALAMANDER cfg then sd st
     else snd (CtrDspFirm.ctr_check_dspfirm (dsp_malloc env) (sd st))) /\
  g_defaults (frontend_ctr_init st) = g_defaults st.
Proof.
  unfold frontend_ctr_init. destruct (IS_SALAMANDER cfg); [split; reflexivity |]. cbn.
  destruct (negb (csnd_init_result env =? 0)), (CtrDspFirm.ctr_check_dspfirm _ _),
    (negb (ndsp_init_result env =? 0)); split; reflexivity.
Qed.

Lemma deinit_release_keeps st :
  sd (deinit_release st) = sd st /\ g_defaults (deinit_release st) = g_defaults st.
Proof. unfold deinit_release. destruct (_ && _); split; reflexivity. Qed.

Lemma deinit_prelude_keeps st :
  sd (deinit_prelude st) = sd st /\ g_defaults (deinit_prelude st) = g_defaults st.
Proof. unfold deinit_prelude. cbn. destruct (HAVE_FILE_LOGGER cfg), (log_file st); split; reflexivity. Qed.

Lemma deinit_keeps st st' :
  frontend_ctr_deinit st = HookDone st' -> sd st' = sd st /\ g_defaults st' = g_defaults st.
Proof.
  destruct (IS_SALAMANDER cfg) eqn:Hs.
  - unfold frontend_ctr_deinit. rewrite Hs. intros H. injection H as <-. auto.
  - rewrite deinit_unfold by exact Hs. destruct (deinit_prelude_keeps st) as [E1 E2].
    destruct (deinit_release_keeps (deinit_prelude st)) as [E3 E4].
    destruct (console_on_bottom _); [destruct (wait_for_input _)|]; intros H; try discriminate;
      injection H as <-; split; congruence.
Qed.

(** ** Properties *)

(** C12 (safety). After [frontend_ctr_init], starting from the audio
    drivers as defined, the DSP backend is still registered in some audio
    driver global exactly when [ndspInit] succeeded, and the CSND backend
    exactly when [csndInit] succeeded: no global offers a backend whose
    service failed, and no backend whose service started is lost. *)
Theorem init_audio_backends st :
  IS_SALAMANDER cfg = false -> audio st = initial_audio ->
  let a := audio (frontend_ctr_init st) in
  ((audio_ctr_dsp a = audio_dsp_backend \/ audio_ctr_csnd a = audio_dsp_backend)
     <-> ndsp_init_result env = 0) /\
  ((audio_ctr_dsp a = audio_csnd_backend \/ audio_ctr_csnd a = audio_csnd_backend)
     <-> csnd_init_result env = 0).
Proof.
  intros Hs Ha. cbv zeta. rewrite init_audio, Ha by exact Hs.
  destruct (Z.eqb_spec (csnd_init_result env) 0), (Z.eqb_spec (ndsp_init_result env) 0);
    cbn; intuition congruence.
Qed.

(** C13 (functional). When [csndInit] fails and [ndspInit] succeeds,
    [frontend_ctr_init] leaves the null driver in [audio_ctr_dsp] and the
    DSP backend in [audio_ctr_csnd]: the working DSP backend is reachable
    only under the CSND driver's global. *)
Theorem init_csnd_failure_moves_dsp st :
  IS_SALAMANDER cfg = false -> audio st = initial_audio ->
  csnd_init_result env <> 0 -> ndsp_init_result env = 0 ->
  audio (frontend_ctr_init st)
  = {| audio_ctr_dsp := audio_null_backend; audio_ctr_csnd := audio_dsp_backend |}.
Proof.
  intros Hs Ha Hc Hn. rewrite init_audio, Ha by exact Hs.
  rewrite (proj2 (Z.eqb_neq _ _) Hc), (proj2 (Z.eqb_eq _ _) Hn). reflexivity.
Qed.

(** C14 (refinement). When [frontend_ctr_deinit] completes after
    [frontend_ctr_init], it has stopped the services in exactly the
    reverse order in which init started them (gfx, CSND, NDSP, CFGU), each
    once; it stops CSND and NDSP even when their init failed. *)
Theorem deinit_reverses_init st st' :
  IS_SALAMANDER cfg = false -> service_inits (events st) = [] ->
  service_exits (events st) = [] ->
  frontend_ctr_deinit (frontend_ctr_init st) = HookDone st' ->
  service_exits (events st') = rev (service_inits (events st')).
Proof.
  intros Hs Hi He Hd. rewrite deinit_unfold in Hd by exact Hs.
  destruct (init_trace st Hs) as (Hi1 & He1 & _).
  destruct (deinit_prelude_trace (frontend_ctr_init st)) as (Hi2 & He2 & _).
  assert (Hst' : st' = deinit_release (deinit_prelude (frontend_ctr_init st))).
  { destruct (console_on_bottom _); [destruct (wait_for_input _)|]; congruence. }
  subst st'. destruct (deinit_release_trace (deinit_prelude (frontend_ctr_init st))) as [-> ->].
  rewrite Hi2, He2, Hi1, He1, Hi, He. reflexivity.
Qed.

(** C15 (error). After [frontend_ctr_init] the console is on the bottom
    screen, so [frontend_ctr_deinit] always waits for a key: it completes
    exactly when the input loop returns, and it ends the process with
    code 0, without stopping any service, exactly when SELECT is pressed
    first. *)
Theorem deinit_after_init_waits st :
  IS_SALAMANDER cfg = false ->
  ((exists st', frontend_ctr_deinit (frontend_ctr_init st) = HookDone st')
     <-> wait_for_input (inputs env) = WaitDone) /\
  (frontend_ctr_deinit (frontend_ctr_init st) = HookExit 0
     <-> wait_for_input (inputs env) = WaitExit 0).
Proof.
  intros Hs. rewrite deinit_unfold by exact Hs.
  destruct (init_trace st Hs) as (_ & _ & Hc).
  destruct (deinit_prelude_trace (frontend_ctr_init st)) as (_ & _ & ->). rewrite Hc.
  destruct (wait_for_input (inputs env)); split; split; intros H;
    first [ reflexivity | discriminate | congruence | eexists; reflexivity
          | destruct H as [? H]; discriminate ].
Qed.

(** C16 (equivalence). [wait_for_input] returns exactly as the first frame
    that ends the loop says: [aptMainLoop] false or START pressed make it
    return, SELECT alone exits with 0, and without such a frame it is
    still waiting. *)
Theorem wait_for_input_first_decisive frames :
  wait_for_input frames =
    match List.find frame_decides frames with
    | None => WaitStarved
    | Some f =>
        if apt_main_loop f && (Z.land (keys_down f) KEY_START =? 0)
        then WaitExit 0 else WaitDone
    end.
Proof.
  induction frames as [|f rest IH]; [reflexivity |]. simpl.
  unfold frame_decides. rewrite IH.
  destruct (apt_main_loop f) eqn:Ea, (Z.land (keys_down f) KEY_START =? 0) eqn:Eb,
    (Z.land (keys_down f) KEY_SELECT =? 0); cbn; rewrite ?Ea, ?Eb; reflexivity.
Qed.

(** The wait loop of [wait_for_input] returns, by
    [break] or by [exit(0)], exactly when one of the input frames ends
    it (the applet closing, START or SELECT); without such a frame it is
    still waiting. *)
Theorem wait_for_input_terminates frames :
  wait_for_input frames <> WaitStarved <-> exists f, In f frames /\ frame_decides f = true.
Proof.
  induction frames as [|f rest IH].
  - simpl. split; [congruence | intros (f & [] & _)].
  - rewrite wait_cons. destruct (frame_decides f) eqn:Ef.
    + split; [intros _; exists f; split; [left; reflexivity | exact Ef] |].
      intros _. destruct (_ && _); discriminate.
    + rewrite IH. split.
      * intros (g & Hg & Hd). exists g. split; [right; exact Hg | exact Hd].
      * intros (g & [-> | Hg] & Hd); [congruence | eauto].
Qed.

(** Every hook of the driver keeps its state well formed:
    after the environment hook, init, a completed deinit and shutdown,
    the SD card still holds byte files and every default path fits its
    buffer, the environment hook establishing the paths and init
    changing the card only through the firmware probe. *)
Theorem ctr_hooks_preserve_wf st :
  ctr_state_wf st ->
  ctr_state_wf (frontend_ctr_get_environment_settings st) /\
  ctr_state_wf (frontend_ctr_init st) /\
  (forall st', frontend_ctr_deinit st = HookDone st' -> ctr_state_wf st') /\
  (forall b, ctr_state_wf (frontend_ctr_shutdown b st)).
Proof.
  intros [Hsd Hd]. split_and!.
  - destruct (env_keeps st Hsd) as [H1 H2].
    split; [exact H1 | rewrite H2; exact (ctr_defaults_fit _ port_fits)].
  - destruct (init_keeps st) as [H1 H2]. split; [rewrite H1 | rewrite H2; exact Hd].
    destruct (IS_SALAMANDER cfg); [exact Hsd | apply CtrDspFirm.check_dspfirm_keeps_wf, Hsd].
  - intros st' H. destruct (deinit_keeps st st' H) as [H1 H2].
    split; [rewrite H1 | rewrite H2]; assumption.
  - intros b. split; assumption.
Qed.

(** C18 (liveness). Driven by the bootstrap through the capability table,
    the ctr driver runs to the end when the user presses START at the
    deinit prompt: environment, init, deinit and shutdown are each called
    once, in order, and the trace ends with the four services stopped. *)
Theorem ctr_boot_finishes (run : ctr_state -> ctr_state) st :
  IS_SALAMANDER cfg = false -> wait_for_input (inputs env) = WaitDone ->
  exists st',
    boot_star frontend_ctx_ctr run (BootStart, st, [])
      (BootFinished, st', [HEnv; HInit; HDeinit; HShutdown]) /\
    exists pre, service_exits (events st') = pre ++ [SrvCfgu; SrvNdsp; SrvCsnd; SrvGfx].
Proof.
  intros Hs Hw.
  set (s1 := frontend_ctr_get_environment_settings st).
  set (s2 := frontend_ctr_init s1).
  set (s3 := deinit_release (deinit_prelude (run s2))).
  exists (frontend_ctr_shutdown false s3). split.
  - eapply bstar_step; [apply bs_env |]. rewrite (after_hook_done _ _ _ _ s1) by reflexivity.
    eapply bstar_step; [apply bs_init |]. rewrite (after_hook_done _ _ _ _ s2) by reflexivity.
    eapply bstar_step; [apply bs_run |].
    eapply bstar_step; [apply bs_deinit |].
    rewrite (after_hook_done _ _ _ _ s3)
      by (unfold call_slot; cbn [hook_slot frontend_ctx_ctr deinit]; now rewrite deinit_done).
    eapply bstar_step; [apply bs_shutdown |].
    rewrite (after_hook_done _ _ _ _ (frontend_ctr_shutdown false s3)) by reflexivity.
    apply bstar_refl.
  - exists (service_exits (events (deinit_prelude (run s2)))).
    apply deinit_release_trace.
Qed.

End CtrDriver.

(** [join_side] closes the side conditions of the join lemmas. *)
Ltac join_side :=
  first [ assumption
        | apply append_nonempty; discriminate
        | rewrite ends_with_slash_app by discriminate; reflexivity
        | rewrite ?length_append; cbn -[PATH_MAX_LENGTH]; unfold PATH_MAX_LENGTH in *; lia ].

(** C17 (functional). For a port directory ending in a slash, the driver's
    defaults put the cores, downloads, media, remaps and configuration
    file directly under it, and the save states, save files, system files
    and playlists under the core directory, with no trailing slash. *)
Theorem ctr_defaults_layout port :
  port <> ""%string -> ends_with_slash port = true ->
  (String.length port + 20 < PATH_MAX_LENGTH)%nat ->
  let d := ctr_defaults_of port in
  dir_core d = (port ++ "cores")%string /\ dir_core_info d = (port ++ "cores")%string /\
  dir_savestate d = (port ++ "cores/savestates")%string /\
  dir_sram d = (port ++ "cores/savefiles")%string /\
  dir_system d = (port ++ "cores/system")%string /\
  dir_playlist d = (port ++ "cores/playlists")%string /\
  dir_core_assets d = (port ++ "downloads")%string /\
  dir_assets d = (port ++ "media")%string /\ dir_remap d = (port ++ "remaps")%string /\
  path_config d = (port ++ "retroarch.cfg")%string.
Proof.
  intros Hne Hs Hlen. unfold ctr_defaults_of. cbn zeta.
  rewrite !(fill_pathname_join_slash port) by join_side.
  rewrite !(fill_pathname_join_noslash (port ++ "cores")) by join_side.
  rewrite !append_assoc_s. split_and!; reflexivity.
Qed.

(** Every path of the driver's defaults fits in its
    [PATH_MAX_LENGTH] buffer with its terminating NUL, whatever the port
    directory's length. *)
Theorem ctr_defaults_bounded port :
  (String.length port < PATH_MAX_LENGTH)%nat ->
  let d := ctr_defaults_of port in
  Forall (fun p => String.length p < PATH_MAX_LENGTH)%nat
    [dir_port d; dir_core_assets d; dir_assets d; dir_core d; dir_core_info d;
     dir_savestate d; dir_sram d; dir_system d; dir_playlist d; dir_remap d; path_config d].
Proof.
  intros H. exact (ctr_defaults_fit port H).
Qed.

(** ** Witnesses *)

Lemma ctr_hooks_preserve_wf_witness :
  ctr_state_wf example_state /\
  ctr_state_wf (frontend_ctr_init example_cfg csnd_fail_env example_state).
Proof.
  assert (H : ctr_state_wf example_state).
  { split; [unfold CtrDspFirm.sd_wf; apply (bool_decide_unpack _); vm_compute; exact I |].
    apply ctr_defaults_fit. apply Nat.ltb_lt. reflexivity. }
  split; [exact H | exact (proj1 (proj2 (ctr_hooks_preserve_wf example_cfg csnd_fail_env _ H)))].
Defined.

Lemma init_audio_backends_witness :
  (IS_SALAMANDER example_cfg = false /\ audio example_state = initial_audio) /\
  let a := audio (frontend_ctr_init example_cfg csnd_fail_env example_state) in
  ((audio_ctr_dsp a = audio_dsp_backend \/ audio_ctr_csnd a = audio_dsp_backend)
     <-> ndsp_init_result csnd_fail_env = 0) /\
  ((audio_ctr_dsp a = audio_csnd_backend \/ audio_ctr_csnd a = audio_csnd_backend)
     <-> csnd_init_result csnd_fail_env = 0).
Proof.
  split; [split; reflexivity |].
  apply init_audio_backends; reflexivity.
Defined.

Lemma init_csnd_failure_moves_dsp_witness :
  audio (frontend_ctr_init example_cfg csnd_fail_env example_state)
  = {| audio_ctr_dsp := audio_null_backend; audio_ctr_csnd := audio_dsp_backend |}.
Proof. apply init_csnd_failure_moves_dsp; [reflexivity | reflexivity | discriminate | reflexivity]. Defined.

Lemma deinit_reverses_init_witness :
  let st' := deinit_release csnd_fail_env
               (deinit_prelude example_cfg (frontend_ctr_init example_cfg csnd_fail_env example_state)) in
  frontend_ctr_deinit example_cfg csnd_fail_env
    (frontend_ctr_init example_cfg csnd_fail_env example_state) = HookDone st' /\
  service_exits (events st') = rev (service_inits (events st')).
Proof.
  intros st'. assert (H : frontend_ctr_deinit example_cfg csnd_fail_env
    (frontend_ctr_init example_cfg csnd_fail_env example_state) = HookDone st')
    by (vm_compute; reflexivity).
  split; [exact H |].
  exact (deinit_reverses_init example_cfg csnd_fail_env example_state st'
           eq_refl eq_refl eq_refl H).
Defined.

Lemma deinit_after_init_waits_witness :
  IS_SALAMANDER example_cfg = false /\
  ((exists st', frontend_ctr_deinit example_cfg csnd_fail_env
                  (frontend_ctr_init example_cfg csnd_fail_env example_state) = HookDone st')
     <-> wait_for_input (inputs csnd_fail_env) = WaitDone) /\
  (frontend_ctr_deinit example_cfg csnd_fail_env
     (frontend_ctr_init example_cfg csnd_fail_env example_state) = HookExit 0
     <-> wait_for_input (inputs csnd_fail_env) = WaitExit 0).
Proof. split; [reflexivity | apply deinit_after_init_waits; reflexivity]. Defined.

(** The spec's port directory [/app/]. *)
Lemma ctr_defaults_layout_witness :
  let d := ctr_defaults_of "/app/" in
  dir_core d = "/app/cores"%string /\ dir_core_info d = "/app/cores"%string /\
  dir_savestate d = "/app/cores/savestates"%string /\
  dir_sram d = "/app/cores/savefiles"%string /\
  dir_system d = "/app/cores/system"%string /\
  dir_playlist d = "/app/cores/playlists"%string /\
  dir_core_assets d = "/app/downloads"%string /\
  dir_assets d = "/app/media"%string /\ dir_remap d = "/app/remaps"%string /\
  path_config d = "/app/retroarch.cfg"%string.
Proof.
  apply (ctr_defaults_layout "/app/");
    [discriminate | reflexivity | unfold PATH_MAX_LENGTH; simpl String.length; lia].
Defined.

Lemma ctr_defaults_bounded_witness :
  let d := ctr_defaults_of "sdmc:/retroarch/" in
  Forall (fun p => String.length p < PATH_MAX_LENGTH)%nat
    [dir_port d; dir_core_assets d; dir_assets d; dir_core d; dir_core_info d;
     dir_savestate d; dir_sram d; dir_system d; dir_playlist d; dir_remap d; path_config d].
Proof. apply ctr_defaults_bounded. unfold PATH_MAX_LENGTH. simpl String.length. lia. Defined.

Lemma ctr_boot_finishes_witness :
  exists st',
    boot_star (frontend_ctx_ctr example_cfg csnd_fail_env) (fun s => s)
      (BootStart, example_state, [])
      (BootFinished, st', [HEnv; HInit; HDeinit; HShutdown]) /\
    exists pre, service_exits (events st') = pre ++ [SrvCfgu; SrvNdsp; SrvCsnd; SrvGfx].
Proof. apply ctr_boot_finishes; reflexivity. Defined.

(** The auto-start block hands the content named by [argv[1]] to the
    frontend unchanged when it fits the static buffer, and truncated to
    [PATH_MAX_LENGTH - 1] bytes otherwise. *)
Lemma ctr_argv_autostart_content a path w :
  a <> ""%string ->
  let '(p, w') := ctr_argv_autostart (Some a) path (Some w) in
  w' <> None /\ option_map content_path w' = Some (Some p) /\
  (String.length p < PATH_MAX_LENGTH)%nat /\
  ((String.length a < PATH_MAX_LENGTH)%nat -> p = a).
Proof.
  intros Ha. unfold ctr_argv_autostart.
  destruct (Nat.eqb_spec (String.length a) 0) as [H0 | H0];
    [destruct a; [congruence | discriminate] |].
  simpl. split; [discriminate | split; [reflexivity | split]].
  - apply strlcpy_length. unfold PATH_MAX_LENGTH. lia.
  - apply strlcpy_fits.
Qed.

End CtrFrontend.
