(* ===== verification/Displaylist.v ===== *)
(** * Displaylist: the displaylist interface of the menu

    [src/menu/menu_displaylist.h] declares the filter bits [PARSE_*]
    (lines 35-47), the list types [DISPLAYLIST_*] (lines 49-115, values 0
    to 63 in declaration order), the request record
    [menu_displaylist_info_t] (lines 117-134) and the prototypes of the
    dispatcher (lines 136-143). The list types are an inductive type with
    the header's constructors and their C values ([displaylist_type_to_Z]);
    the request is a record whose fixed-size character arrays are strings
    bounded by [PATH_MAX_LENGTH]. *)

From Stdlib Require Import ZArith String List Lia.
Import ListNotations.
From stdpp Require Import base countable.
From S2P Require Import Prelude FileList Paths.

Open Scope Z_scope.

Module Displaylist.

Import FileList Paths.

(** The [PARSE_*] filter bits (lines 35-47). *)
Definition PARSE_NONE : Z := Z.shiftl 1 0.
Definition PARSE_GROUP : Z := Z.shiftl 1 1.
Definition PARSE_ACTION : Z := Z.shiftl 1 2.
Definition PARSE_ONLY_UINT : Z := Z.shiftl 1 3.
Definition PARSE_ONLY_BOOL : Z := Z.shiftl 1 4.
Definition PARSE_ONLY_FLOAT : Z := Z.shiftl 1 5.
Definition PARSE_ONLY_BIND : Z := Z.shiftl 1 6.
Definition PARSE_ONLY_GROUP : Z := Z.shiftl 1 7.
Definition PARSE_ONLY_SUB_GROUP : Z := Z.shiftl 1 8.
Definition PARSE_SUB_GROUP : Z := Z.shiftl 1 9.

Definition parse_flags : list Z :=
  [PARSE_NONE; PARSE_GROUP; PARSE_ACTION; PARSE_ONLY_UINT; PARSE_ONLY_BOOL;
   PARSE_ONLY_FLOAT; PARSE_ONLY_BIND; PARSE_ONLY_GROUP; PARSE_ONLY_SUB_GROUP;
   PARSE_SUB_GROUP].

(** [COLLECTION_SIZE] (lines 31-33). *)
Definition COLLECTION_SIZE : Z := 99999.

(** The list types (lines 49-115). *)
Inductive displaylist_type :=
  | DISPLAYLIST_NONE
  | DISPLAYLIST_INFO
  | DISPLAYLIST_HELP
  | DISPLAYLIST_HELP_SCREEN_LIST
  | DISPLAYLIST_MAIN_MENU
  | DISPLAYLIST_GENERIC
  | DISPLAYLIST_SETTINGS
  | DISPLAYLIST_SETTINGS_ALL
  | DISPLAYLIST_HORIZONTAL
  | DISPLAYLIST_HORIZONTAL_CONTENT_ACTIONS
  | DISPLAYLIST_HISTORY
  | DISPLAYLIST_PLAYLIST_COLLECTION
  | DISPLAYLIST_DEFAULT
  | DISPLAYLIST_CORES
  | DISPLAYLIST_CORES_SUPPORTED
  | DISPLAYLIST_CORES_COLLECTION_SUPPORTED
  | DISPLAYLIST_CORES_UPDATER
  | DISPLAYLIST_CORES_DETECTED
  | DISPLAYLIST_CORE_OPTIONS
  | DISPLAYLIST_CORE_INFO
  | DISPLAYLIST_PERFCOUNTERS_CORE
  | DISPLAYLIST_PERFCOUNTERS_FRONTEND
  | DISPLAYLIST_SHADER_PASS
  | DISPLAYLIST_SHADER_PRESET
  | DISPLAYLIST_DATABASES
  | DISPLAYLIST_DATABASE_CURSORS
  | DISPLAYLIST_DATABASE_PLAYLISTS
  | DISPLAYLIST_DATABASE_PLAYLISTS_HORIZONTAL
  | DISPLAYLIST_DATABASE_QUERY
  | DISPLAYLIST_DATABASE_ENTRY
  | DISPLAYLIST_AUDIO_FILTERS
  | DISPLAYLIST_VIDEO_FILTERS
  | DISPLAYLIST_CHEAT_FILES
  | DISPLAYLIST_REMAP_FILES
  | DISPLAYLIST_RECORD_CONFIG_FILES
  | DISPLAYLIST_CONFIG_FILES
  | DISPLAYLIST_CONTENT_HISTORY
  | DISPLAYLIST_IMAGES
  | DISPLAYLIST_FONTS
  | DISPLAYLIST_OVERLAYS
  | DISPLAYLIST_SHADER_PARAMETERS
  | DISPLAYLIST_SHADER_PARAMETERS_PRESET
  | DISPLAYLIST_SYSTEM_INFO
  | DISPLAYLIST_DEBUG_INFO
  | DISPLAYLIST_USER_BINDS_LIST
  | DISPLAYLIST_ACCOUNTS_LIST
  | DISPLAYLIST_INPUT_SETTINGS_LIST
  | DISPLAYLIST_INPUT_HOTKEY_BINDS_LIST
  | DISPLAYLIST_PLAYLIST_SETTINGS_LIST
  | DISPLAYLIST_ACCOUNTS_CHEEVOS_LIST
  | DISPLAYLIST_LOAD_CONTENT_LIST
  | DISPLAYLIST_INFORMATION_LIST
  | DISPLAYLIST_CONTENT_SETTINGS
  | DISPLAYLIST_OPTIONS
  | DISPLAYLIST_OPTIONS_CHEATS
  | DISPLAYLIST_OPTIONS_REMAPPINGS
  | DISPLAYLIST_OPTIONS_MANAGEMENT
  | DISPLAYLIST_OPTIONS_DISK
  | DISPLAYLIST_OPTIONS_SHADERS
  | DISPLAYLIST_ADD_CONTENT_LIST
  | DISPLAYLIST_SCAN_DIRECTORY_LIST
  | DISPLAYLIST_ARCHIVE_ACTION
  | DISPLAYLIST_ARCHIVE_ACTION_DETECT_CORE
  | DISPLAYLIST_CORE_CONTENT.

(** The value of each list type in the C enum. *)
Definition displaylist_type_to_Z (t : displaylist_type) : Z :=
  match t with
  | DISPLAYLIST_NONE => 0
  | DISPLAYLIST_INFO => 1
  | DISPLAYLIST_HELP => 2
  | DISPLAYLIST_HELP_SCREEN_LIST => 3
  | DISPLAYLIST_MAIN_MENU => 4
  | DISPLAYLIST_GENERIC => 5
  | DISPLAYLIST_SETTINGS => 6
  | DISPLAYLIST_SETTINGS_ALL => 7
  | DISPLAYLIST_HORIZONTAL => 8
  | DISPLAYLIST_HORIZONTAL_CONTENT_ACTIONS => 9
  | DISPLAYLIST_HISTORY => 10
  | DISPLAYLIST_PLAYLIST_COLLECTION => 11
  | DISPLAYLIST_DEFAULT => 12
  | DISPLAYLIST_CORES => 13
  | DISPLAYLIST_CORES_SUPPORTED => 14
  | DISPLAYLIST_CORES_COLLECTION_SUPPORTED => 15
  | DISPLAYLIST_CORES_UPDATER => 16
  | DISPLAYLIST_CORES_DETECTED => 17
  | DISPLAYLIST_CORE_OPTIONS => 18
  | DISPLAYLIST_CORE_INFO => 19
  | DISPLAYLIST_PERFCOUNTERS_CORE => 20
  | DISPLAYLIST_PERFCOUNTERS_FRONTEND => 21
  | DISPLAYLIST_SHADER_PASS => 22
  | DISPLAYLIST_SHADER_PRESET => 23
  | DISPLAYLIST_DATABASES => 24
  | DISPLAYLIST_DATABASE_CURSORS => 25
  | DISPLAYLIST_DATABASE_PLAYLISTS => 26
  | DISPLAYLIST_DATABASE_PLAYLISTS_HORIZONTAL => 27
  | DISPLAYLIST_DATABASE_QUERY => 28
  | DISPLAYLIST_DATABASE_ENTRY => 29
  | DISPLAYLIST_AUDIO_FILTERS => 30
  | DISPLAYLIST_VIDEO_FILTERS => 31
  | DISPLAYLIST_CHEAT_FILES => 32
  | DISPLAYLIST_REMAP_FILES => 33
  | DISPLAYLIST_RECORD_CONFIG_FILES => 34
  | DISPLAYLIST_CONFIG_FILES => 35
  | DISPLAYLIST_CONTENT_HISTORY => 36
  | DISPLAYLIST_IMAGES => 37
  | DISPLAYLIST_FONTS => 38
  | DISPLAYLIST_OVERLAYS => 39
  | DISPLAYLIST_SHADER_PARAMETERS => 40
  | DISPLAYLIST_SHADER_PARAMETERS_PRESET => 41
  | DISPLAYLIST_SYSTEM_INFO => 42
  | DISPLAYLIST_DEBUG_INFO => 43
  | DISPLAYLIST_USER_BINDS_LIST => 44
  | DISPLAYLIST_ACCOUNTS_LIST => 45
  | DISPLAYLIST_INPUT_SETTINGS_LIST => 46
  | DISPLAYLIST_INPUT_HOTKEY_BINDS_LIST => 47
  | DISPLAYLIST_PLAYLIST_SETTINGS_LIST => 48
  | DISPLAYLIST_ACCOUNTS_CHEEVOS_LIST => 49
  | DISPLAYLIST_LOAD_CONTENT_LIST => 50
  | DISPLAYLIST_INFORMATION_LIST => 51
  | DISPLAYLIST_CONTENT_SETTINGS => 52
  | DISPLAYLIST_OPTIONS => 53
  | DISPLAYLIST_OPTIONS_CHEATS => 54
  | DISPLAYLIST_OPTIONS_REMAPPINGS => 55
  | DISPLAYLIST_OPTIONS_MANAGEMENT => 56
  | DISPLAYLIST_OPTIONS_DISK => 57
  | DISPLAYLIST_OPTIONS_SHADERS => 58
  | DISPLAYLIST_ADD_CONTENT_LIST => 59
  | DISPLAYLIST_SCAN_DIRECTORY_LIST => 60
  | DISPLAYLIST_ARCHIVE_ACTION => 61
  | DISPLAYLIST_ARCHIVE_ACTION_DETECT_CORE => 62
  | DISPLAYLIST_CORE_CONTENT => 63
  end.

Definition all_displaylist_types : list displaylist_type :=
  [DISPLAYLIST_NONE; DISPLAYLIST_INFO; DISPLAYLIST_HELP; DISPLAYLIST_HELP_SCREEN_LIST; DISPLAYLIST_MAIN_MENU; DISPLAYLIST_GENERIC; DISPLAYLIST_SETTINGS; DISPLAYLIST_SETTINGS_ALL; DISPLAYLIST_HORIZONTAL; DISPLAYLIST_HORIZONTAL_CONTENT_ACTIONS; DISPLAYLIST_HISTORY; DISPLAYLIST_PLAYLIST_COLLECTION; DISPLAYLIST_DEFAULT; DISPLAYLIST_CORES; DISPLAYLIST_CORES_SUPPORTED; DISPLAYLIST_CORES_COLLECTION_SUPPORTED; DISPLAYLIST_CORES_UPDATER; DISPLAYLIST_CORES_DETECTED; DISPLAYLIST_CORE_OPTIONS; DISPLAYLIST_CORE_INFO; DISPLAYLIST_PERFCOUNTERS_CORE; DISPLAYLIST_PERFCOUNTERS_FRONTEND; DISPLAYLIST_SHADER_PASS; DISPLAYLIST_SHADER_PRESET; DISPLAYLIST_DATABASES; DISPLAYLIST_DATABASE_CURSORS; DISPLAYLIST_DATABASE_PLAYLISTS; DISPLAYLIST_DATABASE_PLAYLISTS_HORIZONTAL; DISPLAYLIST_DATABASE_QUERY; DISPLAYLIST_DATABASE_ENTRY; DISPLAYLIST_AUDIO_FILTERS; DISPLAYLIST_VIDEO_FILTERS; DISPLAYLIST_CHEAT_FILES; DISPLAYLIST_REMAP_FILES; DISPLAYLIST_RECORD_CONFIG_FILES; DISPLAYLIST_CONFIG_FILES; DISPLAYLIST_CONTENT_HISTORY; DISPLAYLIST_IMAGES; DISPLAYLIST_FONTS; DISPLAYLIST_OVERLAYS; DISPLAYLIST_SHADER_PARAMETERS; DISPLAYLIST_SHADER_PARAMETERS_PRESET; DISPLAYLIST_SYSTEM_INFO; DISPLAYLIST_DEBUG_INFO; DISPLAYLIST_USER_BINDS_LIST; DISPLAYLIST_ACCOUNTS_LIST; DISPLAYLIST_INPUT_SETTINGS_LIST; DISPLAYLIST_INPUT_HOTKEY_BINDS_LIST; DISPLAYLIST_PLAYLIST_SETTINGS_LIST; DISPLAYLIST_ACCOUNTS_CHEEVOS_LIST; DISPLAYLIST_LOAD_CONTENT_LIST; DISPLAYLIST_INFORMATION_LIST; DISPLAYLIST_CONTENT_SETTINGS; DISPLAYLIST_OPTIONS; DISPLAYLIST_OPTIONS_CHEATS; DISPLAYLIST_OPTIONS_REMAPPINGS; DISPLAYLIST_OPTIONS_MANAGEMENT; DISPLAYLIST_OPTIONS_DISK; DISPLAYLIST_OPTIONS_SHADERS; DISPLAYLIST_ADD_CONTENT_LIST; DISPLAYLIST_SCAN_DIRECTORY_LIST; DISPLAYLIST_ARCHIVE_ACTION; DISPLAYLIST_ARCHIVE_ACTION_DETECT_CORE; DISPLAYLIST_CORE_CONTENT].

(** The list type of an [unsigned] value, if it names one. *)
Definition displaylist_type_of_Z (n : Z) : option displaylist_type :=
  List.find (fun t => displaylist_type_to_Z t =? n) all_displaylist_types.

(** [menu_displaylist_info_t] (lines 117-134). The [rarch_setting_t]
    pointer is kept as an optional setting name. *)
Record menu_displaylist_info_t := {
  need_sort : bool;
  need_refresh : bool;
  need_push : bool;
  list : option file_list;
  menu_list : option file_list;
  path : string;
  path_b : string;
  path_c : string;
  label : string;
  exts : string;
  type : Z;
  type_default : Z;
  directory_ptr : Z;
  flags : Z;
  setting : option string
}.

(** The character arrays of a request hold their NUL: each string is
    shorter than [PATH_MAX_LENGTH]. *)
Definition info_wf (info : menu_displaylist_info_t) : Prop :=
  Forall (fun s => (String.length s < PATH_MAX_LENGTH)%nat)
    [path info; path_b info; path_c info; label info; exts info].

(** [info->list = l]: the request with its target list set. *)
Definition set_list (info : menu_displaylist_info_t) (l : file_list) : menu_displaylist_info_t :=
  {| need_sort := need_sort info; need_refresh := need_refresh info;
     need_push := need_push info; list := Some l; menu_list := menu_list info;
     path := path info; path_b := path_b info; path_c := path_c info;
     label := label info; exts := exts info; type := type info;
     type_default := type_default info; directory_ptr := directory_ptr info;
     flags := flags info; setting := setting info |}.

(** A zeroed request ([memset(&info, 0, sizeof(info))]) with the given
    flags, path and target list. *)
Definition request (sort refresh push : bool) (p : string) (target : option file_list)
    : menu_displaylist_info_t :=
  {| need_sort := sort; need_refresh := refresh; need_push := push;
     list := target; menu_list := None; path := p; path_b := ""; path_c := "";
     label := ""; exts := ""; type := 0; type_default := 0; directory_ptr := 0;
     flags := 0; setting := None |}.

(** ** Lemmas *)

Lemma all_displaylist_types_complete t : In t all_displaylist_types.
Proof. destruct t; cbn; tauto. Qed.

Lemma displaylist_values : map displaylist_type_to_Z all_displaylist_types = map Z.of_nat (seq 0 64).
Proof. reflexivity. Qed.

Lemma displaylist_type_of_to_Z t : displaylist_type_of_Z (displaylist_type_to_Z t) = Some t.
Proof. destruct t; reflexivity. Qed.

#[export] Instance displaylist_type_eq_dec : EqDecision displaylist_type.
Proof. intros a b. unfold Decision. decide equality. Defined.

#[export] Instance displaylist_type_countable : Countable displaylist_type.
Proof.
  apply (inj_countable' (fun t => Z.to_nat (displaylist_type_to_Z t))
           (fun n => match displaylist_type_of_Z (Z.of_nat n) with
                     | Some t => t | None => DISPLAYLIST_NONE end)).
  intros t. destruct t; reflexivity.
Defined.

(** ** Properties *)

(** Every list type has a C value in [[0, 64)] that maps
    back to it, and every [unsigned] value that names a list type is that
    type's value, and every value in [[0, 64)] names one: the header's
    enum numbers its 64 list types [0..63], one value each. *)
Theorem displaylist_type_roundtrip :
  (forall t, 0 <= displaylist_type_to_Z t < 64 /\
             displaylist_type_of_Z (displaylist_type_to_Z t) = Some t) /\
  (forall n t, displaylist_type_of_Z n = Some t -> displaylist_type_to_Z t = n) /\
  (forall n, 0 <= n < 64 -> exists t, displaylist_type_of_Z n = Some t).
Proof.
  split_and!.
  - intros t. split; [destruct t; cbn; lia | apply displaylist_type_of_to_Z].
  - intros n t H. apply find_some in H as [_ H]. now apply Z.eqb_eq.
  - intros n Hn.
    assert (Hin : In n (map displaylist_type_to_Z all_displaylist_types)).
    { rewrite displaylist_values. apply in_map_iff. exists (Z.to_nat n).
      split; [lia | apply in_seq; lia]. }
    apply in_map_iff in Hin as (t & Ht & Htin).
    unfold displaylist_type_of_Z.
    destruct (find _ _) as [t'|] eqn:Hf; [eauto |].
    exfalso. apply (find_none _ _ Hf) in Htin. rewrite Ht, Z.eqb_refl in Htin. discriminate.
Qed.

(** The [PARSE_*] filter values are ten distinct single
    bits, pairwise disjoint, so any set of them is a bitset that keeps
    each one apart. *)
Lemma parse_flags_disjoint :
  NoDup parse_flags /\
  Forall (fun f => exists k, 0 <= k < 10 /\ f = 2 ^ k) parse_flags /\
  ForallOrdPairs (fun a b => Z.land a b = 0) parse_flags.
Proof.
  split_and!.
  - apply NoDup_ListNoDup. vm_compute. repeat constructor; cbn; intuition discriminate.
  - unfold parse_flags.
    repeat (apply List.Forall_cons;
      [match goal with |- exists k, _ /\ ?f = _ =>
         exists (Z.log2 f); split; [vm_compute; split; congruence | reflexivity] end |]).
    apply List.Forall_nil.
  - unfold parse_flags. repeat constructor.
Qed.

End Displaylist.
