(* ===== verification/EntrySort.v ===== *)
(** * EntrySort: the sort applied to a built list

    The displaylist dispatcher sorts a built list when the request has
    [need_sort]. The sorting code ([file_list_sort_on_alt] and its
    comparator, in [libretro-common]) is not under [src/]; it is modelled
    from the spec: a stable sort, case-insensitive on the display label,
    directories before files when both are present.

    The sort is an insertion sort over a key in [list nat], compared
    lexicographically; it is written once for any key (Section [KeySort])
    and instantiated with the entries' key ([sort_key]: rank 0 for a
    directory, 1 otherwise, then the lowercased label). *)

From Stdlib Require Import String Ascii List Arith ZArith Lia Sorted Permutation.
Import ListNotations.
From S2P Require Import Prelude FileList.

Open Scope nat_scope.
Open Scope bool_scope.

Module EntrySort.

Import FileList.

(** Lexicographic order on [list nat]. *)
Fixpoint lex_leb (a b : list nat) : bool :=
  match a, b with
  | [], _ => true
  | _ :: _, [] => false
  | x :: a', y :: b' => Nat.ltb x y || (Nat.eqb x y && lex_leb a' b')
  end.

(** Equality of keys, as a test. *)
Definition key_eqb (a b : list nat) : bool := if list_eq_dec Nat.eq_dec a b then true else false.

Section KeySort.

Context {A : Type} (key : A -> list nat).

Definition key_leb (x y : A) : bool := lex_leb (key x) (key y).

(** Insert [x] before the first element it is not above: on equal keys
    [x] goes first, which keeps the sort stable. *)
Fixpoint insert_by (x : A) (l : list A) : list A :=
  match l with
  | [] => [x]
  | y :: l' => if key_leb x y then x :: l else y :: insert_by x l'
  end.

Definition sort_by (l : list A) : list A := fold_right insert_by [] l.

(** The entries whose key is [k], in order. *)
Definition with_key (k : list nat) (l : list A) : list A :=
  filter (fun x => key_eqb (key x) k) l.

End KeySort.

(** [tolower] of [strcasecmp]. *)
Definition to_lower (c : ascii) : ascii :=
  let n := nat_of_ascii c in
  if (65 <=? n) && (n <=? 90) then ascii_of_nat (n + 32) else c.

Definition entry_rank (e : menu_entry) : nat :=
  match entry_type e with MENU_FILE_DIRECTORY => 0 | _ => 1 end.

(** The key the sort compares: directories first, then the label without
    case. *)
Definition sort_key (e : menu_entry) : list nat :=
  entry_rank e :: map (fun c => nat_of_ascii (to_lower c)) (list_ascii_of_string (display_label e)).

(** The sort of a built list. *)
Definition sort_entries (l : file_list) : file_list := sort_by sort_key l.

(** A list of entries with the given labels and types. *)
Definition mk_entry (lb : string) (t : menu_file_type) : menu_entry :=
  {| entry_path := lb; entry_label := lb; entry_type := t;
     entry_directory_ptr := 0%Z; entry_idx := 0%Z |}.

Definition entries_of (xs : list (string * menu_file_type)) : file_list :=
  map (fun '(lb, t) => mk_entry lb t) xs.

(** ** Lemmas on the lexicographic order *)

Lemma lex_leb_refl a : lex_leb a a = true.
Proof. induction a; simpl; rewrite ?Nat.eqb_refl, ?Nat.ltb_irrefl; auto. Qed.

Lemma lex_leb_total a b : lex_leb a b = false -> lex_leb b a = true.
Proof.
  revert b. induction a as [|x a IH]; intros [|y b]; simpl; try easy.
  rewrite !Bool.orb_false_iff, !Bool.andb_false_iff, Nat.ltb_ge.
  intros [H1 [H2 | H2]]; apply Bool.orb_true_iff.
  - left. apply Nat.eqb_neq in H2. apply Nat.ltb_lt. lia.
  - destruct (Nat.eq_dec x y) as [-> | Hne].
    + right. rewrite Nat.eqb_refl. simpl. now apply IH.
    + left. apply Nat.ltb_lt. lia.
Qed.

Lemma lex_leb_trans a b c : lex_leb a b = true -> lex_leb b c = true -> lex_leb a c = true.
Proof.
  revert b c. induction a as [|x a IH]; intros [|y b] [|z c]; simpl; try easy.
  rewrite !Bool.orb_true_iff, !Bool.andb_true_iff, !Nat.ltb_lt, !Nat.eqb_eq.
  intros [H1 | [-> H1]] [H2 | [-> H2]]; try (left; lia). right. eauto.
Qed.

Lemma lex_leb_antisym a b : lex_leb a b = true -> lex_leb b a = true -> a = b.
Proof.
  revert b. induction a as [|x a IH]; intros [|y b]; simpl; try easy.
  rewrite !Bool.orb_true_iff, !Bool.andb_true_iff, !Nat.ltb_lt, !Nat.eqb_eq.
  intros [H1 | [-> H1]] [H2 | [E2 H2]]; try lia. f_equal. auto.
Qed.

#[export] Hint Resolve lex_leb_refl lex_leb_total lex_leb_trans : ctr.

(** ** Lemmas on the sort, for any key *)

Section KeySortLemmas.

Context {A : Type} (key : A -> list nat).

Let le (x y : A) : Prop := key_leb key x y = true.

Lemma insert_by_perm x l : Permutation (insert_by key x l) (x :: l).
Proof.
  induction l as [|y l IH]; simpl; [reflexivity |].
  destruct (key_leb key x y); [reflexivity |].
  rewrite IH. apply perm_swap.
Qed.

Lemma sort_by_perm l : Permutation (sort_by key l) l.
Proof.
  induction l as [|x l IH]; simpl; [reflexivity |].
  rewrite insert_by_perm. now apply perm_skip.
Qed.

Lemma insert_by_sorted x l : Sorted le l -> Sorted le (insert_by key x l).
Proof.
  induction 1 as [|y l Hs IH Hhd]; simpl; [auto |].
  unfold le, key_leb in *. destruct (lex_leb (key x) (key y)) eqn:Exy.
  - constructor; [constructor; assumption | constructor; exact Exy].
  - apply lex_leb_total in Exy. constructor; [exact IH |].
    destruct l as [|z l]; simpl; unfold key_leb; [constructor; exact Exy |].
    inversion Hhd; subst.
    destruct (lex_leb (key x) (key z)); constructor; assumption.
Qed.

Lemma sort_by_sorted l : Sorted le (sort_by key l).
Proof. induction l; simpl; auto using insert_by_sorted. Qed.

(** An element is inserted in front of a list it is below. *)
Lemma insert_by_head x l :
  Forall (fun y => key_leb key x y = true) l -> insert_by key x l = x :: l.
Proof. destruct 1; simpl; [reflexivity | now rewrite H]. Qed.

Lemma sorted_Forall_head x l : Sorted le (x :: l) -> Forall (le x) l.
Proof.
  intros Hs. apply Sorted_StronglySorted in Hs; [now inversion Hs |].
  intros a b c. unfold le, key_leb. apply lex_leb_trans.
Qed.

Lemma sort_by_sorted_id l : Sorted le l -> sort_by key l = l.
Proof.
  induction l as [|x l IH]; intros Hs; simpl; [reflexivity |].
  rewrite IH by (now inversion Hs). apply insert_by_head, sorted_Forall_head, Hs.
Qed.

(** The elements [insert_by] passes over are strictly below [x]: none has
    [x]'s key, so inserting [x] keeps each key's entries in order. *)
Lemma with_key_insert k x l :
  with_key key k (insert_by key x l)
  = if key_eqb (key x) k then x :: with_key key k l else with_key key k l.
Proof.
  unfold with_key, key_eqb. induction l as [|y l IH]; simpl; [reflexivity |].
  destruct (key_leb key x y) eqn:Exy; simpl; [reflexivity |].
  rewrite IH. unfold key_leb in Exy.
  destruct (list_eq_dec Nat.eq_dec (key y) k) as [Hy | Hy],
    (list_eq_dec Nat.eq_dec (key x) k) as [Hx | Hx]; try reflexivity.
  rewrite <- Hx in Hy. rewrite Hy, lex_leb_refl in Exy. discriminate.
Qed.

Lemma with_key_sort k l : with_key key k (sort_by key l) = with_key key k l.
Proof.
  induction l as [|x l IH]; simpl; [reflexivity |].
  rewrite with_key_insert, IH. unfold with_key. simpl.
  destruct (key_eqb (key x) k); reflexivity.
Qed.

Lemma strongly_sorted_nth (R : A -> A -> Prop) l i j a b :
  StronglySorted R l -> (i < j)%nat -> nth_error l i = Some a -> nth_error l j = Some b -> R a b.
Proof.
  intros Hs. revert i j. induction Hs as [|x l Hs IH Hx]; intros [|i] [|j] Hij Ha Hb;
    simpl in *; try discriminate; try lia.
  - injection Ha as <-. eapply Forall_forall; [exact Hx |]. eapply nth_error_In, Hb.
  - eapply IH; [| exact Ha | exact Hb]. lia.
Qed.

Lemma sort_by_strongly_sorted l : StronglySorted le (sort_by key l).
Proof.
  apply Sorted_StronglySorted; [| apply sort_by_sorted].
  intros a b c. unfold le, key_leb. apply lex_leb_trans.
Qed.

End KeySortLemmas.

(** A directory key is below every file key, and only directory keys are
    below a directory key. *)
Lemma sort_key_dir_below a b :
  lex_leb (sort_key a) (sort_key b) = true ->
  entry_type b = MENU_FILE_DIRECTORY -> entry_type a = MENU_FILE_DIRECTORY.
Proof.
  unfold sort_key, entry_rank. intros H Hb. rewrite Hb in H. simpl in H.
  destruct (entry_type a); try reflexivity; discriminate.
Qed.

(** ** Examples *)

Local Open Scope string_scope.

(** Two directories, two cores and a plain file whose labels differ only
    in case. *)
Definition mixed_list : file_list :=
  entries_of [("zCore", MENU_FILE_CORE); ("saves", MENU_FILE_DIRECTORY);
              ("aCore", MENU_FILE_CORE); ("Roms", MENU_FILE_DIRECTORY);
              ("ACORE", MENU_FILE_PLAIN)].

Local Close Scope string_scope.

End EntrySort.
