(* ===== verification/Settings.v ===== *)
(** * Settings: the settings-parser strategy

    [menu_displaylist_parse_settings(data, info, info_label, parse_type,
    add_empty_entry)] is declared in [src/menu/menu_displaylist.h] (lines
    140-141); its body and the settings schema ([menu_setting.c]) are not
    under [src/], so the strategy is modelled from the spec (section 4.3).

    The schema has the three levels of RetroArch's settings lists: groups
    ([ST_GROUP]) hold leaves and subgroups ([ST_SUB_GROUP]), subgroups
    hold leaves; a leaf is one of the types [ST_ACTION], [ST_BOOL],
    [ST_UINT], [ST_FLOAT], [ST_BIND] and has a visibility flag. The walk
    is in declaration order. A leaf is shown when it is visible and its
    capability bit is in the filter (or the filter has [PARSE_NONE]); a
    group or subgroup header is shown when its own capability bits are in
    the filter or it has a shown descendant, so a group that the filter
    empties is elided. *)

From Stdlib Require Import ZArith String List Bool Lia.
Import ListNotations.
From S2P Require Import Prelude FileList Displaylist.

Open Scope Z_scope.

Module Settings.

Import FileList.

Inductive setting_type := ST_ACTION | ST_BOOL | ST_UINT | ST_FLOAT | ST_BIND.

Record setting_leaf := {
  leaf_name : string;
  leaf_type : setting_type;
  leaf_visible : bool
}.

Record sub_group := {
  sub_name : string;
  sub_items : list setting_leaf
}.

Inductive group_item :=
  | GLeaf (l : setting_leaf)
  | GSub (sg : sub_group).

Record setting_group := {
  group_name : string;
  group_items : list group_item
}.

Definition schema : Type := list setting_group.

(** The filter bit that selects a leaf type. *)
Definition flag_of_type (t : setting_type) : Z :=
  match t with
  | ST_ACTION => Displaylist.PARSE_ACTION
  | ST_BOOL => Displaylist.PARSE_ONLY_BOOL
  | ST_UINT => Displaylist.PARSE_ONLY_UINT
  | ST_FLOAT => Displaylist.PARSE_ONLY_FLOAT
  | ST_BIND => Displaylist.PARSE_ONLY_BIND
  end.

Definition GROUP_CAPS : Z := Z.lor Displaylist.PARSE_GROUP Displaylist.PARSE_ONLY_GROUP.
Definition SUB_GROUP_CAPS : Z := Z.lor Displaylist.PARSE_SUB_GROUP Displaylist.PARSE_ONLY_SUB_GROUP.

Definition has_flag (flags f : Z) : bool := negb (Z.land flags f =? 0).

Definition leaf_shown (flags : Z) (l : setting_leaf) : bool :=
  leaf_visible l && (has_flag flags Displaylist.PARSE_NONE || has_flag flags (flag_of_type (leaf_type l))).

Definition leaf_entry (l : setting_leaf) : menu_entry :=
  {| entry_path := leaf_name l; entry_label := leaf_name l;
     entry_type := match leaf_type l with ST_ACTION => MENU_SETTING_ACTION | _ => MENU_SETTING_ITEM end;
     entry_directory_ptr := 0; entry_idx := 0 |}.

Definition header_entry (name : string) (t : menu_file_type) : menu_entry :=
  {| entry_path := name; entry_label := name; entry_type := t;
     entry_directory_ptr := 0; entry_idx := 0 |}.

Definition is_nil {A} (l : list A) : bool := match l with [] => true | _ => false end.

Definition parse_leaf (flags : Z) (l : setting_leaf) : file_list :=
  if leaf_shown flags l then [leaf_entry l] else [].

(** A header followed by its shown contents, or nothing when the header
    is not selected and nothing below it is shown. *)
Definition with_header (flags caps : Z) (hd : menu_entry) (body : file_list) : file_list :=
  if has_flag flags caps || negb (is_nil body) then hd :: body else [].

Definition parse_sub_group (flags : Z) (sg : sub_group) : file_list :=
  with_header flags SUB_GROUP_CAPS (header_entry (sub_name sg) MENU_SETTING_SUBGROUP)
    (flat_map (parse_leaf flags) (sub_items sg)).

Definition parse_item (flags : Z) (it : group_item) : file_list :=
  match it with
  | GLeaf l => parse_leaf flags l
  | GSub sg => parse_sub_group flags sg
  end.

Definition parse_group (flags : Z) (g : setting_group) : file_list :=
  with_header flags GROUP_CAPS (header_entry (group_name g) MENU_SETTING_GROUP)
    (flat_map (parse_item flags) (group_items g)).

(** The walk on a list: the groups named [info_label] (all groups when
    it is empty), appended to the list; with [add_empty_entry], a list
    left without entries gets the placeholder. *)
Definition selected_groups (info_label : string) (sch : schema) : schema :=
  filter (fun g => String.eqb info_label ""%string || String.eqb (group_name g) info_label) sch.

Definition parse_settings_list (sch : schema) (l : file_list)
    (info_label : string) (parse_type : Z) (add_empty_entry : bool) : file_list :=
  let out := flat_map (parse_group parse_type) (selected_groups info_label sch) in
  if add_empty_entry && is_nil out
  then l ++ [header_entry "No settings found."%string MENU_INFO_MESSAGE]
  else l ++ out.

(** [menu_displaylist_parse_settings(data, info, info_label, parse_type,
    add_empty_entry)]: the walk appends to [info->list]; a [NULL] list is
    rejected with [-1]. *)
Definition menu_displaylist_parse_settings (sch : schema) (info : Displaylist.menu_displaylist_info_t)
    (info_label : string) (parse_type : Z) (add_empty_entry : bool)
    : Z * Displaylist.menu_displaylist_info_t :=
  match Displaylist.list info with
  | None => (-1, info)
  | Some l => (0, Displaylist.set_list info (parse_settings_list sch l info_label parse_type add_empty_entry))
  end.

(** The reference the walk is compared with: the leaves of the schema in
    declaration order. *)
Definition item_leaves (it : group_item) : list setting_leaf :=
  match it with GLeaf l => [l] | GSub sg => sub_items sg end.

Definition group_leaves (g : setting_group) : list setting_leaf :=
  flat_map item_leaves (group_items g).

(** The entries of a list that are leaves, not headers. *)
Definition is_leaf_entry (e : menu_entry) : bool :=
  match entry_type e with
  | MENU_SETTING_ITEM | MENU_SETTING_ACTION => true
  | _ => false
  end.

(** ** Lemmas *)

Lemma filter_flat_map {A B} (p : B -> bool) (f : A -> list B) l :
  filter p (flat_map f l) = flat_map (fun x => filter p (f x)) l.
Proof. induction l as [|x l IH]; simpl; [reflexivity |]. now rewrite filter_app, IH. Qed.

Lemma flat_map_ext_eq {A B} (f g : A -> list B) l :
  (forall x, f x = g x) -> flat_map f l = flat_map g l.
Proof. intros H. induction l; simpl; congruence. Qed.

Lemma flat_map_flat_map {A B C} (f : B -> list C) (g : A -> list B) l :
  flat_map f (flat_map g l) = flat_map (fun x => flat_map f (g x)) l.
Proof. induction l as [|x l IH]; simpl; [reflexivity |]. now rewrite flat_map_app, IH. Qed.

Lemma filter_as_flat_map {A} (p : A -> bool) l :
  filter p l = flat_map (fun x => if p x then [x] else []) l.
Proof. induction l as [|x l IH]; simpl; [reflexivity |]. destruct (p x); simpl; congruence. Qed.

Lemma leaves_with_header flags caps name t body :
  is_leaf_entry (header_entry name t) = false ->
  filter is_leaf_entry (with_header flags caps (header_entry name t) body)
  = filter is_leaf_entry body.
Proof.
  intros Hh. unfold with_header.
  destruct (has_flag flags caps), body as [|e body]; simpl; rewrite ?Hh; reflexivity.
Qed.

Lemma leaves_parse_leaf flags l :
  filter is_leaf_entry (parse_leaf flags l) = parse_leaf flags l.
Proof.
  unfold parse_leaf. destruct (leaf_shown flags l); [| reflexivity].
  unfold leaf_entry. simpl. destruct (leaf_type l); reflexivity.
Qed.

Lemma leaves_parse_item flags it :
  filter is_leaf_entry (parse_item flags it) = flat_map (parse_leaf flags) (item_leaves it).
Proof.
  destruct it as [l | sg]; simpl.
  - rewrite leaves_parse_leaf. simpl. now rewrite app_nil_r.
  - unfold parse_sub_group. rewrite leaves_with_header by reflexivity.
    rewrite filter_flat_map. apply flat_map_ext_eq, leaves_parse_leaf.
Qed.

Lemma leaves_parse_group flags g :
  filter is_leaf_entry (parse_group flags g) = flat_map (parse_leaf flags) (group_leaves g).
Proof.
  unfold parse_group, group_leaves. rewrite leaves_with_header by reflexivity.
  rewrite filter_flat_map, flat_map_flat_map. apply flat_map_ext_eq, leaves_parse_item.
Qed.

Lemma flat_map_nil {A B} (f : A -> list B) l :
  (forall x, In x l -> f x = []) -> flat_map f l = [].
Proof. induction l as [|x l IH]; simpl; intros H; [reflexivity |]. rewrite H, IH; auto. Qed.

Lemma flat_map_nil_inv {A B} (f : A -> list B) l x :
  flat_map f l = [] -> In x l -> f x = [].
Proof.
  induction l as [|y l IH]; simpl; [tauto |].
  intros H [-> | Hin]; apply app_eq_nil in H as [H1 H2]; auto.
Qed.

Lemma with_header_nil flags caps hd body :
  has_flag flags caps = false -> with_header flags caps hd body = [] <-> body = [].
Proof. intros Hc. unfold with_header. rewrite Hc. destruct body; simpl; split; congruence. Qed.

Lemma has_flag_lor flags1 flags2 f :
  has_flag (Z.lor flags1 flags2) f = has_flag flags1 f || has_flag flags2 f.
Proof.
  unfold has_flag. rewrite Z.land_lor_distr_l.
  destruct (Z.eqb_spec (Z.land flags1 f) 0) as [E1 | E1],
    (Z.eqb_spec (Z.land flags2 f) 0) as [E2 | E2]; rewrite ?E1, ?E2; simpl.
  - reflexivity.
  - rewrite Z.lor_0_l. now apply Z.eqb_neq in E2 as ->.
  - rewrite Z.lor_0_r. now apply Z.eqb_neq in E1 as ->.
  - destruct (Z.eqb_spec (Z.lor (Z.land flags1 f) (Z.land flags2 f)) 0) as [E|]; [| reflexivity].
    apply Z.lor_eq_0_iff in E. tauto.
Qed.

Lemma parse_leaf_flat_map flags ls :
  flat_map (parse_leaf flags) ls = map leaf_entry (filter (leaf_shown flags) ls).
Proof.
  induction ls as [|l ls IH]; simpl; [reflexivity |].
  rewrite IH. unfold parse_leaf. destruct (leaf_shown flags l); reflexivity.
Qed.

(** The leaf entries a walk emits are the shown leaves, in declaration
    order. *)
Lemma parse_groups_leaves flags gs :
  filter is_leaf_entry (flat_map (parse_group flags) gs)
  = map leaf_entry (filter (leaf_shown flags) (flat_map group_leaves gs)).
Proof.
  rewrite filter_flat_map, (flat_map_ext_eq _ _ _ (leaves_parse_group flags)).
  rewrite <- flat_map_flat_map. apply parse_leaf_flat_map.
Qed.

Lemma flat_map_nil_iff {A B} (f : A -> list B) l :
  flat_map f l = [] <-> Forall (fun x => f x = []) l.
Proof.
  induction l as [|x l IH]; simpl; [split; auto |]. split.
  - intros H. apply app_eq_nil in H as [H1 H2]. constructor; [exact H1 | now apply IH].
  - intros H. inversion H as [|? ? H1 H2]; subst. rewrite H1. now apply IH.
Qed.

Lemma Forall_flat_map_iff {A B} (P : B -> Prop) (f : A -> list B) l :
  Forall P (flat_map f l) <-> Forall (fun x => Forall P (f x)) l.
Proof.
  induction l as [|x l IH]; simpl; [split; auto |].
  rewrite Forall_app, IH, Forall_cons_iff. reflexivity.
Qed.

Lemma parse_leaf_nil flags l : parse_leaf flags l = [] <-> leaf_shown flags l = false.
Proof. unfold parse_leaf. destruct (leaf_shown flags l); split; congruence. Qed.

Lemma parse_item_nil flags it :
  has_flag flags SUB_GROUP_CAPS = false ->
  parse_item flags it = [] <-> Forall (fun l => leaf_shown flags l = false) (item_leaves it).
Proof.
  intros Hs. destruct it as [l | sg]; cbn [parse_item item_leaves].
  - rewrite parse_leaf_nil, Forall_cons_iff. split; [auto | tauto].
  - unfold parse_sub_group. rewrite (with_header_nil _ _ _ _ Hs). unfold file_list.
    rewrite flat_map_nil_iff.
    split; apply Forall_impl; intros l; apply parse_leaf_nil.
Qed.

Lemma with_header_head flags caps hd body :
  with_header flags caps hd body <> [] -> with_header flags caps hd body = hd :: body.
Proof. unfold with_header. destruct (_ || _); congruence. Qed.

Lemma Forall2_map_self {A B} (P : A -> B -> Prop) (f : A -> B) l :
  Forall (fun x => P x (f x)) l -> Forall2 P l (map f l).
Proof. induction 1; simpl; constructor; assumption. Qed.

(** What one group contributes: nothing, when none of its leaves is
    shown, or its header followed by entries whose leaves are its shown
    leaves. *)
Lemma parse_group_block flags g :
  (parse_group flags g = [] /\ filter (leaf_shown flags) (group_leaves g) = []) \/
  (exists rest, parse_group flags g = header_entry (group_name g) MENU_SETTING_GROUP :: rest /\
     filter is_leaf_entry rest = map leaf_entry (filter (leaf_shown flags) (group_leaves g))).
Proof.
  pose proof (leaves_parse_group flags g) as H. rewrite parse_leaf_flat_map in H.
  destruct (parse_group flags g) as [|e rest] eqn:E.
  - left. split; [reflexivity |]. symmetry in H. now apply map_eq_nil in H.
  - right. exists rest.
    assert (Hw := with_header_head flags GROUP_CAPS
                    (header_entry (group_name g) MENU_SETTING_GROUP)
                    (flat_map (parse_item flags) (group_items g))).
    fold (parse_group flags g) in Hw. rewrite E in Hw.
    specialize (Hw ltac:(discriminate)). injection Hw as -> _.
    split; [reflexivity | exact H].
Qed.

Lemma parse_settings_some sch info l lbl flags aee :
  Displaylist.list info = Some l ->
  menu_displaylist_parse_settings sch info lbl flags aee
  = (0, Displaylist.set_list info (parse_settings_list sch l lbl flags aee)).
Proof. intros H. unfold menu_displaylist_parse_settings. now rewrite H. Qed.

(** ** Examples *)

Local Open Scope string_scope.

Definition vsync : setting_leaf := {| leaf_name := "Vertical Sync"; leaf_type := ST_BOOL; leaf_visible := true |}.
Definition refresh_rate : setting_leaf := {| leaf_name := "Refresh Rate"; leaf_type := ST_FLOAT; leaf_visible := true |}.
Definition latency : setting_leaf := {| leaf_name := "Audio Latency"; leaf_type := ST_UINT; leaf_visible := true |}.

(** A [Video] group with one bool and one float leaf, and an [Audio] group
    with one uint leaf. *)
Definition video_group : setting_group :=
  {| group_name := "Video"; group_items := [GLeaf vsync; GLeaf refresh_rate] |}.

Definition audio_group : setting_group :=
  {| group_name := "Audio"; group_items := [GSub {| sub_name := "Driver"; sub_items := [latency] |}] |}.

Definition example_schema : schema := [video_group; audio_group].

Local Close Scope string_scope.

(** ** Properties *)

(** C21 (refinement). The settings walk appends to the request's list
    one block per selected group, in schema order. A block is empty only
    when the filter shows none of the group's leaves; otherwise it starts
    with the group's header and its leaf entries are exactly the group's
    shown leaves, in declaration order: every leaf is listed below its
    own group's header and before the next group. *)
Theorem parse_settings_leaves sch info l lbl flags :
  Displaylist.list info = Some l ->
  exists blocks,
    menu_displaylist_parse_settings sch info lbl flags false
      = (0, Displaylist.set_list info (l ++ concat blocks)) /\
    Forall2 (fun g b =>
      (b = [] /\ filter (leaf_shown flags) (group_leaves g) = []) \/
      (exists rest, b = header_entry (group_name g) MENU_SETTING_GROUP :: rest /\
         filter is_leaf_entry rest = map leaf_entry (filter (leaf_shown flags) (group_leaves g))))
      (selected_groups lbl sch) blocks.
Proof.
  intros Hl. rewrite (parse_settings_some _ _ _ _ _ _ Hl).
  exists (map (parse_group flags) (selected_groups lbl sch)). split.
  - unfold parse_settings_list. cbn [andb]. now rewrite flat_map_concat_map.
  - apply Forall2_map_self, Forall_forall. intros g _. apply parse_group_block.
Qed.

(** C22 (safety). When the filter has none of [PARSE_GROUP],
    [PARSE_ONLY_GROUP], [PARSE_SUB_GROUP], [PARSE_ONLY_SUB_GROUP], a
    group is elided exactly when the filter shows none of its leaves; a
    group that is listed always starts with its own header. *)
Theorem parse_group_elision flags g :
  has_flag flags GROUP_CAPS = false -> has_flag flags SUB_GROUP_CAPS = false ->
  (parse_group flags g = [] <-> Forall (fun l => leaf_shown flags l = false) (group_leaves g)) /\
  (parse_group flags g <> [] ->
   exists rest, parse_group flags g = header_entry (group_name g) MENU_SETTING_GROUP :: rest).
Proof.
  intros Hg Hs. split.
  - unfold parse_group. rewrite (with_header_nil _ _ _ _ Hg). unfold file_list.
    rewrite flat_map_nil_iff. unfold group_leaves. rewrite Forall_flat_map_iff.
    split; apply Forall_impl; intros it; apply parse_item_nil, Hs.
  - intros Hne. eexists. apply with_header_head, Hne.
Qed.

(** The spec's scenario: in a schema whose [Video]
    group holds one bool and one float leaf, [PARSE_ONLY_BOOL] lists the
    group header and the bool leaf, [PARSE_ONLY_FLOAT] the header and the
    float leaf, and the [Audio] group, whose only leaf is a uint, is
    omitted under both. *)
Lemma parse_settings_filter_scenario :
  menu_displaylist_parse_settings example_schema (Displaylist.request false true false "" (Some []))
    "" Displaylist.PARSE_ONLY_BOOL false
  = (0, Displaylist.set_list (Displaylist.request false true false "" (Some []))
          [header_entry "Video" MENU_SETTING_GROUP; leaf_entry vsync]) /\
  menu_displaylist_parse_settings example_schema (Displaylist.request false true false "" (Some []))
    "" Displaylist.PARSE_ONLY_FLOAT false
  = (0, Displaylist.set_list (Displaylist.request false true false "" (Some []))
          [header_entry "Video" MENU_SETTING_GROUP; leaf_entry refresh_rate]).
Proof. split; reflexivity. Qed.

(** The [PARSE_*] bits combine as a union: the walk
    under [f1 lor f2] appends exactly the leaves that [f1] or [f2]
    shows. *)
Lemma parse_settings_filter_union sch info l lbl f1 f2 :
  Displaylist.list info = Some l ->
  exists l', menu_displaylist_parse_settings sch info lbl (Z.lor f1 f2) false = (0, Displaylist.set_list info l') /\
    filter is_leaf_entry l'
    = filter is_leaf_entry l
      ++ map leaf_entry (filter (fun x => leaf_shown f1 x || leaf_shown f2 x)
                                (flat_map group_leaves (selected_groups lbl sch))).
Proof.
  intros Hl. rewrite (parse_settings_some _ _ _ _ _ _ Hl). eexists. split; [reflexivity |].
  unfold parse_settings_list. cbn [andb]. rewrite filter_app, parse_groups_leaves. do 2 f_equal.
  apply filter_ext. intros x. unfold leaf_shown. rewrite !has_flag_lor.
  destruct (leaf_visible x), (has_flag f1 _), (has_flag f2 _), (has_flag f1 _), (has_flag f2 _);
    reflexivity.
Qed.

(** With [add_empty_entry] the walk never leaves the
    request's list without a new entry: it appends the shown entries, or
    the placeholder [No settings found.] when there are none; a [NULL]
    list is rejected with [-1] and left as it was. *)
Lemma parse_settings_nonempty sch info lbl flags :
  match Displaylist.list info with
  | None => menu_displaylist_parse_settings sch info lbl flags true = (-1, info)
  | Some l =>
      exists out, menu_displaylist_parse_settings sch info lbl flags true
                  = (0, Displaylist.set_list info (l ++ out)) /\ out <> [] /\
        (flat_map (parse_group flags) (selected_groups lbl sch) = [] ->
         out = [header_entry "No settings found."%string MENU_INFO_MESSAGE])
  end.
Proof.
  unfold menu_displaylist_parse_settings, parse_settings_list.
  destruct (Displaylist.list info) as [l|]; [| reflexivity]. cbn [andb].
  destruct (flat_map (parse_group flags) (selected_groups lbl sch)) as [|e out] eqn:E;
    cbn [is_nil].
  - eexists. split; [reflexivity | split; [discriminate | reflexivity]].
  - eexists. split; [reflexivity | split; [discriminate | discriminate]].
Qed.

(** ** Witnesses *)

Lemma parse_settings_leaves_witness :
  Displaylist.list (Displaylist.request false true false ""%string (Some [])) = Some [] /\
  exists blocks,
    menu_displaylist_parse_settings example_schema (Displaylist.request false true false ""%string (Some []))
      ""%string Displaylist.PARSE_ONLY_BOOL false
      = (0, Displaylist.set_list (Displaylist.request false true false ""%string (Some [])) ([] ++ concat blocks)) /\
    Forall2 (fun g b =>
      (b = [] /\ filter (leaf_shown Displaylist.PARSE_ONLY_BOOL) (group_leaves g) = []) \/
      (exists rest, b = header_entry (group_name g) MENU_SETTING_GROUP :: rest /\
         filter is_leaf_entry rest
         = map leaf_entry (filter (leaf_shown Displaylist.PARSE_ONLY_BOOL) (group_leaves g))))
      (selected_groups ""%string example_schema) blocks.
Proof.
  split; [reflexivity |].
  exact (parse_settings_leaves example_schema (Displaylist.request false true false ""%string (Some []))
           [] ""%string Displaylist.PARSE_ONLY_BOOL eq_refl).
Defined.

Lemma parse_group_elision_witness :
  has_flag Displaylist.PARSE_ONLY_BOOL GROUP_CAPS = false /\
  has_flag Displaylist.PARSE_ONLY_BOOL SUB_GROUP_CAPS = false /\
  parse_group Displaylist.PARSE_ONLY_BOOL audio_group = [].
Proof.
  assert (Hg : has_flag Displaylist.PARSE_ONLY_BOOL GROUP_CAPS = false) by reflexivity.
  assert (Hs : has_flag Displaylist.PARSE_ONLY_BOOL SUB_GROUP_CAPS = false) by reflexivity.
  split; [exact Hg | split; [exact Hs |]].
  apply (proj1 (parse_group_elision _ audio_group Hg Hs)). vm_compute. repeat constructor.
Defined.

End Settings.
