(* ===== verification/SettingsFlat.v ===== *)
(** * SettingsFlat: the settings schema as a flat array

    RetroArch keeps its settings as one flat array of [rarch_setting_t]
    ([menu_setting.c], not under [src/]; modelled from the spec and from
    the shape of that array): a group is an [ST_GROUP] entry, its leaves
    and subgroups, then [ST_END_GROUP]; a subgroup is an [ST_SUB_GROUP]
    entry, its leaves, then [ST_END_SUB_GROUP]; the array ends at
    [ST_NONE] (here: the end of the list).

    This file relates that array to the tree of [Settings]:
    - [flatten] writes a schema as the array;
    - [wf_flat] is the recogniser of well-bracketed arrays, a three-state
      automaton (top level, inside a group, inside a subgroup);
    - [unflatten] parses an array back into a schema, by recursive
      descent with fuel ([length l + 1] is enough: each call consumes an
      entry);
    - [walk_flat] is the linear walk of the settings parser over the
      array (one pass, the open group and subgroup kept in the state),
      which shows the same entries as the tree walk [Settings.parse_group]. *)

From Stdlib Require Import ZArith String List Bool Lia.
Import ListNotations.
From S2P Require Import Prelude FileList Displaylist Settings.

Open Scope list_scope.

Module SettingsFlat.

Import FileList Settings.

(** One [rarch_setting_t], by its [type]. *)
Inductive flat_setting :=
  | FGroup (name : string)
  | FSubGroup (name : string)
  | FLeaf (l : setting_leaf)
  | FEndSubGroup
  | FEndGroup.

Definition flatten_sub (sg : sub_group) : list flat_setting :=
  FSubGroup (sub_name sg) :: map FLeaf (sub_items sg) ++ [FEndSubGroup].

Definition flatten_item (it : group_item) : list flat_setting :=
  match it with
  | GLeaf l => [FLeaf l]
  | GSub sg => flatten_sub sg
  end.

Definition flatten_group (g : setting_group) : list flat_setting :=
  FGroup (group_name g) :: flat_map flatten_item (group_items g) ++ [FEndGroup].

Definition flatten (sch : schema) : list flat_setting := flat_map flatten_group sch.

(** ** The recogniser *)

Inductive scan_state := AtTop | InGroup | InSubGroup.

Fixpoint wf_from (st : scan_state) (l : list flat_setting) : bool :=
  match l, st with
  | [], AtTop => true
  | FGroup _ :: r, AtTop => wf_from InGroup r
  | FLeaf _ :: r, InGroup => wf_from InGroup r
  | FSubGroup _ :: r, InGroup => wf_from InSubGroup r
  | FEndGroup :: r, InGroup => wf_from AtTop r
  | FLeaf _ :: r, InSubGroup => wf_from InSubGroup r
  | FEndSubGroup :: r, InSubGroup => wf_from InGroup r
  | _, _ => false
  end.

Definition wf_flat (l : list flat_setting) : bool := wf_from AtTop l.

(** ** The parser *)

(** The leaves at the head of the array. *)
Fixpoint take_leaves (l : list flat_setting) : list setting_leaf * list flat_setting :=
  match l with
  | FLeaf x :: r => let '(xs, r') := take_leaves r in (x :: xs, r')
  | _ => ([], l)
  end.

(** The items of a group up to its [ST_END_GROUP], and what follows. *)
Fixpoint parse_items (fuel : nat) (l : list flat_setting)
    : option (list group_item * list flat_setting) :=
  match fuel with
  | O => None
  | S f =>
      match l with
      | FEndGroup :: r => Some ([], r)
      | FLeaf x :: r =>
          match parse_items f r with
          | Some (its, r') => Some (GLeaf x :: its, r')
          | None => None
          end
      | FSubGroup n :: r =>
          let '(xs, r1) := take_leaves r in
          match r1 with
          | FEndSubGroup :: r2 =>
              match parse_items f r2 with
              | Some (its, r') => Some (GSub {| sub_name := n; sub_items := xs |} :: its, r')
              | None => None
              end
          | _ => None
          end
      | _ => None
      end
  end.

Fixpoint parse_groups (fuel : nat) (l : list flat_setting) : option schema :=
  match fuel with
  | O => None
  | S f =>
      match l with
      | [] => Some []
      | FGroup n :: r =>
          match parse_items f r with
          | Some (its, r') =>
              match parse_groups f r' with
              | Some gs => Some ({| group_name := n; group_items := its |} :: gs)
              | None => None
              end
          | None => None
          end
      | _ => None
      end
  end.

Definition unflatten (l : list flat_setting) : option schema := parse_groups (S (length l)) l.

(** ** The linear walk *)

(** The state of the walk: the entries shown so far, and the open group
    and subgroup with their headers and shown contents. *)
Record walk_state := {
  ws_out : file_list;
  ws_group : option (menu_entry * file_list);
  ws_sub : option (menu_entry * file_list)
}.

Definition walk_init : walk_state := {| ws_out := []; ws_group := None; ws_sub := None |}.

(** One entry of the array. A group that [info_label] does not select is
    skipped up to its [ST_END_GROUP]: nothing is open while inside it. *)
Definition walk_step (flags : Z) (info_label : string) (st : walk_state) (s : flat_setting)
    : walk_state :=
  match s, ws_group st with
  | FGroup n, _ =>
      {| ws_out := ws_out st;
         ws_group := if String.eqb info_label ""%string || String.eqb n info_label
                     then Some (header_entry n MENU_SETTING_GROUP, []) else None;
         ws_sub := None |}
  | _, None => st
  | FSubGroup n, Some _ =>
      {| ws_out := ws_out st; ws_group := ws_group st;
         ws_sub := Some (header_entry n MENU_SETTING_SUBGROUP, []) |}
  | FLeaf x, Some (gh, gb) =>
      match ws_sub st with
      | Some (h, b) =>
          {| ws_out := ws_out st; ws_group := ws_group st; ws_sub := Some (h, b ++ parse_leaf flags x) |}
      | None =>
          {| ws_out := ws_out st; ws_group := Some (gh, gb ++ parse_leaf flags x); ws_sub := None |}
      end
  | FEndSubGroup, Some (gh, gb) =>
      match ws_sub st with
      | Some (h, b) =>
          {| ws_out := ws_out st; ws_group := Some (gh, gb ++ with_header flags SUB_GROUP_CAPS h b);
             ws_sub := None |}
      | None => st
      end
  | FEndGroup, Some (h, b) =>
      {| ws_out := ws_out st ++ with_header flags GROUP_CAPS h b; ws_group := None; ws_sub := None |}
  end.

Definition walk_flat (flags : Z) (info_label : string) (l : list flat_setting) : file_list :=
  ws_out (fold_left (walk_step flags info_label) l walk_init).

(** [menu_displaylist_parse_settings(data, info, info_label, parse_type,
    add_empty_entry)] over the settings array [data], in one pass. *)
Definition menu_displaylist_parse_settings_flat (data : list flat_setting)
    (info : Displaylist.menu_displaylist_info_t) (info_label : string) (parse_type : Z)
    (add_empty_entry : bool) : Z * Displaylist.menu_displaylist_info_t :=
  match Displaylist.list info with
  | None => (-1, info)
  | Some l =>
      let out := walk_flat parse_type info_label data in
      (0, Displaylist.set_list info
            (if add_empty_entry && is_nil out
             then l ++ [header_entry "No settings found."%string MENU_INFO_MESSAGE]
             else l ++ out))
  end.

(** ** Lemmas on the parser *)

Local Open Scope nat_scope.

Lemma take_leaves_map xs r : take_leaves (map FLeaf xs ++ FEndSubGroup :: r) = (xs, FEndSubGroup :: r).
Proof. induction xs as [|x xs IH]; simpl; [reflexivity |]. now rewrite IH. Qed.

Lemma take_leaves_sound l xs r : take_leaves l = (xs, r) -> l = map FLeaf xs ++ r.
Proof.
  revert xs r. induction l as [|[] l IH]; simpl; intros xs r H; try (injection H as <- <-; reflexivity).
  destruct (take_leaves l) as [ys r'] eqn:E. injection H as <- <-. simpl. f_equal. now apply IH.
Qed.

Lemma parse_items_flatten its r f :
  length (flat_map flatten_item its ++ FEndGroup :: r) < f ->
  parse_items f (flat_map flatten_item its ++ FEndGroup :: r) = Some (its, r).
Proof.
  revert f. induction its as [|[x | [n xs]] its IH]; intros [|f] Hf; simpl in *; try lia;
    [reflexivity | rewrite IH by lia; reflexivity |].
  rewrite <- app_assoc. simpl. rewrite <- app_assoc. simpl. rewrite take_leaves_map, IH; [reflexivity |].
  repeat (rewrite ?length_app, ?length_map in *; simpl in * ). lia.
Qed.

Lemma parse_groups_flatten sch f : length (flatten sch) < f -> parse_groups f (flatten sch) = Some sch.
Proof.
  revert f. induction sch as [|[n its] sch IH]; intros [|f] Hf; simpl in *; try lia; [reflexivity |].
  rewrite <- app_assoc. simpl. rewrite parse_items_flatten, IH; [reflexivity | |];
    repeat (rewrite ?length_app in *; simpl in * ); lia.
Qed.

Lemma parse_items_sound f l its r :
  parse_items f l = Some (its, r) -> l = flat_map flatten_item its ++ FEndGroup :: r.
Proof.
  revert l its r. induction f as [|f IH]; intros l its r H; simpl in H; [discriminate |].
  destruct l as [|[n | n | x | |] l]; try discriminate.
  - destruct (take_leaves l) as [xs r1] eqn:Et. destruct r1 as [|[] r2]; try discriminate.
    destruct (parse_items f r2) as [[its' r']|] eqn:Ep; [| discriminate]. injection H as <- <-.
    apply take_leaves_sound in Et. rewrite Et, (IH _ _ _ Ep). simpl.
    unfold flatten_sub. simpl. now rewrite <- !app_assoc.
  - destruct (parse_items f l) as [[its' r']|] eqn:Ep; [| discriminate]. injection H as <- <-.
    simpl. f_equal. now apply IH.
  - injection H as <- <-. reflexivity.
Qed.

Lemma parse_groups_sound f l gs : parse_groups f l = Some gs -> flatten gs = l.
Proof.
  revert l gs. induction f as [|f IH]; intros l gs H; simpl in H; [discriminate |].
  destruct l as [|[n | | | |] l]; try discriminate; [injection H as <-; reflexivity |].
  destruct (parse_items f l) as [[its r]|] eqn:Ep; [| discriminate].
  destruct (parse_groups f r) as [gs'|] eqn:Eg; [| discriminate]. injection H as <-.
  simpl. rewrite (parse_items_sound _ _ _ _ Ep), <- (IH _ _ Eg). unfold flatten_group. simpl.
  now rewrite <- app_assoc.
Qed.

Lemma take_leaves_wf l :
  wf_from InSubGroup l = true ->
  exists xs r, take_leaves l = (xs, FEndSubGroup :: r) /\ wf_from InGroup r = true /\
    length r < length l.
Proof.
  induction l as [|[] l IH]; simpl; intros H; try discriminate.
  - destruct (IH H) as (xs & r & -> & Hr & Hl). exists (l0 :: xs), r. repeat split; auto; simpl; lia.
  - exists [], l. auto.
Qed.

Lemma parse_items_total f l :
  wf_from InGroup l = true -> length l < f ->
  exists its r, parse_items f l = Some (its, r) /\ wf_from AtTop r = true /\ length r < length l.
Proof.
  revert l. induction f as [|f IH]; intros l H Hf; [lia |]. simpl.
  destruct l as [|[n | n | x | |] l]; simpl in H, Hf; try discriminate.
  - destruct (take_leaves_wf l H) as (xs & r2 & -> & Hr2 & Hl).
    destruct (IH r2 Hr2 ltac:(lia)) as (its & r & -> & Hr & Hlr).
    do 2 eexists. split; [reflexivity | split; [exact Hr | simpl; lia]].
  - destruct (IH l H ltac:(lia)) as (its & r & -> & Hr & Hlr).
    do 2 eexists. split; [reflexivity | split; [exact Hr | simpl; lia]].
  - exists [], l. split; [reflexivity | split; [exact H | simpl; lia]].
Qed.

Lemma parse_groups_total f l :
  wf_from AtTop l = true -> length l < f -> exists gs, parse_groups f l = Some gs.
Proof.
  revert l. induction f as [|f IH]; intros l H Hf; [lia |]. simpl.
  destruct l as [|[n | | | |] l]; simpl in H, Hf; try discriminate; [eauto |].
  destruct (parse_items_total f l H ltac:(lia)) as (its & r & -> & Hr & Hl).
  destruct (IH r Hr ltac:(lia)) as [gs ->]. eauto.
Qed.

Lemma wf_from_leaves st xs r :
  st <> AtTop -> wf_from st (map FLeaf xs ++ r) = wf_from st r.
Proof. intros Hst. induction xs; simpl; [reflexivity |]. destruct st; congruence. Qed.

Lemma wf_from_items its r : wf_from InGroup (flat_map flatten_item its ++ FEndGroup :: r) = wf_from AtTop r.
Proof.
  induction its as [|[x | [n xs]] its IH]; simpl; [reflexivity | exact IH |].
  rewrite <- !app_assoc. simpl. rewrite wf_from_leaves by discriminate. exact IH.
Qed.

Lemma wf_flatten sch : wf_flat (flatten sch) = true.
Proof.
  unfold wf_flat. induction sch as [|g sch IH]; simpl; [reflexivity |].
  rewrite <- app_assoc. simpl. now rewrite wf_from_items.
Qed.

(** ** Lemmas on the walk *)

Section Walk.

Context (flags : Z) (lbl : string).

Lemma walk_leaves out g h b xs :
  fold_left (walk_step flags lbl) (map FLeaf xs) {| ws_out := out; ws_group := Some g; ws_sub := Some (h, b) |}
  = {| ws_out := out; ws_group := Some g; ws_sub := Some (h, b ++ flat_map (parse_leaf flags) xs) |}.
Proof.
  destruct g as [gh gb]. revert b. induction xs as [|x xs IH]; intros b; simpl.
  - now rewrite app_nil_r.
  - rewrite IH. now rewrite <- app_assoc.
Qed.

Lemma walk_items out gh gb its :
  fold_left (walk_step flags lbl) (flat_map flatten_item its) {| ws_out := out; ws_group := Some (gh, gb); ws_sub := None |}
  = {| ws_out := out; ws_group := Some (gh, gb ++ flat_map (parse_item flags) its); ws_sub := None |}.
Proof.
  revert gb. induction its as [|[x | [n xs]] its IH]; intros gb; simpl.
  - now rewrite app_nil_r.
  - rewrite IH. now rewrite <- app_assoc.
  - rewrite !fold_left_app. simpl. rewrite walk_leaves. simpl. rewrite IH.
    unfold parse_sub_group. simpl. now rewrite <- app_assoc.
Qed.

Lemma walk_skipped_leaves out sb xs :
  fold_left (walk_step flags lbl) (map FLeaf xs) {| ws_out := out; ws_group := None; ws_sub := sb |}
  = {| ws_out := out; ws_group := None; ws_sub := sb |}.
Proof. induction xs; simpl; auto. Qed.

Lemma walk_skipped_items out its :
  fold_left (walk_step flags lbl) (flat_map flatten_item its) {| ws_out := out; ws_group := None; ws_sub := None |}
  = {| ws_out := out; ws_group := None; ws_sub := None |}.
Proof.
  induction its as [|[x | [n xs]] its IH]; simpl; [reflexivity | exact IH |].
  rewrite !fold_left_app. simpl. now rewrite walk_skipped_leaves.
Qed.

Lemma walk_groups out sch :
  fold_left (walk_step flags lbl) (flatten sch) {| ws_out := out; ws_group := None; ws_sub := None |}
  = {| ws_out := out ++ flat_map (parse_group flags) (selected_groups lbl sch);
       ws_group := None; ws_sub := None |}.
Proof.
  revert out. induction sch as [|[n its] sch IH]; intros out; simpl.
  - now rewrite app_nil_r.
  - rewrite !fold_left_app. simpl.
    destruct (String.eqb lbl ""%string || String.eqb n lbl); simpl.
    + rewrite walk_items. simpl. rewrite IH. now rewrite <- app_assoc.
    + rewrite walk_skipped_items. simpl. apply IH.
Qed.

Lemma walk_flat_flatten sch :
  walk_flat flags lbl (flatten sch) = flat_map (parse_group flags) (selected_groups lbl sch).
Proof. unfold walk_flat, walk_init. now rewrite walk_groups. Qed.

End Walk.

(** ** Properties *)

(** C23 (equivalence). The one-pass walk of the settings parser over a
    well-bracketed settings array does what the tree walk does on the
    schema the array encodes: the array parses (the parser's fuel
    [length + 1] is enough), the schema it gives writes back as the same
    array, and [menu_displaylist_parse_settings] over the array leaves
    the request exactly as over the schema, on every path ([NULL] list,
    placeholder, entries). *)
Theorem parse_settings_flat_equiv data info lbl flags aee :
  wf_flat data = true ->
  exists sch, unflatten data = Some sch /\ flatten sch = data /\
    menu_displaylist_parse_settings_flat data info lbl flags aee
    = menu_displaylist_parse_settings sch info lbl flags aee.
Proof.
  intros Hwf. destruct (parse_groups_total (S (length data)) data Hwf ltac:(lia)) as [sch Hp].
  pose proof (parse_groups_sound _ _ _ Hp) as Hs.
  exists sch. split; [exact Hp | split; [exact Hs |]].
  unfold menu_displaylist_parse_settings_flat, menu_displaylist_parse_settings, parse_settings_list.
  destruct (Displaylist.list info); [| reflexivity].
  rewrite <- Hs, walk_flat_flatten. reflexivity.
Qed.

(** ** Witnesses *)

Lemma parse_settings_flat_equiv_witness :
  wf_flat (flatten example_schema) = true /\
  exists sch, unflatten (flatten example_schema) = Some sch /\
    flatten sch = flatten example_schema /\
    menu_displaylist_parse_settings_flat (flatten example_schema)
      (Displaylist.request false true false ""%string (Some [])) ""%string
      Displaylist.PARSE_ONLY_BOOL true
    = menu_displaylist_parse_settings sch
        (Displaylist.request false true false ""%string (Some [])) ""%string
        Displaylist.PARSE_ONLY_BOOL true.
Proof.
  split; [vm_compute; reflexivity |].
  apply parse_settings_flat_equiv. vm_compute. reflexivity.
Defined.

End SettingsFlat.
