(* ===== verification/NavStack.v ===== *)
(** * NavStack: the navigation stack of menu frames

    The menu's stack of lists ([menu_list], the [menu_list] field of
    [menu_displaylist_info_t], line 122 of [src/menu/menu_displaylist.h])
    is owned by the menu code, which is not under [src/]; it is modelled
    from the spec (sections 3 and 4.4): a sequence of frames, the first
    being the current one, with [push], [pop], an atomic replacement of
    the current frame, and a terminal [destroyed] state. The classes
    [empty], [single-frame] and [multi-frame] of the spec are functions of
    the number of frames. *)

From Stdlib Require Import List Arith Lia.
Import ListNotations.
From S2P Require Import Prelude FileList.

Module NavStack.

Import FileList.

Inductive nav_state :=
  | NavLive (frames : list file_list)
  | NavDestroyed.

Inductive nav_class := NavEmpty | NavSingle | NavMulti | NavGone.

Definition nav_class_of (s : nav_state) : nav_class :=
  match s with
  | NavDestroyed => NavGone
  | NavLive [] => NavEmpty
  | NavLive [_] => NavSingle
  | NavLive _ => NavMulti
  end.

Definition nav_init : nav_state := NavLive [].

(** The frame the renderer shows. *)
Definition nav_top (s : nav_state) : option file_list :=
  match s with NavLive (f :: _) => Some f | _ => None end.

Definition nav_push (f : file_list) (s : nav_state) : nav_state :=
  match s with NavLive fs => NavLive (f :: fs) | NavDestroyed => NavDestroyed end.

(** Replace the current frame in one step; on an empty stack the frame
    becomes the first one. *)
Definition nav_replace_top (f : file_list) (s : nav_state) : nav_state :=
  match s with
  | NavLive (_ :: fs) => NavLive (f :: fs)
  | NavLive [] => NavLive [f]
  | NavDestroyed => NavDestroyed
  end.

Definition nav_pop (s : nav_state) : nav_state :=
  match s with NavLive (_ :: fs) => NavLive fs | s => s end.

(** The operations of the stack, as the labels of its steps. *)
Inductive nav_op :=
  | OpPush (f : file_list)
  | OpReplace (f : file_list)
  | OpPop
  | OpDestroy.

Inductive nav_step : nav_state -> nav_op -> nav_state -> Prop :=
  | ns_push fs f : nav_step (NavLive fs) (OpPush f) (NavLive (f :: fs))
  | ns_replace fs f : nav_step (NavLive fs) (OpReplace f) (nav_replace_top f (NavLive fs))
  | ns_pop f fs : nav_step (NavLive (f :: fs)) OpPop (NavLive fs)
  | ns_destroy fs : nav_step (NavLive fs) OpDestroy NavDestroyed.

Inductive nav_star : nav_state -> list nav_op -> nav_state -> Prop :=
  | nstar_nil s : nav_star s [] s
  | nstar_cons s o s' ops s'' : nav_step s o s' -> nav_star s' ops s'' -> nav_star s (o :: ops) s''.

(** The history of committed frames: each frame a push or a replacement
    installed, in order. *)
Fixpoint committed (ops : list nav_op) : list file_list :=
  match ops with
  | [] => []
  | OpPush f :: ops' | OpReplace f :: ops' => f :: committed ops'
  | _ :: ops' => committed ops'
  end.

(** Every frame of a live stack was committed by some operation. *)
Definition frames_committed (ops : list nav_op) (s : nav_state) : Prop :=
  match s with
  | NavLive fs => Forall (fun f => In f (committed ops)) fs
  | NavDestroyed => True
  end.

(** ** Lemmas *)

Lemma nav_step_deterministic s o s1 s2 : nav_step s o s1 -> nav_step s o s2 -> s1 = s2.
Proof. intros H1 H2. inversion H1; subst; inversion H2; subst; reflexivity. Qed.

Lemma nav_star_app s ops1 s1 ops2 s2 :
  nav_star s ops1 s1 -> nav_star s1 ops2 s2 -> nav_star s (ops1 ++ ops2) s2.
Proof. induction 1; simpl; eauto using nav_star. Qed.

Lemma nav_destroyed_stuck o s : ~ nav_step NavDestroyed o s.
Proof. inversion 1. Qed.

Lemma nav_star_destroyed ops s : nav_star NavDestroyed ops s -> ops = [] /\ s = NavDestroyed.
Proof. inversion 1; subst; [auto | exfalso; eapply nav_destroyed_stuck; eassumption]. Qed.

Lemma committed_app ops1 ops2 : committed (ops1 ++ ops2) = committed ops1 ++ committed ops2.
Proof. induction ops1 as [|[] ops1 IH]; simpl; rewrite ?IH; reflexivity. Qed.

Lemma frames_committed_step ops s o s' :
  frames_committed ops s -> nav_step s o s' -> frames_committed (ops ++ [o]) s'.
Proof.
  intros Hc Hs. unfold frames_committed in *. rewrite committed_app.
  assert (Hw : forall f, In f (committed ops) -> In f (committed ops ++ committed [o]))
    by (intros f Hf; apply in_or_app; now left).
  assert (Hn : forall f, committed [o] = [f] -> In f (committed ops ++ committed [o]))
    by (intros f ->; apply in_or_app; right; now left).
  destruct Hs; simpl in *; try exact I.
  - constructor; [now apply Hn | eapply Forall_impl; [exact Hw | exact Hc]].
  - destruct fs as [|g fs]; (constructor; [now apply Hn |]); [constructor |].
    inversion Hc; subst. eapply Forall_impl; [exact Hw | assumption].
  - inversion Hc; subst. eapply Forall_impl; [exact Hw | assumption].
Qed.

End NavStack.
