(* ===== verification/Dispatcher.v ===== *)
(** * Dispatcher: the displaylist dispatcher

    [menu_displaylist_push_list(info, type)],
    [menu_displaylist_push_list_process(info)] and
    [menu_displaylist_push(list, menu_list)] are declared in
    [src/menu/menu_displaylist.h] (lines 136-138); their bodies
    ([menu/menu_displaylist.c]) are not under [src/], so the dispatcher is
    modelled from the spec (section 4.2).

    [strategy_of] routes each of the 64 list types to one strategy; an
    [unsigned] type that names no list type, and [DISPLAYLIST_NONE], get
    no strategy. A strategy reads one backing source ([backing]: the core
    catalog, the playlist, the database, the file system, the settings
    schema, the static menus) or, for the file browser at the root, the
    frontend driver's [parse_drive_list] hook, through the driver
    interface [frontend_ctx_driver_t] of [FrontendDriver]. A build that
    yields nothing, or whose source is unavailable, gets the one
    placeholder entry. [menu_displaylist_push_list] writes the target list
    [info.list] (fresh with [need_refresh], appended to otherwise) and
    fails with [-1], changing nothing, when it is [NULL];
    [menu_displaylist_push_list_process] sorts it with [need_sort] and
    commits it to the navigation stack in one step: a push with
    [need_push], a replacement of the current frame otherwise. *)

From Stdlib Require Import ZArith String Ascii List Bool Lia Sorted Permutation.
Import ListNotations.
From S2P Require Import Prelude FileList Displaylist EntrySort Settings NavStack FrontendDriver CtrFrontend.

Open Scope Z_scope.
Open Scope list_scope.

Module Dispatcher.

Import FileList NavStack FrontendDriver.

Inductive strategy :=
  | StratNoContent
  | StratStatic
  | StratSettings
  | StratPlaylist
  | StratCores
  | StratDatabase
  | StratFileBrowser.

(** The routing table: a total function over the closed enum. *)
Definition strategy_of (t : Displaylist.displaylist_type) : strategy :=
  match t with
  | Displaylist.DISPLAYLIST_NONE => StratNoContent
  | Displaylist.DISPLAYLIST_INFO | Displaylist.DISPLAYLIST_HELP | Displaylist.DISPLAYLIST_HELP_SCREEN_LIST
  | Displaylist.DISPLAYLIST_MAIN_MENU | Displaylist.DISPLAYLIST_GENERIC | Displaylist.DISPLAYLIST_HORIZONTAL
  | Displaylist.DISPLAYLIST_HORIZONTAL_CONTENT_ACTIONS | Displaylist.DISPLAYLIST_CORE_OPTIONS
  | Displaylist.DISPLAYLIST_CORE_INFO | Displaylist.DISPLAYLIST_PERFCOUNTERS_CORE
  | Displaylist.DISPLAYLIST_PERFCOUNTERS_FRONTEND | Displaylist.DISPLAYLIST_SHADER_PARAMETERS
  | Displaylist.DISPLAYLIST_SHADER_PARAMETERS_PRESET | Displaylist.DISPLAYLIST_SYSTEM_INFO
  | Displaylist.DISPLAYLIST_DEBUG_INFO | Displaylist.DISPLAYLIST_LOAD_CONTENT_LIST
  | Displaylist.DISPLAYLIST_INFORMATION_LIST | Displaylist.DISPLAYLIST_CONTENT_SETTINGS | Displaylist.DISPLAYLIST_OPTIONS
  | Displaylist.DISPLAYLIST_OPTIONS_CHEATS | Displaylist.DISPLAYLIST_OPTIONS_REMAPPINGS
  | Displaylist.DISPLAYLIST_OPTIONS_MANAGEMENT | Displaylist.DISPLAYLIST_OPTIONS_DISK
  | Displaylist.DISPLAYLIST_OPTIONS_SHADERS | Displaylist.DISPLAYLIST_ADD_CONTENT_LIST
  | Displaylist.DISPLAYLIST_ARCHIVE_ACTION | Displaylist.DISPLAYLIST_ARCHIVE_ACTION_DETECT_CORE
  | Displaylist.DISPLAYLIST_CORE_CONTENT => StratStatic
  | Displaylist.DISPLAYLIST_SETTINGS | Displaylist.DISPLAYLIST_SETTINGS_ALL | Displaylist.DISPLAYLIST_USER_BINDS_LIST
  | Displaylist.DISPLAYLIST_ACCOUNTS_LIST | Displaylist.DISPLAYLIST_INPUT_SETTINGS_LIST
  | Displaylist.DISPLAYLIST_INPUT_HOTKEY_BINDS_LIST | Displaylist.DISPLAYLIST_PLAYLIST_SETTINGS_LIST
  | Displaylist.DISPLAYLIST_ACCOUNTS_CHEEVOS_LIST => StratSettings
  | Displaylist.DISPLAYLIST_HISTORY | Displaylist.DISPLAYLIST_PLAYLIST_COLLECTION
  | Displaylist.DISPLAYLIST_CONTENT_HISTORY => StratPlaylist
  | Displaylist.DISPLAYLIST_CORES | Displaylist.DISPLAYLIST_CORES_SUPPORTED
  | Displaylist.DISPLAYLIST_CORES_COLLECTION_SUPPORTED | Displaylist.DISPLAYLIST_CORES_UPDATER
  | Displaylist.DISPLAYLIST_CORES_DETECTED => StratCores
  | Displaylist.DISPLAYLIST_DATABASES | Displaylist.DISPLAYLIST_DATABASE_CURSORS
  | Displaylist.DISPLAYLIST_DATABASE_PLAYLISTS | Displaylist.DISPLAYLIST_DATABASE_PLAYLISTS_HORIZONTAL
  | Displaylist.DISPLAYLIST_DATABASE_QUERY | Displaylist.DISPLAYLIST_DATABASE_ENTRY => StratDatabase
  | Displaylist.DISPLAYLIST_DEFAULT | Displaylist.DISPLAYLIST_SHADER_PASS | Displaylist.DISPLAYLIST_SHADER_PRESET
  | Displaylist.DISPLAYLIST_AUDIO_FILTERS | Displaylist.DISPLAYLIST_VIDEO_FILTERS | Displaylist.DISPLAYLIST_CHEAT_FILES
  | Displaylist.DISPLAYLIST_REMAP_FILES | Displaylist.DISPLAYLIST_RECORD_CONFIG_FILES
  | Displaylist.DISPLAYLIST_CONFIG_FILES | Displaylist.DISPLAYLIST_IMAGES | Displaylist.DISPLAYLIST_FONTS
  | Displaylist.DISPLAYLIST_OVERLAYS | Displaylist.DISPLAYLIST_SCAN_DIRECTORY_LIST => StratFileBrowser
  end.

(** The sources a strategy reads. [None] is a source that is not
    available (a playlist or database not found, a directory that cannot
    be read). *)
Record backing := {
  core_catalog : list (string * string);
  playlist_source : option (list (string * string));
  database_source : option (list string);
  filesystem : string -> option (list (string * bool));
  settings_schema : Settings.schema;
  static_lists : Displaylist.displaylist_type -> file_list
}.

Definition mk (path label : string) (t : menu_file_type) (dptr : Z) : menu_entry :=
  {| entry_path := path; entry_label := label; entry_type := t;
     entry_directory_ptr := dptr; entry_idx := 0 |}.

(** The entry of an empty result. *)
Definition placeholder : menu_entry := mk "" "No items." MENU_INFO_MESSAGE 0.

Definition is_dot (c : ascii) : bool := Ascii.eqb c "."%char.
Definition is_bar (c : ascii) : bool := Ascii.eqb c "|"%char.

(** The text after the last dot of a name, [""] without a dot. *)
Fixpoint path_get_extension (s : string) : string :=
  match s with
  | EmptyString => ""
  | String c s' =>
      let e := path_get_extension s' in
      if String.eqb e "" then (if is_dot c then s' else "") else e
  end.

(** The [|]-separated extensions of [exts]. *)
Fixpoint split_bar (s : string) (cur : string) : list string :=
  match s with
  | EmptyString => [cur]
  | String c s' => if is_bar c then cur :: split_bar s' "" else split_bar s' (cur ++ String c "")
  end.

(** A file is listed when the filter is empty or names its extension;
    directories are always listed. *)
Definition ext_ok (exts : string) (name : string) (is_dir : bool) : bool :=
  is_dir || String.eqb exts "" ||
  existsb (String.eqb (path_get_extension name)) (split_bar exts "").

Section Strategies.

Context {W : Type} (drv : frontend_ctx_driver_t W) (w : W) (b : backing).

(** The root of the file browser: the driver's drives, none when the
    driver has no [parse_drive_list]. *)
Definition drive_list : file_list :=
  match parse_drive_list drv with
  | Some h => match snd (h (Some []) w) with Some l => l | None => [] end
  | None => []
  end.

Definition file_browser (info : Displaylist.menu_displaylist_info_t) : file_list :=
  if String.eqb (Displaylist.path info) "" then drive_list
  else
    match filesystem b (Displaylist.path info) with
    | None => []
    | Some es =>
        map (fun '((name, d) : string * bool) =>
               mk name ""%string (if d then MENU_FILE_DIRECTORY else MENU_FILE_PLAIN)
                  (Displaylist.directory_ptr info))
            (filter (fun '(name, d) => ext_ok (Displaylist.exts info) name d) es)
    end.

Definition run_strategy (s : strategy) (t : Displaylist.displaylist_type)
    (info : Displaylist.menu_displaylist_info_t) : file_list :=
  match s with
  | StratNoContent => []
  | StratStatic => static_lists b t
  | StratSettings =>
      Settings.parse_settings_list (settings_schema b) []
        (Displaylist.label info) (Displaylist.flags info) false
  | StratPlaylist =>
      match playlist_source b with
      | None => []
      | Some es => map (fun '(p, lb) => mk p lb MENU_FILE_PLAYLIST_ENTRY 0) es
      end
  | StratCores => map (fun '(p, lb) => mk p lb MENU_FILE_CORE 0) (core_catalog b)
  | StratDatabase =>
      match database_source b with
      | None => []
      | Some es => map (fun n => mk n n MENU_FILE_RDB_ENTRY 0) es
      end
  | StratFileBrowser => file_browser info
  end.

(** The entries a request yields: those of its strategy, or the
    placeholder when there are none. *)
Definition build_entries (info : Displaylist.menu_displaylist_info_t) (type : Z) : file_list :=
  let es := match Displaylist.displaylist_type_of_Z type with
            | None => []
            | Some t => run_strategy (strategy_of t) t info
            end in
  if Settings.is_nil es then [placeholder] else es.

End Strategies.

(** [menu_displaylist_push_list(info, type)]: [-1] and no change for a
    [NULL] target list. *)
Definition menu_displaylist_push_list {W} (drv : frontend_ctx_driver_t W) (w : W) (b : backing)
    (info : Displaylist.menu_displaylist_info_t) (type : Z) : Z * Displaylist.menu_displaylist_info_t :=
  match Displaylist.list info with
  | None => (-1, info)
  | Some cur =>
      let base := if Displaylist.need_refresh info then [] else cur in
      (0, Displaylist.set_list info (base ++ build_entries drv w b info type))
  end.

(** The frame a built request commits. *)
Definition frame_of (info : Displaylist.menu_displaylist_info_t) : option file_list :=
  match Displaylist.list info with
  | None => None
  | Some l => Some (if Displaylist.need_sort info then EntrySort.sort_entries l else l)
  end.

(** [menu_displaylist_push_list_process(info)]. *)
Definition menu_displaylist_push_list_process (info : Displaylist.menu_displaylist_info_t)
    (nav : nav_state) : nav_state :=
  match frame_of info with
  | None => nav
  | Some f => if Displaylist.need_push info then nav_push f nav else nav_replace_top f nav
  end.

(** A whole build: the list, then its commit. *)
Definition displaylist_build {W} (drv : frontend_ctx_driver_t W) (w : W) (b : backing)
    (nav : nav_state) (info : Displaylist.menu_displaylist_info_t) (type : Z) : Z * nav_state :=
  let '(rc, info') := menu_displaylist_push_list drv w b info type in
  if rc =? 0 then (0, menu_displaylist_push_list_process info' nav) else (rc, nav).

(** The states of the navigation stack that builds, pops and the
    tear-down reach from the empty stack. *)
Inductive nav_reach {W} (drv : frontend_ctx_driver_t W) (w : W) (b : backing) : nav_state -> Prop :=
  | reach_init : nav_reach drv w b nav_init
  | reach_build s info type :
      nav_reach drv w b s -> nav_reach drv w b (snd (displaylist_build drv w b s info type))
  | reach_pop s : nav_reach drv w b s -> nav_reach drv w b (nav_pop s)
  | reach_destroy fs : nav_reach drv w b (NavLive fs) -> nav_reach drv w b NavDestroyed.

(** No frame of the stack is an empty list. *)
Definition frames_nonempty (s : nav_state) : Prop :=
  match s with NavLive fs => Forall (fun f => f <> []) fs | NavDestroyed => True end.

(** ** Concrete requests *)

Local Open Scope string_scope.

(** A core catalog holding [zCore] then [aCore]. *)
Definition example_backing : backing :=
  {| core_catalog := [("cores/zcore_libretro.so", "zCore"); ("cores/acore_libretro.so", "aCore")];
     playlist_source := None;
     database_source := None;
     filesystem := fun _ => None;
     settings_schema := Settings.example_schema;
     static_lists := fun _ => [] |}.

Definition cores_request : Displaylist.menu_displaylist_info_t := Displaylist.request true true true "" (Some []).

Local Close Scope string_scope.

(** ** Lemmas *)

Section BuildLemmas.

Context {W : Type} (drv : frontend_ctx_driver_t W) (w : W) (b : backing).

Lemma build_entries_nonempty info type : build_entries drv w b info type <> [].
Proof.
  unfold build_entries.
  generalize (match Displaylist.displaylist_type_of_Z type with
              | None => [] | Some t => run_strategy drv w b (strategy_of t) t info end).
  intros [|e es]; simpl; discriminate.
Qed.

Lemma push_list_none info type :
  Displaylist.list info = None -> menu_displaylist_push_list drv w b info type = (-1, info).
Proof. intros H. unfold menu_displaylist_push_list. now rewrite H. Qed.

Lemma push_list_some info type cur :
  Displaylist.list info = Some cur ->
  menu_displaylist_push_list drv w b info type
  = (0, Displaylist.set_list info ((if Displaylist.need_refresh info then [] else cur)
                       ++ build_entries drv w b info type)).
Proof. intros H. unfold menu_displaylist_push_list. now rewrite H. Qed.

(** With [need_refresh] the built list does not depend on what the target
    held. *)
Lemma push_list_refresh info type cur :
  Displaylist.list info = Some cur -> Displaylist.need_refresh info = true ->
  menu_displaylist_push_list drv w b info type = (0, Displaylist.set_list info (build_entries drv w b info type)).
Proof. intros H Hr. rewrite (push_list_some _ _ cur H), Hr. reflexivity. Qed.

Lemma build_some info type cur nav :
  Displaylist.list info = Some cur ->
  displaylist_build drv w b nav info type
  = (0, menu_displaylist_push_list_process
          (Displaylist.set_list info ((if Displaylist.need_refresh info then [] else cur)
                          ++ build_entries drv w b info type)) nav).
Proof. intros H. unfold displaylist_build. rewrite (push_list_some _ _ cur H). reflexivity. Qed.

End BuildLemmas.

Lemma frame_of_set_list info l :
  frame_of (Displaylist.set_list info l) = Some (if Displaylist.need_sort info then EntrySort.sort_entries l else l).
Proof. reflexivity. Qed.

Lemma need_push_set_list info l : Displaylist.need_push (Displaylist.set_list info l) = Displaylist.need_push info.
Proof. reflexivity. Qed.

Lemma nav_replace_top_idem f s : nav_replace_top f (nav_replace_top f s) = nav_replace_top f s.
Proof. destruct s as [[|g fs]|]; reflexivity. Qed.

(** The commit of a frame is one step of the stack. *)
Lemma process_step info f fs :
  frame_of info = Some f ->
  exists o, (o = OpPush f \/ o = OpReplace f) /\
    nav_step (NavLive fs) o (menu_displaylist_push_list_process info (NavLive fs)) /\
    nav_top (menu_displaylist_push_list_process info (NavLive fs)) = Some f.
Proof.
  intros Hf. unfold menu_displaylist_push_list_process. rewrite Hf.
  destruct (Displaylist.need_push info).
  - exists (OpPush f). split; [now left | split; [constructor | reflexivity]].
  - exists (OpReplace f). split; [now right | split; [constructor | destruct fs; reflexivity]].
Qed.

Lemma frame_of_nonempty info f :
  frame_of info = Some f -> Displaylist.list info <> Some [] -> f <> [].
Proof.
  unfold frame_of. destruct (Displaylist.list info) as [l|]; [| discriminate].
  intros H Hl. injection H as <-. intros Hf.
  destruct (Displaylist.need_sort info); [| subst; exact (Hl eq_refl)].
  pose proof (EntrySort.sort_by_perm EntrySort.sort_key l) as Hp.
  unfold EntrySort.sort_entries in Hf. rewrite Hf in Hp.
  apply Permutation_nil in Hp. subst. exact (Hl eq_refl).
Qed.

Lemma process_keeps_nonempty info nav :
  frames_nonempty nav -> Displaylist.list info <> Some [] ->
  frames_nonempty (menu_displaylist_push_list_process info nav).
Proof.
  intros Hn Hl. unfold menu_displaylist_push_list_process.
  destruct (frame_of info) as [f|] eqn:Hf; [| exact Hn].
  pose proof (frame_of_nonempty _ _ Hf Hl) as Hne.
  destruct (Displaylist.need_push info), nav as [[|g fs]|]; simpl in *; auto.
  all: inversion Hn; subst; auto.
Qed.

Lemma build_keeps_nonempty {W} (drv : frontend_ctx_driver_t W) w b nav info type :
  frames_nonempty nav -> frames_nonempty (snd (displaylist_build drv w b nav info type)).
Proof.
  intros Hn. destruct (Displaylist.list info) as [cur|] eqn:Hl.
  - rewrite (build_some _ _ _ _ _ cur _ Hl). apply process_keeps_nonempty; [exact Hn |].
    simpl. intros H. injection H as H. apply app_eq_nil in H as [_ H].
    exact (build_entries_nonempty drv w b info type H).
  - unfold displaylist_build. rewrite (push_list_none _ _ _ _ _ Hl). exact Hn.
Qed.

Lemma pop_keeps_nonempty nav : frames_nonempty nav -> frames_nonempty (nav_pop nav).
Proof. destruct nav as [[|f fs]|]; simpl; auto. intros H. now inversion H. Qed.

(** ** Properties *)

(** C19 (functional). With [need_sort], the frame a build commits holds
    the entries of the built list, each as many times, ordered:
    directories first, then by label without case. *)
Theorem frame_sorted info l :
  Displaylist.list info = Some l -> Displaylist.need_sort info = true ->
  exists f, frame_of info = Some f /\
    Sorted (fun a b => EntrySort.key_leb EntrySort.sort_key a b = true) f /\ Permutation f l.
Proof.
  intros Hl Hs. unfold frame_of. rewrite Hl, Hs. eexists. split; [reflexivity |].
  split; [apply EntrySort.sort_by_sorted | apply EntrySort.sort_by_perm].
Qed.

(** C20 (functional). The commit keeps equal entries in order: in the
    committed frame, the entries with a given key (same label up to case,
    both directories or both not) are those of the built list, in the
    same order, sorted or not. *)
Theorem frame_stable info l k :
  Displaylist.list info = Some l ->
  option_map (EntrySort.with_key EntrySort.sort_key k) (frame_of info)
  = Some (EntrySort.with_key EntrySort.sort_key k l).
Proof.
  intros Hl. unfold frame_of. rewrite Hl. simpl.
  destruct (Displaylist.need_sort info); [| reflexivity].
  f_equal. apply EntrySort.with_key_sort.
Qed.

(** With [need_sort], no directory of the committed frame
    comes after an entry that is not one. *)
Lemma frame_dirs_first info f i j a b :
  Displaylist.need_sort info = true -> frame_of info = Some f ->
  (i < j)%nat -> nth_error f i = Some a -> nth_error f j = Some b ->
  entry_type b = MENU_FILE_DIRECTORY -> entry_type a = MENU_FILE_DIRECTORY.
Proof.
  intros Hs Hf Hij Ha Hb. unfold frame_of in Hf. rewrite Hs in Hf.
  destruct (Displaylist.list info) as [l|]; [| discriminate]. injection Hf as <-.
  apply EntrySort.sort_key_dir_below.
  exact (EntrySort.strongly_sorted_nth _ _ _ _ _ _ (EntrySort.sort_by_strongly_sorted EntrySort.sort_key l)
           Hij Ha Hb).
Qed.

(** Committing a committed frame again changes
    nothing: sorting a sorted frame is the identity. *)
Lemma frame_commit_idempotent info f :
  frame_of info = Some f -> frame_of (Displaylist.set_list info f) = Some f.
Proof.
  unfold frame_of. simpl. destruct (Displaylist.list info) as [l|]; [| discriminate].
  destruct (Displaylist.need_sort info); intros H; injection H as <-; [| reflexivity].
  f_equal. apply EntrySort.sort_by_sorted_id, EntrySort.sort_by_sorted.
Qed.

(** C24 (invariant). In every state of the navigation stack that
    builds, pops and the tear-down reach from the empty stack, no frame is
    an empty list: the renderer never shows an empty list, whatever the
    requests, since every build yields its entries or the placeholder. *)
Theorem reachable_frames_nonempty {W} (drv : frontend_ctx_driver_t W) w b s :
  nav_reach drv w b s ->
  frames_nonempty s /\ (forall f, nav_top s = Some f -> f <> []).
Proof.
  intros Hr. assert (Hn : frames_nonempty s).
  { induction Hr; simpl; auto using build_keeps_nonempty, pop_keeps_nonempty. }
  split; [exact Hn |]. intros f Ht. destruct s as [[|g fs]|]; simpl in Ht; try discriminate.
  injection Ht as <-. now inversion Hn.
Qed.

(** A request whose type names no list type, or names
    [DISPLAYLIST_NONE], yields exactly one entry, the placeholder, after
    what the target list keeps; and no request yields an empty result. *)
Theorem build_unmapped_placeholder {W} (drv : frontend_ctx_driver_t W) w b info type cur :
  Displaylist.list info = Some cur ->
  Displaylist.displaylist_type_of_Z type = None \/
  Displaylist.displaylist_type_of_Z type = Some Displaylist.DISPLAYLIST_NONE ->
  menu_displaylist_push_list drv w b info type
  = (0, Displaylist.set_list info ((if Displaylist.need_refresh info then [] else cur) ++ [placeholder])) /\
  (forall type', build_entries drv w b info type' <> []).
Proof.
  intros Hl Ht. split; [| intros; apply build_entries_nonempty].
  rewrite (push_list_some _ _ _ _ _ cur Hl). unfold build_entries.
  destruct Ht as [-> | ->]; reflexivity.
Qed.

(** A request whose target list is [NULL] is rejected with
    [-1] and changes neither the request nor the navigation stack. *)
Theorem build_invalid_target {W} (drv : frontend_ctx_driver_t W) w b nav info type :
  Displaylist.list info = None ->
  menu_displaylist_push_list drv w b info type = (-1, info) /\
  displaylist_build drv w b nav info type = (-1, nav).
Proof.
  intros Hl. unfold displaylist_build. rewrite (push_list_none drv w b _ type Hl).
  split; reflexivity.
Qed.

(** A build with [need_refresh] is idempotent: building
    the same request again shows the same frame, and without
    [need_push] it leaves the whole stack as the first build did. *)
Lemma build_refresh_idempotent {W} (drv : frontend_ctx_driver_t W) w b nav info type cur :
  Displaylist.list info = Some cur -> Displaylist.need_refresh info = true ->
  let nav1 := snd (displaylist_build drv w b nav info type) in
  let nav2 := snd (displaylist_build drv w b nav1 info type) in
  nav_top nav2 = nav_top nav1 /\
  (Displaylist.need_push info = false -> nav2 = nav1).
Proof.
  intros Hl Hr. cbv zeta. rewrite !(build_some _ _ _ _ _ cur _ Hl), Hr. simpl.
  unfold menu_displaylist_push_list_process. rewrite !frame_of_set_list, !need_push_set_list.
  destruct (Displaylist.need_push info); split; try discriminate.
  - destruct nav; reflexivity.
  - destruct nav as [[|g fs]|]; reflexivity.
  - intros _. apply nav_replace_top_idem.
Qed.

(** A build on a live navigation stack is either
    rejected, leaving the stack as it was, or commits the built frame in
    exactly one step of the stack (a push with [need_push], a replacement
    of the current frame otherwise), after which that frame, sorted when
    [need_sort] asks for it, is the one the renderer shows. *)
Theorem build_single_commit {W} (drv : frontend_ctx_driver_t W) w b fs info type :
  let '(rc, nav') := displaylist_build drv w b (NavLive fs) info type in
  (rc = -1 /\ nav' = NavLive fs /\ Displaylist.list info = None) \/
  (rc = 0 /\ exists cur f o,
     Displaylist.list info = Some cur /\
     f = (let l := (if Displaylist.need_refresh info then [] else cur)
                   ++ build_entries drv w b info type in
          if Displaylist.need_sort info then EntrySort.sort_entries l else l) /\
     (o = OpPush f \/ o = OpReplace f) /\ nav_step (NavLive fs) o nav' /\ nav_top nav' = Some f).
Proof.
  destruct (Displaylist.list info) as [cur|] eqn:Hl.
  - rewrite (build_some _ _ _ _ _ cur _ Hl). right. split; [reflexivity |].
    destruct (process_step (Displaylist.set_list info ((if Displaylist.need_refresh info then [] else cur)
                                           ++ build_entries drv w b info type)) _ fs
                (frame_of_set_list _ _)) as (o & Ho & Hs & Ht).
    exists cur. eexists. exists o.
    exact (conj eq_refl (conj eq_refl (conj Ho (conj Hs Ht)))).
  - unfold displaylist_build. rewrite (push_list_none _ _ _ _ _ Hl). left. auto.
Qed.

(** The spec's scenarios. A sorted request for
    [DISPLAYLIST_CORES] against a catalog holding [zCore] then [aCore]
    shows [aCore] then [zCore]. On the ctr driver, the file browser at the
    root ([DISPLAYLIST_DEFAULT] with an empty path) shows the one drive the
    driver's [parse_drive_list] pushes: the directory [sdmc:/]. *)
Lemma dispatcher_scenarios :
  option_map (map entry_label)
    (nav_top (snd (displaylist_build (null_driver unit "null") tt example_backing nav_init
                     cores_request (Displaylist.displaylist_type_to_Z Displaylist.DISPLAYLIST_CORES))))
  = Some ["aCore"; "zCore"]%string /\
  option_map (map (fun e => (display_label e, entry_type e)))
    (nav_top (snd (displaylist_build
                     (CtrFrontend.frontend_ctx_ctr CtrFrontend.example_cfg CtrFrontend.csnd_fail_env)
                     CtrFrontend.example_state example_backing nav_init
                     (Displaylist.request false true true "" (Some []))
                     (Displaylist.displaylist_type_to_Z Displaylist.DISPLAYLIST_DEFAULT))))
  = Some [("sdmc:/"%string, MENU_FILE_DIRECTORY)].
Proof. split; vm_compute; reflexivity. Qed.

(** ** Witnesses *)

Definition sorted_request : Displaylist.menu_displaylist_info_t :=
  Displaylist.request true false false ""%string (Some EntrySort.mixed_list).

Lemma frame_sorted_witness :
  exists f, frame_of sorted_request = Some f /\
    Sorted (fun a b => EntrySort.key_leb EntrySort.sort_key a b = true) f /\
    Permutation f EntrySort.mixed_list.
Proof. exact (frame_sorted sorted_request EntrySort.mixed_list eq_refl eq_refl). Defined.

Lemma frame_stable_witness :
  option_map (map entry_type)
    (option_map (EntrySort.with_key EntrySort.sort_key (EntrySort.sort_key (EntrySort.mk_entry "aCore"%string MENU_FILE_CORE)))
       (frame_of sorted_request))
  = Some [MENU_FILE_CORE; MENU_FILE_PLAIN].
Proof.
  rewrite (frame_stable sorted_request EntrySort.mixed_list _ eq_refl). reflexivity.
Defined.

Lemma build_unmapped_placeholder_witness :
  menu_displaylist_push_list (null_driver unit "null") tt example_backing cores_request 64
  = (0, Displaylist.set_list cores_request [placeholder]).
Proof.
  destruct (build_unmapped_placeholder (null_driver unit "null") tt example_backing cores_request 64 []
              eq_refl (or_introl eq_refl)) as [H _].
  exact H.
Defined.

Lemma build_invalid_target_witness :
  displaylist_build (null_driver unit "null") tt example_backing nav_init
    (Displaylist.request true true true ""%string None) 13 = (-1, nav_init).
Proof.
  exact (proj2 (build_invalid_target (null_driver unit "null") tt example_backing nav_init
                  (Displaylist.request true true true ""%string None) 13 eq_refl)).
Defined.

Lemma reachable_frames_nonempty_witness :
  let s := snd (displaylist_build (null_driver unit "null") tt example_backing nav_init cores_request 13) in
  nav_reach (null_driver unit "null") tt example_backing s /\
  frames_nonempty s /\ (forall f, nav_top s = Some f -> f <> []).
Proof.
  cbv zeta.
  assert (H : nav_reach (null_driver unit "null") tt example_backing
                (snd (displaylist_build (null_driver unit "null") tt example_backing nav_init cores_request 13)))
    by (apply reach_build, reach_init).
  split; [exact H | exact (reachable_frames_nonempty _ _ _ _ H)].
Defined.

End Dispatcher.
